(** * JHN Finance AI agent: the voice widget and the text widget

    A shallow embedding of the two chat components of the repository,
    [components/Chatbot.tsx] (live voice session) and
    [components/ChatbotText.tsx] (text chat), together with the shared
    declarations of [types.ts].

    Conventions of the embedding.

    - React state ([useState]) and refs ([useRef]) of a component are the
      fields of one [State] record; a handler is a function on that record.
      A state updater [setX(prev => f prev)] that reads nothing but [prev]
      is applied where it is called.  The updaters of the live transcript
      read a ref: they are queued by the handler and run by the render
      that follows it, when they read the ref.
      A handler closes over the values of the render it was created in.
      The handler of the submission of the voice widget, whose guard is
      such a captured state, takes the state of its render as an argument
      of its own; the other handlers are modelled as invoked from the
      latest render, so they read the committed fields of the record.
    - Calls that leave the component (Web Audio nodes, media tracks, the
      model API, [fetch]) are recorded, in order, in the [effects] field.
    - An [async] handler is cut at its [await]s: the part up to the first
      [await] is one function, each resumption another one, and the
      activations that are suspended are kept in the [pending] field.
    - Times of the audio clock ([AudioContext.currentTime], buffer
      durations) are JavaScript numbers; they are modelled as rationals
      [Q].  The facts proved about them only use the order, [Math.max] and
      that adding a non-negative duration does not move a time backwards.
    - Strings are sequences of 8-bit code units read as Latin-1. *)

From Stdlib Require Import List String Ascii Bool Arith ZArith QArith Qminmax Qround.
From Stdlib Require Import DecimalString Lia.
Import ListNotations.

Local Open Scope string_scope.
Local Open Scope list_scope.

(** ** [types.ts] *)

Inductive ChatStatus : Type :=
| IDLE | CONNECTING | LISTENING | PROCESSING | SPEAKING | ERROR.

Inductive Speaker : Type := user | bot.

Record TranscriptionEntry : Type := mkEntry {
  speaker : Speaker;
  text : string;
  isFinal : bool
}.

Definition Speaker_eqb (a b : Speaker) : bool :=
  match a, b with
  | user, user | bot, bot => true
  | _, _ => false
  end.

(** The template literal [`${t.speaker}`]. *)
Definition Speaker_toString (s : Speaker) : string :=
  match s with user => "user" | bot => "bot" end.

(** ** JavaScript values used by both components *)

Module JS.

Definition LF : string := String (ascii_of_nat 10) EmptyString.

(** Truthiness of a string: the empty string is falsy. *)
Definition truthy (s : string) : bool :=
  match s with EmptyString => false | String _ _ => true end.

(** [a || b] on a possibly undefined string [a] and a string [b]. *)
Definition or_else (a : option string) (b : string) : string :=
  match a with
  | Some s => if truthy s then s else b
  | None => b
  end.

(** [s += v] on a string [s] and a possibly undefined string [v]:
    [undefined] is converted to the text ["undefined"]. *)
Definition add (s : string) (v : option string) : string :=
  (s ++ match v with Some t => t | None => "undefined" end)%string.

(** White space of [String.prototype.trim] among the Latin-1 code units:
    TAB, LF, VT, FF, CR, SPACE and NBSP. *)
Definition isWhiteSpace (c : ascii) : bool :=
  let n := nat_of_ascii c in
  (Nat.leb 9 n && Nat.leb n 13) || Nat.eqb n 32 || Nat.eqb n 160.

Fixpoint trimStart (s : string) : string :=
  match s with
  | EmptyString => EmptyString
  | String c s' => if isWhiteSpace c then trimStart s' else s
  end.

Fixpoint trimEnd (s : string) : string :=
  match s with
  | EmptyString => EmptyString
  | String c s' =>
      match trimEnd s' with
      | EmptyString => if isWhiteSpace c then EmptyString else String c EmptyString
      | t => String c t
      end
  end.

Definition trim (s : string) : string := trimEnd (trimStart s).

(** [String.prototype.toLowerCase] on Latin-1: A-Z and the capital
    letters U+00C0 .. U+00DE except the multiplication sign U+00D7. *)
Definition toLowerCase_char (c : ascii) : ascii :=
  let n := nat_of_ascii c in
  if (Nat.leb 65 n && Nat.leb n 90)
     || (Nat.leb 192 n && Nat.leb n 222 && negb (Nat.eqb n 215))
  then ascii_of_nat (n + 32) else c.

Fixpoint toLowerCase (s : string) : string :=
  match s with
  | EmptyString => EmptyString
  | String c s' => String (toLowerCase_char c) (toLowerCase s')
  end.

(** [hay.includes(needle)]. *)
Fixpoint includes (hay needle : string) : bool :=
  String.prefix needle hay
  || match hay with
     | EmptyString => false
     | String _ hay' => includes hay' needle
     end.

(** [`${n}`] for a non-negative integer. *)
Definition Number_toString (n : nat) : string :=
  NilEmpty.string_of_uint (Nat.to_uint n).

(** *** Numbers stored into an [Int16Array]

    A sample of a [Float32Array] is a finite binary fraction, a NaN or an
    infinity.  The finite ones are rationals; the product of a float32 by
    the power of two 32768 is exact in double precision, so it is the
    rational product. *)
Inductive Number : Type :=
| Finite (q : Q)
| NaN
| Infinity (negative : bool).

Definition mul (x : Number) (k : positive) : Number :=
  match x with
  | Finite q => Finite (q * (Zpos k # 1))
  | NaN => NaN
  | Infinity s => Infinity s
  end.

(** ECMAScript [truncate(x)]: remove the fractional part, rounding towards
    zero. *)
Definition truncate (q : Q) : Z := Z.quot (Qnum q) (Zpos (Qden q)).

(** ECMAScript [ToInt16], the conversion done by a store into an
    [Int16Array]: NaN and the infinities give 0; otherwise truncate, reduce
    modulo 2^16 and read the result as a two's-complement number. *)
Definition ToInt16 (x : Number) : Z :=
  match x with
  | Finite q =>
      let int := truncate q in
      let int16bit := (int mod 65536)%Z in
      if (32768 <=? int16bit)%Z then (int16bit - 65536)%Z else int16bit
  | NaN => 0%Z
  | Infinity _ => 0%Z
  end.

(** The wording of the specification for the same conversion: the
    integer is wrapped into the Int16 range [-32768, 32767]. *)
Definition wrapInt16 (z : Z) : Z := ((z + 32768) mod 65536 - 32768)%Z.

End JS.

(** ** [services/audioUtils] *)

Module AudioUtils.

Record AudioBuffer : Type := mkAudioBuffer {
  numberOfChannels : positive;
  length : nat;          (* sample frames *)
  sampleRate : positive
}.

(** [AudioBuffer.duration], in seconds. *)
Definition duration (b : AudioBuffer) : Q :=
  Z.of_nat (length b) # sampleRate b.

(** Modelled from the spec: [decodeAudioData] of [services/audioUtils],
    which is not among the sources.  It reads the bytes as signed 16-bit
    PCM samples, ignores a trailing partial sample, and packages them as a
    buffer of the given sample rate and channel count.  Only the shape of
    the buffer is kept. *)
Definition decodeAudioData
    (data : list Byte.byte) (sampleRate : positive) (numChannels : positive)
  : AudioBuffer :=
  {| numberOfChannels := numChannels;
     length := Nat.div (Nat.div (List.length data) 2) (Pos.to_nat numChannels);
     sampleRate := sampleRate |}.

End AudioUtils.

(** ** [getApiKey], the same helper in both components *)

(** The places a key is read from: [import.meta.env] of the Vite build and
    [window.process.env] injected by the server ([None] for a variable that
    is not defined, or when the object that holds it is absent). *)
Record Environment : Type := mkEnvironment {
  VITE_GEMINI_API_KEY : option string;
  GOOGLE_GEMINI_API_KEY : option string;
  API_KEY : option string;
  GEMINI_API_KEY : option string
}.

Definition getApiKey (env : Environment) : string :=
  let fallback :=
    JS.or_else (GOOGLE_GEMINI_API_KEY env)
      (JS.or_else (API_KEY env) (JS.or_else (GEMINI_API_KEY env) "")) in
  match VITE_GEMINI_API_KEY env with
  | Some fromVite => if JS.truthy fromVite then fromVite else fallback
  | None => fallback
  end.

(** ** Results of awaited operations *)

(** A rejection carries the [message] of its reason, [None] when the
    reason has none.  A handler that reads it as [e?.message] finds none
    in a reason that is [null] or [undefined] either; a handler that
    reads [err.message] throws on such a reason, which is then given
    apart ([ChatbotText.replyRejectedNullish]). *)
Inductive Settled (A : Type) : Type :=
| Fulfilled (value : A)
| Rejected (message : option string).
Arguments Fulfilled {A} value.
Arguments Rejected {A} message.

(** The response of the relay [POST /api/submit-quote] as the components
    read it: [webhookRes.ok], [webhookRes.status] and the fields [ok] and
    [error] of the JSON body ([json = None] when [webhookRes.json()]
    rejects, which [.catch(() => ({}))] turns into the empty object). *)
Record RelayBody : Type := mkRelayBody {
  body_ok : bool;                (* truthiness of [result.ok] *)
  body_error : option string     (* [result.error] *)
}.

Record Response : Type := mkResponse {
  ok : bool;
  http_status : nat;
  json : option RelayBody
}.

Definition emptyObject : RelayBody :=
  {| body_ok := false; body_error := None |}.

(** The stages at which an activation of [handleDataSubmission] is
    suspended.  The local [success] is still [false] at both. *)
Inductive SubmissionStage : Type :=
| AwaitGenerateContent
| AwaitFetch.

(** What happens to the submission of a component: the submit action is
    invoked, or the suspended activation [i] is resumed with the outcome of
    the extraction request or of the relay call. *)
Inductive Event : Type :=
| Submit
| GenerateContentSettled (i : nat) (r : Settled (option string))
| FetchSettled (i : nat) (r : Settled Response).

Fixpoint replace_nth {A} (i : nat) (x : A) (l : list A) : list A :=
  match l, i with
  | [], _ => []
  | _ :: l', O => x :: l'
  | y :: l', S i' => y :: replace_nth i' x l'
  end.

Fixpoint remove_nth {A} (i : nat) (l : list A) : list A :=
  match l, i with
  | [], _ => []
  | _ :: l', O => l'
  | y :: l', S i' => y :: remove_nth i' l'
  end.

(** ** [components/Chatbot.tsx]: the voice widget *)

Module Chatbot.

Import AudioUtils.

(** *** Objects held by the refs *)

Inductive AudioContextState : Type := suspended | running | closed.

Record AudioContext : Type := mkAudioContext {
  ctx_id : nat;
  ctx_state : AudioContextState
}.

Record MediaStream : Type := mkMediaStream { getTracks : list nat }.

(** A scheduled [AudioBufferSourceNode]: its identity, the time given to
    [source.start] and its buffer. *)
Record AudioBufferSourceNode : Type := mkSource {
  node : nat;
  startTime : Q;
  buffer : AudioBuffer
}.

Definition endTime (s : AudioBufferSourceNode) : Q :=
  startTime s + duration (buffer s).

Inductive Effect : Type :=
| SourceStart (s : AudioBufferSourceNode)       (* [source.start(startTime)] *)
| SourceStop (n : nat)                          (* [source.stop()] *)
| TrackStop (track : nat)
| ProcessorDisconnect (n : nat)
| ContextClose (ctx : nat)
| SessionClose (session : nat)
| SendRealtimeInput (data mimeType : string)
| GenerateContent (model contents : string)
| Fetch (url method body : string).

(** *** [LiveServerMessage], the fields [onmessage] reads *)

(** [serverContent.modelTurn].  Its [parts] are optional in the type of the
    SDK, and [onmessage] reads [modelTurn?.parts[0]] without a guard on
    [parts]. *)
Inductive ModelTurn : Type :=
| WithoutParts                        (* [parts] is undefined *)
| WithParts (data : option string).   (* [parts[0]?.inlineData?.data] *)

(** A transcription object is [None] when [serverContent] has none;
    otherwise it holds its [text], which is optional too. *)
Record LiveServerMessage : Type := mkMessage {
  inputTranscription : option (option string);
  outputTranscription : option (option string);
  turnComplete : bool;
  modelTurn : option ModelTurn;
  interrupted : bool
}.

(** [message.serverContent?.modelTurn?.parts[0]?.inlineData?.data]: the
    value read, or [None] when [parts[0]] throws a [TypeError]. *)
Definition base64AudioOf (message : LiveServerMessage) : option (option string) :=
  match modelTurn message with
  | None => Some None
  | Some WithoutParts => None
  | Some (WithParts data) => Some data
  end.

(** *** State of the component *)
Record State : Type := mkState {
  status : ChatStatus;
  transcription : list TranscriptionEntry;
  error : option string;
  showFeedback : bool;
  feedbackSubmitted : bool;
  isSubmitting : bool;
  sessionPromiseRef : option nat;
  inputAudioContextRef : option AudioContext;
  outputAudioContextRef : option AudioContext;
  microphoneStreamRef : option MediaStream;
  scriptProcessorRef : option nat;
  nextAudioStartTimeRef : Q;
  audioSourcesRef : list AudioBufferSourceNode;   (* a [Set], in insertion order *)
  isSubmittingRef : bool;
  currentInputTranscriptionRef : string;
  currentOutputTranscriptionRef : string;
  allocated : nat;                      (* identity of the next node created *)
  pending : list SubmissionStage;       (* suspended submissions *)
  effects : list Effect
}.

Definition setStatus v st :=
  mkState v (transcription st) (error st) (showFeedback st)
    (feedbackSubmitted st) (isSubmitting st) (sessionPromiseRef st)
    (inputAudioContextRef st) (outputAudioContextRef st)
    (microphoneStreamRef st) (scriptProcessorRef st)
    (nextAudioStartTimeRef st) (audioSourcesRef st) (isSubmittingRef st)
    (currentInputTranscriptionRef st) (currentOutputTranscriptionRef st)
    (allocated st) (pending st) (effects st).

Definition setTranscription (f : list TranscriptionEntry -> list TranscriptionEntry) st :=
  mkState (status st) (f (transcription st)) (error st) (showFeedback st)
    (feedbackSubmitted st) (isSubmitting st) (sessionPromiseRef st)
    (inputAudioContextRef st) (outputAudioContextRef st)
    (microphoneStreamRef st) (scriptProcessorRef st)
    (nextAudioStartTimeRef st) (audioSourcesRef st) (isSubmittingRef st)
    (currentInputTranscriptionRef st) (currentOutputTranscriptionRef st)
    (allocated st) (pending st) (effects st).

Definition setError v st :=
  mkState (status st) (transcription st) v (showFeedback st)
    (feedbackSubmitted st) (isSubmitting st) (sessionPromiseRef st)
    (inputAudioContextRef st) (outputAudioContextRef st)
    (microphoneStreamRef st) (scriptProcessorRef st)
    (nextAudioStartTimeRef st) (audioSourcesRef st) (isSubmittingRef st)
    (currentInputTranscriptionRef st) (currentOutputTranscriptionRef st)
    (allocated st) (pending st) (effects st).

Definition setShowFeedback v st :=
  mkState (status st) (transcription st) (error st) v
    (feedbackSubmitted st) (isSubmitting st) (sessionPromiseRef st)
    (inputAudioContextRef st) (outputAudioContextRef st)
    (microphoneStreamRef st) (scriptProcessorRef st)
    (nextAudioStartTimeRef st) (audioSourcesRef st) (isSubmittingRef st)
    (currentInputTranscriptionRef st) (currentOutputTranscriptionRef st)
    (allocated st) (pending st) (effects st).

Definition setFeedbackSubmitted v st :=
  mkState (status st) (transcription st) (error st) (showFeedback st)
    v (isSubmitting st) (sessionPromiseRef st)
    (inputAudioContextRef st) (outputAudioContextRef st)
    (microphoneStreamRef st) (scriptProcessorRef st)
    (nextAudioStartTimeRef st) (audioSourcesRef st) (isSubmittingRef st)
    (currentInputTranscriptionRef st) (currentOutputTranscriptionRef st)
    (allocated st) (pending st) (effects st).

Definition setIsSubmitting v st :=
  mkState (status st) (transcription st) (error st) (showFeedback st)
    (feedbackSubmitted st) v (sessionPromiseRef st)
    (inputAudioContextRef st) (outputAudioContextRef st)
    (microphoneStreamRef st) (scriptProcessorRef st)
    (nextAudioStartTimeRef st) (audioSourcesRef st) (isSubmittingRef st)
    (currentInputTranscriptionRef st) (currentOutputTranscriptionRef st)
    (allocated st) (pending st) (effects st).

Definition set_sessionPromiseRef v st :=
  mkState (status st) (transcription st) (error st) (showFeedback st)
    (feedbackSubmitted st) (isSubmitting st) v
    (inputAudioContextRef st) (outputAudioContextRef st)
    (microphoneStreamRef st) (scriptProcessorRef st)
    (nextAudioStartTimeRef st) (audioSourcesRef st) (isSubmittingRef st)
    (currentInputTranscriptionRef st) (currentOutputTranscriptionRef st)
    (allocated st) (pending st) (effects st).

Definition set_inputAudioContextRef v st :=
  mkState (status st) (transcription st) (error st) (showFeedback st)
    (feedbackSubmitted st) (isSubmitting st) (sessionPromiseRef st)
    v (outputAudioContextRef st)
    (microphoneStreamRef st) (scriptProcessorRef st)
    (nextAudioStartTimeRef st) (audioSourcesRef st) (isSubmittingRef st)
    (currentInputTranscriptionRef st) (currentOutputTranscriptionRef st)
    (allocated st) (pending st) (effects st).

Definition set_outputAudioContextRef v st :=
  mkState (status st) (transcription st) (error st) (showFeedback st)
    (feedbackSubmitted st) (isSubmitting st) (sessionPromiseRef st)
    (inputAudioContextRef st) v
    (microphoneStreamRef st) (scriptProcessorRef st)
    (nextAudioStartTimeRef st) (audioSourcesRef st) (isSubmittingRef st)
    (currentInputTranscriptionRef st) (currentOutputTranscriptionRef st)
    (allocated st) (pending st) (effects st).

Definition set_microphoneStreamRef v st :=
  mkState (status st) (transcription st) (error st) (showFeedback st)
    (feedbackSubmitted st) (isSubmitting st) (sessionPromiseRef st)
    (inputAudioContextRef st) (outputAudioContextRef st)
    v (scriptProcessorRef st)
    (nextAudioStartTimeRef st) (audioSourcesRef st) (isSubmittingRef st)
    (currentInputTranscriptionRef st) (currentOutputTranscriptionRef st)
    (allocated st) (pending st) (effects st).

Definition set_scriptProcessorRef v st :=
  mkState (status st) (transcription st) (error st) (showFeedback st)
    (feedbackSubmitted st) (isSubmitting st) (sessionPromiseRef st)
    (inputAudioContextRef st) (outputAudioContextRef st)
    (microphoneStreamRef st) v
    (nextAudioStartTimeRef st) (audioSourcesRef st) (isSubmittingRef st)
    (currentInputTranscriptionRef st) (currentOutputTranscriptionRef st)
    (allocated st) (pending st) (effects st).

Definition set_nextAudioStartTimeRef v st :=
  mkState (status st) (transcription st) (error st) (showFeedback st)
    (feedbackSubmitted st) (isSubmitting st) (sessionPromiseRef st)
    (inputAudioContextRef st) (outputAudioContextRef st)
    (microphoneStreamRef st) (scriptProcessorRef st)
    v (audioSourcesRef st) (isSubmittingRef st)
    (currentInputTranscriptionRef st) (currentOutputTranscriptionRef st)
    (allocated st) (pending st) (effects st).

Definition set_audioSourcesRef v st :=
  mkState (status st) (transcription st) (error st) (showFeedback st)
    (feedbackSubmitted st) (isSubmitting st) (sessionPromiseRef st)
    (inputAudioContextRef st) (outputAudioContextRef st)
    (microphoneStreamRef st) (scriptProcessorRef st)
    (nextAudioStartTimeRef st) v (isSubmittingRef st)
    (currentInputTranscriptionRef st) (currentOutputTranscriptionRef st)
    (allocated st) (pending st) (effects st).

Definition set_isSubmittingRef v st :=
  mkState (status st) (transcription st) (error st) (showFeedback st)
    (feedbackSubmitted st) (isSubmitting st) (sessionPromiseRef st)
    (inputAudioContextRef st) (outputAudioContextRef st)
    (microphoneStreamRef st) (scriptProcessorRef st)
    (nextAudioStartTimeRef st) (audioSourcesRef st) v
    (currentInputTranscriptionRef st) (currentOutputTranscriptionRef st)
    (allocated st) (pending st) (effects st).

Definition set_currentInputTranscriptionRef v st :=
  mkState (status st) (transcription st) (error st) (showFeedback st)
    (feedbackSubmitted st) (isSubmitting st) (sessionPromiseRef st)
    (inputAudioContextRef st) (outputAudioContextRef st)
    (microphoneStreamRef st) (scriptProcessorRef st)
    (nextAudioStartTimeRef st) (audioSourcesRef st) (isSubmittingRef st)
    v (currentOutputTranscriptionRef st)
    (allocated st) (pending st) (effects st).

Definition set_currentOutputTranscriptionRef v st :=
  mkState (status st) (transcription st) (error st) (showFeedback st)
    (feedbackSubmitted st) (isSubmitting st) (sessionPromiseRef st)
    (inputAudioContextRef st) (outputAudioContextRef st)
    (microphoneStreamRef st) (scriptProcessorRef st)
    (nextAudioStartTimeRef st) (audioSourcesRef st) (isSubmittingRef st)
    (currentInputTranscriptionRef st) v
    (allocated st) (pending st) (effects st).

Definition set_allocated v st :=
  mkState (status st) (transcription st) (error st) (showFeedback st)
    (feedbackSubmitted st) (isSubmitting st) (sessionPromiseRef st)
    (inputAudioContextRef st) (outputAudioContextRef st)
    (microphoneStreamRef st) (scriptProcessorRef st)
    (nextAudioStartTimeRef st) (audioSourcesRef st) (isSubmittingRef st)
    (currentInputTranscriptionRef st) (currentOutputTranscriptionRef st)
    v (pending st) (effects st).

Definition set_pending v st :=
  mkState (status st) (transcription st) (error st) (showFeedback st)
    (feedbackSubmitted st) (isSubmitting st) (sessionPromiseRef st)
    (inputAudioContextRef st) (outputAudioContextRef st)
    (microphoneStreamRef st) (scriptProcessorRef st)
    (nextAudioStartTimeRef st) (audioSourcesRef st) (isSubmittingRef st)
    (currentInputTranscriptionRef st) (currentOutputTranscriptionRef st)
    (allocated st) v (effects st).

(** Record the calls [es] after those already made. *)
Definition perform (es : list Effect) st :=
  mkState (status st) (transcription st) (error st) (showFeedback st)
    (feedbackSubmitted st) (isSubmitting st) (sessionPromiseRef st)
    (inputAudioContextRef st) (outputAudioContextRef st)
    (microphoneStreamRef st) (scriptProcessorRef st)
    (nextAudioStartTimeRef st) (audioSourcesRef st) (isSubmittingRef st)
    (currentInputTranscriptionRef st) (currentOutputTranscriptionRef st)
    (allocated st) (pending st) (effects st ++ es).

(** *** Teardown *)

(** [stopAudioPlayback]. *)
Definition stopAudioPlayback (st : State) : State :=
  match outputAudioContextRef st with
  | Some _ =>
      let st := perform (map (fun source => SourceStop (node source))
                             (audioSourcesRef st)) st in
      let st := set_audioSourcesRef [] st in
      set_nextAudioStartTimeRef 0%Q st
  | None => st
  end.

Definition closeIfOpen (c : option AudioContext) : list Effect :=
  match c with
  | Some ctx =>
      match ctx_state ctx with
      | closed => []
      | _ => [ContextClose (ctx_id ctx)]
      end
  | None => []
  end.

(** [cleanup]. *)
Definition cleanup (st : State) : State :=
  let st := stopAudioPlayback st in
  let st :=
    match microphoneStreamRef st with
    | Some stream =>
        set_microphoneStreamRef None
          (perform (map TrackStop (getTracks stream)) st)
    | None => st
    end in
  let st :=
    match scriptProcessorRef st with
    | Some p => set_scriptProcessorRef None (perform [ProcessorDisconnect p] st)
    | None => st
    end in
  let st := perform (closeIfOpen (inputAudioContextRef st)) st in
  let st := perform (closeIfOpen (outputAudioContextRef st)) st in
  let st := set_inputAudioContextRef None st in
  let st := set_outputAudioContextRef None st in
  let st :=
    match sessionPromiseRef st with
    | Some session =>
        set_sessionPromiseRef None (perform [SessionClose session] st)
    | None => st
    end in
  set_isSubmittingRef false st.

(** [resetChat]. *)
Definition resetChat (st : State) : State :=
  let st := setTranscription (fun _ => []) st in
  let st := setError None st in
  let st := setShowFeedback false st in
  let st := setFeedbackSubmitted false st in
  let st := setIsSubmitting false st in
  let st := set_isSubmittingRef false st in
  let st := setStatus IDLE st in
  cleanup st.

(** [stopSession]. *)
Definition stopSession (st : State) : State :=
  cleanup (setStatus IDLE st).

(** The [onerror] and [onclose] callbacks of the live session. *)
Definition onerror (st : State) : State :=
  let st := setError
    (Some "We encountered a problem connecting. Please check your API key.") st in
  let st := setStatus ERROR st in
  cleanup st.

Definition onclose (st : State) : State := cleanup st.

(** *** Inbound messages of the live session *)

(** The updater passed to [setTranscription] for a partial transcription
    of [who], the accumulated text being [current]: amend the last entry
    when it is a non-final entry of [who], append a new entry otherwise. *)
Definition amendLast (who : Speaker) (current : string)
    (prev : list TranscriptionEntry) : list TranscriptionEntry :=
  match nth_error prev (List.length prev - 1) with
  | Some last =>
      if Speaker_eqb (speaker last) who && negb (isFinal last)
      then removelast prev ++ [mkEntry (speaker last) current (isFinal last)]
      else prev ++ [mkEntry who current false]
  | None => prev ++ [mkEntry who current false]
  end.

(** The functions that [onmessage] passes to [setTranscription].  React
    does not run them when they are passed: it queues them and runs them,
    in order, when it next renders.  The updater of a partial
    transcription reads the ref of its speaker at that time, not when it
    was queued. *)
Inductive Updater : Type :=
| AmendLast (who : Speaker)
| MarkFinal.       (* [prev => prev.map(entry => ({ ...entry, isFinal: true }))] *)

Definition applyUpdater (u : Updater) (st : State) : State :=
  match u with
  | AmendLast user =>
      setTranscription (amendLast user (currentInputTranscriptionRef st)) st
  | AmendLast bot =>
      setTranscription (amendLast bot (currentOutputTranscriptionRef st)) st
  | MarkFinal =>
      setTranscription
        (map (fun entry => mkEntry (speaker entry) (text entry) true)) st
  end.

(** The render that follows: the queued updaters are run in order. *)
Definition render (queued : list Updater) (st : State) : State :=
  fold_left (fun st u => applyUpdater u st) queued st.

(** The three transcript blocks work on the component and on the updaters
    queued so far. *)

(** [if (message.serverContent?.inputTranscription) { ... }] *)
Definition onInputTranscription (message : LiveServerMessage)
    (h : State * list Updater) : State * list Updater :=
  match inputTranscription message with
  | Some text =>
      (set_currentInputTranscriptionRef
         (JS.add (currentInputTranscriptionRef (fst h)) text) (fst h),
       snd h ++ [AmendLast user])
  | None => h
  end.

(** [if (message.serverContent?.outputTranscription) { ... }] *)
Definition onOutputTranscription (message : LiveServerMessage)
    (h : State * list Updater) : State * list Updater :=
  match outputTranscription message with
  | Some text =>
      (set_currentOutputTranscriptionRef
         (JS.add (currentOutputTranscriptionRef (fst h)) text) (fst h),
       snd h ++ [AmendLast bot])
  | None => h
  end.

(** [if (message.serverContent?.turnComplete) { ... }] *)
Definition onTurnComplete (message : LiveServerMessage)
    (h : State * list Updater) : State * list Updater :=
  if turnComplete message then
    (set_currentOutputTranscriptionRef ""
       (set_currentInputTranscriptionRef "" (fst h)),
     snd h ++ [MarkFinal])
  else h.

(** Lines 245-273 of the handler and the render of what they queued.  The
    handler runs these lines without suspension, so the updaters run
    after all three blocks have written the refs.  The render is taken to
    come before the next message is handled. *)
Definition transcribed (message : LiveServerMessage) (st : State) : State :=
  let h := onTurnComplete message
             (onOutputTranscription message
                (onInputTranscription message (st, []))) in
  render (snd h) (fst h).

(** [if (message.serverContent?.interrupted) { ... }] *)
Definition onInterrupted (message : LiveServerMessage) (st : State) : State :=
  if interrupted message then
    let st := perform (map (fun s => SourceStop (node s)) (audioSourcesRef st)) st in
    let st := set_audioSourcesRef [] st in
    set_nextAudioStartTimeRef 0%Q st
  else st.

(** The lines of the audio block after [decodeAudioData] has resolved:
    create the source, start it at the later of the context's clock and
    the playback clock, advance the playback clock to its end and add it
    to the active set. *)
Definition schedule (audioBuffer : AudioBuffer) (currentTime : Q) (st : State) : State :=
  let id := allocated st in
  let st := set_allocated (S id) st in
  let startTime := Qmax currentTime (nextAudioStartTimeRef st) in
  let source := mkSource id startTime audioBuffer in
  let st := perform [SourceStart source] st in
  let st := set_nextAudioStartTimeRef (startTime + duration audioBuffer)%Q st in
  set_audioSourcesRef (audioSourcesRef st ++ [source]) st.

(** [source.onended] of the source of identity [id]. *)
Definition onended (id : nat) (st : State) : State :=
  let st := set_audioSourcesRef
              (filter (fun s => negb (Nat.eqb (node s) id)) (audioSourcesRef st)) st in
  match audioSourcesRef st with
  | [] => setStatus LISTENING st
  | _ :: _ => st
  end.

Section WithCodec.

(** [decode] of [services/audioUtils] (base64 to bytes) is not among
    the sources; [None] stands for its failure on input that is not
    validly encoded. *)
Variable decode : string -> option (list Byte.byte).

(** [onmessage], one message handled to its end, [currentTime] being the
    reading of [audioCtx.currentTime] when the fragment is scheduled.
    The second component tells whether the promise of the handler is
    fulfilled; it is rejected when [parts[0]] or [decode] throws, and the
    statements after the throwing one, the interruption block among them,
    are then not executed. *)
Definition onmessage (message : LiveServerMessage) (currentTime : Q)
    (st : State) : State * bool :=
  let st := transcribed message st in
  match base64AudioOf message with
  | None => (st, false)
  | Some data =>
      match data, outputAudioContextRef st with
      | Some base64Audio, Some audioCtx =>
          if JS.truthy base64Audio then
            let st := setStatus SPEAKING st in
            match decode base64Audio with
            | Some bytes =>
                let audioBuffer := decodeAudioData bytes 24000 1 in
                let st := schedule audioBuffer currentTime st in
                (onInterrupted message st, true)
            | None => (st, false)
            end
          else (onInterrupted message st, true)
      | _, _ => (onInterrupted message st, true)
      end
  end.

(** Messages handled in delivery order, each with the clock reading of
    its handling. *)
Fixpoint deliver (messages : list (LiveServerMessage * Q)) (st : State) : State :=
  match messages with
  | [] => st
  | (message, currentTime) :: rest =>
      deliver rest (fst (onmessage message currentTime st))
  end.

End WithCodec.

(** *** Start of a session: [startSession] *)

(** The call of [startSession] up to [await getUserMedia]; [isSecureContext]
    is [window.isSecureContext]. *)
Definition startSession (env : Environment) (isSecureContext : bool)
    (st : State) : State :=
  let st := resetChat st in
  let apiKey := getApiKey env in
  if negb (JS.truthy apiKey) then
    let st := setError
      (Some "Connection setup is incomplete. Please ensure GOOGLE_GEMINI_API_KEY is set.") st in
    setStatus ERROR st
  else if negb isSecureContext then
    let st := setError
      (Some "Microphone access requires a secure connection (HTTPS).") st in
    setStatus ERROR st
  else setStatus CONNECTING st.

(** The [catch] block of [startSession]: the microphone was refused or the
    connection failed; [message] is [err.message], the reason being a
    value other than [null] and [undefined]. *)
Definition startupFailed (message : option string) (st : State) : State :=
  let st := setError (Some (JS.or_else message "Connection failed.")) st in
  let st := setStatus ERROR st in
  cleanup st.

(** [startSession] resumes after [await getUserMedia] with the stream: it
    keeps the stream, creates the two audio contexts, puts the playback
    clock to zero and keeps the promise of the session it connects
    ([inputCtx], [outputCtx] and [session] are the objects created). *)
Definition microphoneGranted (stream : MediaStream)
    (inputCtx outputCtx : AudioContext) (session : nat) (st : State) : State :=
  let st := set_microphoneStreamRef (Some stream) st in
  let st := set_inputAudioContextRef (Some inputCtx) st in
  let st := set_outputAudioContextRef (Some outputCtx) st in
  let st := set_nextAudioStartTimeRef 0%Q st in
  set_sessionPromiseRef (Some session) st.

(** The [onopen] callback; [processor] is the script processor it creates. *)
Definition onopen (processor : nat) (st : State) : State :=
  match inputAudioContextRef st, microphoneStreamRef st with
  | Some _, Some _ =>
      let st := setStatus LISTENING st in
      set_scriptProcessorRef (Some processor) st
  | _, _ => st
  end.

(** [handleClose] ([setIsOpen] concerns the launcher only). *)
Definition handleClose (st : State) : State := resetChat st.

(** [isActive], which chooses between [stopSession] and [startSession] for
    the microphone button. *)
Definition isActive (st : State) : bool :=
  match status st with
  | IDLE | ERROR => false
  | _ => true
  end.

(** The playback intervals of the sources started so far, in the order of
    their [source.start] calls. *)
Fixpoint intervals (es : list Effect) : list (Q * Q) :=
  match es with
  | [] => []
  | SourceStart s :: es' => (startTime s, endTime s) :: intervals es'
  | _ :: es' => intervals es'
  end.

(** *** Outbound audio: [scriptProcessor.onaudioprocess] *)

(** The loop [for (i = 0; i < l; i++) int16[i] = inputData[i] * 32768]:
    every element is the product stored into an [Int16Array]. *)
Definition quantize (inputData : list JS.Number) : list Z :=
  map (fun sample => JS.ToInt16 (JS.mul sample 32768)) inputData.

(** [new Uint8Array(int16.buffer)]: two bytes per sample, low byte first. *)
Definition byte_of_Z (z : Z) : Byte.byte :=
  byte_of_ascii (ascii_of_N (Z.to_N (z mod 256))).

Definition int16_bytes (int16 : list Z) : list Byte.byte :=
  flat_map (fun z => [byte_of_Z z; byte_of_Z (z / 256)]) int16.

Section WithEncoder.

(** [encode] of [services/audioUtils] (bytes to base64), not among the
    sources. *)
Variable encode : list Byte.byte -> string.

Definition onaudioprocess (inputData : list JS.Number) (st : State) : State :=
  let int16 := quantize inputData in
  perform [SendRealtimeInput (encode (int16_bytes int16)) "audio/pcm;rate=16000"] st.

End WithEncoder.

(** *** Submission of the quote: [handleDataSubmission] *)

Definition transcriptText (st : State) : string :=
  String.concat JS.LF
    (map (fun t => (Speaker_toString (speaker t) ++ ": " ++ text t)%string)
         (transcription st)).

Definition extractionPrompt (st : State) : string :=
  ("From the following conversation transcript, extract the client's information. "
   ++ JS.LF ++ "            Transcript:" ++ JS.LF ++ transcriptText st)%string.

(** The [catch] block followed by the [finally] block, [success] being
    [false]. *)
Definition submissionFailed (message : option string) (st : State) : State :=
  let st := setError
    (Some (JS.or_else message "Quote submission failed. Check console.")) st in
  let st := setStatus ERROR st in
  let st := setIsSubmitting false st in
  stopSession st.

(** The [finally] block, [success] being [true]. *)
Definition submissionSucceeded (st : State) : State :=
  let st := setIsSubmitting false st in
  let st := setShowFeedback true st in
  stopSession st.

(** The call of [handleDataSubmission] up to [await generateContent].
    The function is created at every render and closes over the state of
    that render: [rendered] is the component as that render saw it, from
    which the guard [isSubmitting] and [transcription] are read, and [st]
    is the component when the call is made.  [setIsSubmitting(true)] does
    not change what the closure of the same render reads. *)
Definition handleDataSubmission (rendered st : State) : State :=
  if isSubmitting rendered then st
  else
    let st := setIsSubmitting true st in
    let st := setStatus PROCESSING st in
    let contents := extractionPrompt rendered in
    let st := perform [GenerateContent "gemini-3-flash-preview" contents] st in
    set_pending (pending st ++ [AwaitGenerateContent]) st.

Section WithJSON.

(** [JSON.parse], giving the message of the [SyntaxError] on the right,
    and [JSON.stringify]. *)
Variable Json : Type.
Variable JSON_parse : string -> Json + string.
Variable JSON_stringify : Json -> string.

(** Activation [i] resumes after [await ai.models.generateContent(..)];
    the value is [response.text], possibly undefined. *)
Definition generateContentSettled (i : nat) (r : Settled (option string))
    (st : State) : State :=
  match nth_error (pending st) i with
  | Some AwaitGenerateContent =>
      match r with
      | Fulfilled responseText =>
          let argument :=
            match responseText with Some t => t | None => "undefined" end in
          match JSON_parse argument with
          | inl extractedData =>
              let st := perform
                [Fetch "/api/submit-quote" "POST" (JSON_stringify extractedData)] st in
              set_pending (replace_nth i AwaitFetch (pending st)) st
          | inr message =>
              submissionFailed (Some message)
                (set_pending (remove_nth i (pending st)) st)
          end
      | Rejected message =>
          submissionFailed message (set_pending (remove_nth i (pending st)) st)
      end
  | _ => st
  end.

(** Activation [i] resumes after [await fetch(..)] and
    [await webhookRes.json().catch(() => ({}))]. *)
Definition fetchSettled (i : nat) (r : Settled Response) (st : State) : State :=
  match nth_error (pending st) i with
  | Some AwaitFetch =>
      let st := set_pending (remove_nth i (pending st)) st in
      match r with
      | Fulfilled webhookRes =>
          let result :=
            match json webhookRes with Some b => b | None => emptyObject end in
          if negb (ok webhookRes) || negb (body_ok result) then
            submissionFailed
              (Some (JS.or_else (body_error result)
                       ("Webhook failed ("
                        ++ JS.Number_toString (http_status webhookRes)
                        ++ ").")%string))
              st
          else submissionSucceeded st
      | Rejected message => submissionFailed message st
      end
  | _ => st
  end.

(** [Submit] is the press of the button of a render that has seen all the
    updates made so far. *)
Definition step (st : State) (e : Event) : State :=
  match e with
  | Submit => handleDataSubmission st st
  | GenerateContentSettled i r => generateContentSettled i r st
  | FetchSettled i r => fetchSettled i r st
  end.

Definition run (st : State) (es : list Event) : State := fold_left step es st.

End WithJSON.

(** *** What the render shows *)

Definition closingText : string := "Thank you for using the JHN Finance AI Agent!".

Definition botSaidThankYou (st : State) : bool :=
  existsb (fun e => Speaker_eqb (speaker e) bot && JS.includes (text e) closingText)
          (transcription st).

Definition showSubmitButton (st : State) : bool :=
  Nat.leb 2 (List.length (transcription st)) && botSaidThankYou st
  && negb (showFeedback st) && negb (isSubmitting st).

(** The ["Connection Issue"] panel: [{error}] is rendered only in the
    [status === ChatStatus.ERROR] branch. *)
Definition errorPanel (st : State) : option (option string) :=
  match status st with
  | ERROR => Some (error st)
  | _ => None
  end.

(** The feedback prompt ["Rate your experience:"]: it is in the last
    branch of the conditional that starts with
    [status === ChatStatus.ERROR ?], which is taken whenever [showFeedback]
    is set, under [showFeedback &&], and gives way to the thanks once
    [feedbackSubmitted] is set. *)
Definition feedbackPrompt (st : State) : bool :=
  match status st with
  | ERROR => false
  | _ => showFeedback st && negb (feedbackSubmitted st)
  end.

End Chatbot.

(** ** [components/ChatbotText.tsx]: the text widget *)

Module ChatbotText.

Inductive ChatRole : Type := role_user | role_model.

Record ContentTurn : Type := mkTurn {
  role : ChatRole;
  parts : list string       (* the [text] of each part *)
}.

Inductive Effect : Type :=
| GenerateContent (model contents : string)             (* extraction *)
| GenerateReply (model : string) (contents : list ContentTurn)
| Fetch (url method body : string).

Record State : Type := mkState {
  isOpen : bool;
  transcription : list TranscriptionEntry;
  inputValue : string;
  isLoading : bool;
  error : option string;
  showFeedback : bool;
  feedbackSubmitted : bool;
  isSubmitting : bool;
  chatHistoryRef : list ContentTurn;
  isSubmittingRef : bool;
  introShownRef : bool;
  pending : list SubmissionStage;   (* suspended submissions *)
  awaitingReply : nat;              (* suspended [sendMessage] activations *)
  effects : list Effect
}.

Definition setIsOpen v st :=
  mkState v (transcription st) (inputValue st) (isLoading st) (error st)
    (showFeedback st) (feedbackSubmitted st) (isSubmitting st)
    (chatHistoryRef st) (isSubmittingRef st) (introShownRef st)
    (pending st) (awaitingReply st) (effects st).

Definition setTranscription (f : list TranscriptionEntry -> list TranscriptionEntry) st :=
  mkState (isOpen st) (f (transcription st)) (inputValue st) (isLoading st) (error st)
    (showFeedback st) (feedbackSubmitted st) (isSubmitting st)
    (chatHistoryRef st) (isSubmittingRef st) (introShownRef st)
    (pending st) (awaitingReply st) (effects st).

Definition setInputValue v st :=
  mkState (isOpen st) (transcription st) v (isLoading st) (error st)
    (showFeedback st) (feedbackSubmitted st) (isSubmitting st)
    (chatHistoryRef st) (isSubmittingRef st) (introShownRef st)
    (pending st) (awaitingReply st) (effects st).

Definition setIsLoading v st :=
  mkState (isOpen st) (transcription st) (inputValue st) v (error st)
    (showFeedback st) (feedbackSubmitted st) (isSubmitting st)
    (chatHistoryRef st) (isSubmittingRef st) (introShownRef st)
    (pending st) (awaitingReply st) (effects st).

Definition setError v st :=
  mkState (isOpen st) (transcription st) (inputValue st) (isLoading st) v
    (showFeedback st) (feedbackSubmitted st) (isSubmitting st)
    (chatHistoryRef st) (isSubmittingRef st) (introShownRef st)
    (pending st) (awaitingReply st) (effects st).

Definition setShowFeedback v st :=
  mkState (isOpen st) (transcription st) (inputValue st) (isLoading st) (error st)
    v (feedbackSubmitted st) (isSubmitting st)
    (chatHistoryRef st) (isSubmittingRef st) (introShownRef st)
    (pending st) (awaitingReply st) (effects st).

Definition setFeedbackSubmitted v st :=
  mkState (isOpen st) (transcription st) (inputValue st) (isLoading st) (error st)
    (showFeedback st) v (isSubmitting st)
    (chatHistoryRef st) (isSubmittingRef st) (introShownRef st)
    (pending st) (awaitingReply st) (effects st).

Definition setIsSubmitting v st :=
  mkState (isOpen st) (transcription st) (inputValue st) (isLoading st) (error st)
    (showFeedback st) (feedbackSubmitted st) v
    (chatHistoryRef st) (isSubmittingRef st) (introShownRef st)
    (pending st) (awaitingReply st) (effects st).

Definition set_chatHistoryRef v st :=
  mkState (isOpen st) (transcription st) (inputValue st) (isLoading st) (error st)
    (showFeedback st) (feedbackSubmitted st) (isSubmitting st)
    v (isSubmittingRef st) (introShownRef st)
    (pending st) (awaitingReply st) (effects st).

Definition set_isSubmittingRef v st :=
  mkState (isOpen st) (transcription st) (inputValue st) (isLoading st) (error st)
    (showFeedback st) (feedbackSubmitted st) (isSubmitting st)
    (chatHistoryRef st) v (introShownRef st)
    (pending st) (awaitingReply st) (effects st).

Definition set_introShownRef v st :=
  mkState (isOpen st) (transcription st) (inputValue st) (isLoading st) (error st)
    (showFeedback st) (feedbackSubmitted st) (isSubmitting st)
    (chatHistoryRef st) (isSubmittingRef st) v
    (pending st) (awaitingReply st) (effects st).

Definition set_pending v st :=
  mkState (isOpen st) (transcription st) (inputValue st) (isLoading st) (error st)
    (showFeedback st) (feedbackSubmitted st) (isSubmitting st)
    (chatHistoryRef st) (isSubmittingRef st) (introShownRef st)
    v (awaitingReply st) (effects st).

Definition set_awaitingReply v st :=
  mkState (isOpen st) (transcription st) (inputValue st) (isLoading st) (error st)
    (showFeedback st) (feedbackSubmitted st) (isSubmitting st)
    (chatHistoryRef st) (isSubmittingRef st) (introShownRef st)
    (pending st) v (effects st).

Definition perform (es : list Effect) st :=
  mkState (isOpen st) (transcription st) (inputValue st) (isLoading st) (error st)
    (showFeedback st) (feedbackSubmitted st) (isSubmitting st)
    (chatHistoryRef st) (isSubmittingRef st) (introShownRef st)
    (pending st) (awaitingReply st) (effects st ++ es).

(** [chatHistoryRef.current.push(turn)] *)
Definition pushHistory (turn : ContentTurn) st :=
  set_chatHistoryRef (chatHistoryRef st ++ [turn]) st.

Definition intro : string :=
  "Hi! You're here so let's get started right away without the paperwork! What are you looking for today? Life insurance, health insurance, or annuities?".

(** The effect hook on [isOpen] and [transcription.length]. *)
Definition introEffect (st : State) : State :=
  let st :=
    if isOpen st && Nat.eqb (List.length (transcription st)) 0
       && negb (introShownRef st)
    then
      let st := set_introShownRef true st in
      let st := setTranscription (fun _ => [mkEntry bot intro true]) st in
      pushHistory (mkTurn role_model [intro]) st
    else st in
  if negb (isOpen st) then set_introShownRef false st else st.

(** The launcher button: [setIsOpen(true)], then the hook. *)
Definition open (st : State) : State := introEffect (setIsOpen true st).

(** [resetChat]. *)
Definition resetChat (st : State) : State :=
  let st := setTranscription (fun _ => []) st in
  let st := setError None st in
  let st := setShowFeedback false st in
  let st := setFeedbackSubmitted false st in
  let st := setIsSubmitting false st in
  let st := set_isSubmittingRef false st in
  let st := setInputValue "" st in
  set_chatHistoryRef [] st.

(** [handleClose]. *)
Definition handleClose (st : State) : State :=
  introEffect (resetChat (setIsOpen false st)).

(** *** Submission of the quote: [handleDataSubmission] *)

Definition transcriptText (st : State) : string :=
  String.concat JS.LF
    (map (fun t => (Speaker_toString (speaker t) ++ ": " ++ text t)%string)
         (transcription st)).

Definition extractionPrompt (st : State) : string :=
  ("From the following conversation transcript, extract the client's information."
   ++ JS.LF ++ "Transcript:" ++ JS.LF ++ transcriptText st)%string.

(** The [catch] block followed by the [finally] block, [success] being
    [false]. *)
Definition submissionFailed (message : option string) (st : State) : State :=
  let st := setError
    (Some (JS.or_else message "Quote submission failed. Check console.")) st in
  let st := setIsSubmitting false st in
  set_isSubmittingRef false st.

(** The [finally] block, [success] being [true]. *)
Definition submissionSucceeded (st : State) : State :=
  let st := setIsSubmitting false st in
  let st := set_isSubmittingRef false st in
  setShowFeedback true st.

(** The call of [handleDataSubmission] up to [await generateContent]. *)
Definition handleDataSubmission (st : State) : State :=
  if isSubmittingRef st then st
  else
    let st := set_isSubmittingRef true st in
    let st := setIsSubmitting true st in
    let st := perform [GenerateContent "gemini-2.5-flash" (extractionPrompt st)] st in
    set_pending (pending st ++ [AwaitGenerateContent]) st.

Section WithJSON.

Variable Json : Type.
Variable JSON_parse : string -> Json + string.
Variable JSON_stringify : Json -> string.

(** Activation [i] resumes after [await ai.models.generateContent(..)];
    the value is [response.text], possibly undefined. *)
Definition generateContentSettled (i : nat) (r : Settled (option string))
    (st : State) : State :=
  match nth_error (pending st) i with
  | Some AwaitGenerateContent =>
      match r with
      | Fulfilled responseText =>
          let argument :=
            match responseText with Some t => t | None => "{}" end in
          match JSON_parse argument with
          | inl extractedData =>
              let st := perform
                [Fetch "/api/submit-quote" "POST" (JSON_stringify extractedData)] st in
              set_pending (replace_nth i AwaitFetch (pending st)) st
          | inr message =>
              submissionFailed (Some message)
                (set_pending (remove_nth i (pending st)) st)
          end
      | Rejected message =>
          submissionFailed message (set_pending (remove_nth i (pending st)) st)
      end
  | _ => st
  end.

(** Activation [i] resumes after [await fetch(..)] and
    [await webhookRes.json().catch(() => ({}))]. *)
Definition fetchSettled (i : nat) (r : Settled Response) (st : State) : State :=
  match nth_error (pending st) i with
  | Some AwaitFetch =>
      let st := set_pending (remove_nth i (pending st)) st in
      match r with
      | Fulfilled webhookRes =>
          let result :=
            match json webhookRes with Some b => b | None => emptyObject end in
          if negb (ok webhookRes) || negb (body_ok result) then
            submissionFailed
              (Some (JS.or_else (body_error result)
                       ("Webhook failed ("
                        ++ JS.Number_toString (http_status webhookRes)
                        ++ ").")%string))
              st
          else submissionSucceeded st
      | Rejected message => submissionFailed message st
      end
  | _ => st
  end.

Definition step (st : State) (e : Event) : State :=
  match e with
  | Submit => handleDataSubmission st
  | GenerateContentSettled i r => generateContentSettled i r st
  | FetchSettled i r => fetchSettled i r st
  end.

Definition run (st : State) (es : list Event) : State := fold_left step es st.

End WithJSON.

(** *** The chat: [sendMessage] *)

(** [transcription.filter(e => e.speaker === 'bot').pop()?.text ?? ''] *)
Definition lastBotMessage (st : State) : string :=
  match rev (filter (fun e => Speaker_eqb (speaker e) bot) (transcription st)) with
  | e :: _ => text e
  | [] => ""
  end.

(** [/^(yes|correct|that's right|yep|yeah|sounds good)$/i.test(s)]: the
    whole of [s] is one of the alternatives, letter case apart. *)
Definition confirmationPattern (s : string) : bool :=
  existsb (String.eqb (JS.toLowerCase s))
    ["yes"; "correct"; "that's right"; "yep"; "yeah"; "sounds good"].

Definition isConfirmationAnswer (text : string) : bool :=
  confirmationPattern (JS.trim text)
  || JS.includes (JS.toLowerCase text) "yes"
  || JS.includes (JS.toLowerCase text) "correct".

Definition closingMessage : string :=
  "Perfect! A JHN Finance representative will review your information and get in touch with you shortly with your personalized quote. Thank you for using the JHN Finance AI Agent!".

Section WithApiKey.

(** The value of [getApiKey()]. *)
Variable apiKey : string.

(** The call of [sendMessage] up to [await generateContent]. *)
Definition sendMessage (st : State) : State :=
  let text := JS.trim (inputValue st) in
  if negb (JS.truthy text) || isLoading st then st
  else
    let lastBotMessage := lastBotMessage st in
    let st := setInputValue "" st in
    let st := setError None st in
    let isConfirmationAnswer := isConfirmationAnswer text in
    if JS.includes lastBotMessage "Is that correct?" && isConfirmationAnswer then
      let userEntry := mkEntry user text true in
      let st := setTranscription (fun prev => prev ++ [userEntry]) st in
      let st := pushHistory (mkTurn role_user [text]) st in
      let botEntry := mkEntry bot closingMessage true in
      let st := setTranscription (fun prev => prev ++ [botEntry]) st in
      pushHistory (mkTurn role_model [closingMessage]) st
    else
      let userEntry := mkEntry user text true in
      let st := setTranscription (fun prev => prev ++ [userEntry]) st in
      let st := pushHistory (mkTurn role_user [text]) st in
      let st := setIsLoading true st in
      if negb (JS.truthy apiKey) then
        let st := setError
          (Some "Connection setup is incomplete. Please ensure GEMINI_API_KEY is set.") st in
        let st := setIsLoading false st in
        setIsLoading false st
      else
        let st := perform [GenerateReply "gemini-2.5-flash" (chatHistoryRef st)] st in
        set_awaitingReply (S (awaitingReply st)) st.

End WithApiKey.

(** A suspended [sendMessage] resumes after [await generateContent]; the
    value is [response.text], possibly undefined.  The [catch] block reads
    [err.message]: the reason of [Rejected message] is a value other than
    [null] and [undefined], and [message] is its [message]. *)
Definition replySettled (r : Settled (option string)) (st : State) : State :=
  match awaitingReply st with
  | O => st
  | S n =>
      let st := set_awaitingReply n st in
      let st :=
        match r with
        | Fulfilled responseText =>
            let botText :=
              match responseText with
              | Some t => JS.trim t
              | None => "I apologize, I could not generate a response."
              end in
            let st := setTranscription
                        (fun prev => prev ++ [mkEntry bot botText true]) st in
            pushHistory (mkTurn role_model [botText]) st
        | Rejected message =>
            setError
              (Some (JS.or_else message
                       "Connection failed. Please check your API key.")) st
        end in
      setIsLoading false st
  end.

(** The same when the promise is rejected with [null] or [undefined]:
    [err.message] throws a [TypeError] in the [catch] block, [setError] is
    not reached, and the [finally] block runs. *)
Definition replyRejectedNullish (st : State) : State :=
  match awaitingReply st with
  | O => st
  | S n => setIsLoading false (set_awaitingReply n st)
  end.

(** *** What the render shows *)

Definition closingText : string := "Thank you for using the JHN Finance AI Agent!".

Definition botSaidThankYou (st : State) : bool :=
  existsb (fun e => Speaker_eqb (speaker e) bot && JS.includes (text e) closingText)
          (transcription st).

Definition showSubmit (st : State) : bool :=
  Nat.leb 2 (List.length (transcription st)) && botSaidThankYou st
  && negb (showFeedback st) && negb (isSubmitting st).

(** The ["Connection Issue"] panel: [{error}] is rendered whenever
    [error] is truthy. *)
Definition errorPanel (st : State) : option string :=
  match error st with
  | Some message => if JS.truthy message then Some message else None
  | None => None
  end.

(** The feedback prompt ["Rate your experience:"]: it is in the last
    branch of the conditional that starts with [error ?], under
    [showFeedback &&], and gives way to the thanks once [feedbackSubmitted]
    is set. *)
Definition feedbackPrompt (st : State) : bool :=
  match errorPanel st with
  | Some _ => false
  | None => showFeedback st && negb (feedbackSubmitted st)
  end.

End ChatbotText.

(** ** The text widget as the user drives it *)

Module TextSession.

Import ChatbotText.

(** What happens to the text widget: the launcher or the close button is
    pressed, the input changes, the message is sent, the reply of the model
    arrives or the request is rejected without a reason, or something
    happens to the submission. *)
Inductive Action : Type :=
| Open
| Close
| Change (value : string)
| Send
| Reply (r : Settled (option string))
| ReplyRejectedNullish
| Submission (e : Event).

Section WithEnvironment.

Variable env : Environment.
Variable Json : Type.
Variable JSON_parse : string -> Json + string.
Variable JSON_stringify : Json -> string.

Definition act (st : State) (a : Action) : State :=
  match a with
  | Open => open st
  | Close => handleClose st
  | Change value => setInputValue value st
  | Send => sendMessage (getApiKey env) st
  | Reply r => replySettled r st
  | ReplyRejectedNullish => replyRejectedNullish st
  | Submission e => step Json JSON_parse JSON_stringify st e
  end.

Definition session (st : State) (actions : list Action) : State :=
  fold_left act actions st.

End WithEnvironment.

(** The turn of the chat history that goes with an entry of the
    transcript. *)
Definition turnOf (e : TranscriptionEntry) : ContentTurn :=
  mkTurn (match speaker e with user => role_user | bot => role_model end)
         [text e].

End TextSession.

(** ** The relay of [server.ts]: [POST /api/submit-quote] *)

Module Server.

Record Request : Type := mkRequest {
  method : string;
  url : string;
  body : string
}.

(** The JSON object the relay answers with: [{ok, status}] or
    [{ok: false, error}]. *)
Record Payload : Type := mkPayload {
  payload_ok : bool;
  payload_status : option nat;
  payload_error : option string
}.

Record Reply : Type := mkReply {
  statusCode : nat;
  payload : Payload
}.

(** [Response.ok] of the Fetch API: the status is in the range 200-299. *)
Definition okStatus (status : nat) : bool :=
  Nat.leb 200 status && Nat.leb status 299.

(** What the handler does with a request: it relays it, forwarding
    [forwarded] to the webhook when it came to call it, or it leaves it to
    the static file server. *)
Inductive Outcome : Type :=
| Relayed (forwarded : option string) (reply : Reply)
| Static.

Section WithJSON.

Variable Json : Type.
Variable JSON_parse : string -> Json + string.
Variable JSON_stringify : Json -> string.

(** The handler of [http.createServer]; [webhook] is the outcome of the
    [fetch] of the webhook URL, the status of its response when it
    answers. *)
Definition handler (req : Request) (webhook : Settled nat) : Outcome :=
  if String.eqb (method req) "POST"
     && (String.eqb (url req) "/api/submit-quote"
         || String.eqb (url req) "/api/submit-quote/")
  then
    match JSON_parse (body req) with
    | inl payload =>
        match webhook with
        | Fulfilled status =>
            Relayed (Some (JSON_stringify payload))
              (mkReply (if okStatus status then 200 else status)
                 (mkPayload (okStatus status) (Some status) None))
        | Rejected message =>
            Relayed (Some (JSON_stringify payload))
              (mkReply 500 (mkPayload false None message))
        end
    | inr message =>
        Relayed None (mkReply 500 (mkPayload false None (Some message)))
    end
  else Static.

End WithJSON.

(** The reply as the [fetch] of a component reads it: [webhookRes.ok],
    [webhookRes.status] and the fields [ok] and [error] of the body. *)
Definition received (reply : Reply) : Response :=
  {| ok := okStatus (statusCode reply);
     http_status := statusCode reply;
     json := Some {| body_ok := payload_ok (payload reply);
                     body_error := payload_error (payload reply) |} |}.

End Server.

(** ** Notions used in the statements *)

Module Notions.

Import Chatbot.

(** The component as mounted: the initial values of its [useState] and
    [useRef] hooks. *)
Definition mounted : State :=
  {| status := IDLE; transcription := []; error := None;
     showFeedback := false; feedbackSubmitted := false; isSubmitting := false;
     sessionPromiseRef := None; inputAudioContextRef := None;
     outputAudioContextRef := None; microphoneStreamRef := None;
     scriptProcessorRef := None; nextAudioStartTimeRef := 0%Q;
     audioSourcesRef := []; isSubmittingRef := false;
     currentInputTranscriptionRef := ""; currentOutputTranscriptionRef := "";
     allocated := 0; pending := []; effects := [] |}.





Definition concatenation (l : list string) : string := String.concat "" l.




(** A message whose model turn, if it has one, has parts, and whose audio
    payload, if it has one, is validly encoded: nothing throws in the
    audio block. *)
Definition decodable (decode : string -> option (list Byte.byte))
    (message : LiveServerMessage) : bool :=
  match base64AudioOf message with
  | Some (Some base64Audio) =>
      if JS.truthy base64Audio
      then match decode base64Audio with Some _ => true | None => false end
      else true
  | Some None => true
  | None => false
  end.

(** The buffer of the fragment a message carries, when it carries one
    that the handler schedules. *)
Definition fragment (decode : string -> option (list Byte.byte))
    (message : LiveServerMessage) : option AudioUtils.AudioBuffer :=
  match base64AudioOf message with
  | Some (Some base64Audio) =>
      if JS.truthy base64Audio
      then option_map (fun bytes => AudioUtils.decodeAudioData bytes 24000 1)
                      (decode base64Audio)
      else None
  | _ => None
  end.

(** Playback intervals laid out from a playback clock [clock], one per
    clock reading: each starts at the later of its reading and the end of
    the one before it (the playback clock for the first) and does not end
    before it starts. *)
Inductive Gapless : Q -> list Q -> list (Q * Q) -> Prop :=
| Gapless_nil clock : Gapless clock [] []
| Gapless_cons clock now nows s e ivs :
    s = Qmax now clock -> s <= e -> Gapless e nows ivs ->
    Gapless clock (now :: nows) ((s, e) :: ivs).

(** Messages that carry one thing only. *)
Definition partialInput (t : string) : LiveServerMessage :=
  mkMessage (Some (Some t)) None false None false.
Definition partialOutput (t : string) : LiveServerMessage :=
  mkMessage None (Some (Some t)) false None false.
Definition turnCompleteOnly : LiveServerMessage :=
  mkMessage None None true None false.
Definition audioOnly (base64Audio : string) : LiveServerMessage :=
  mkMessage None None false (Some (WithParts (Some base64Audio))) false.
Definition interruptedOnly : LiveServerMessage :=
  mkMessage None None false None true.

Definition interruptedWithoutParts : LiveServerMessage :=
  mkMessage None None false (Some WithoutParts) true.
Definition interruptedWith (base64Audio : string) : LiveServerMessage :=
  mkMessage None None false (Some (WithParts (Some base64Audio))) true.

(** A transcript without an entry that can still be amended. *)
Definition allFinal (l : list TranscriptionEntry) : Prop :=
  Forall (fun e => isFinal e = true) l.

(** The calls [cleanup] makes on the resources the refs hold. *)
Definition teardownCalls (st : State) : list Effect :=
  match outputAudioContextRef st with
  | Some _ => map (fun s => SourceStop (node s)) (audioSourcesRef st)
  | None => []
  end
  ++ match microphoneStreamRef st with
     | Some stream => map TrackStop (getTracks stream)
     | None => []
     end
  ++ match scriptProcessorRef st with
     | Some p => [ProcessorDisconnect p]
     | None => []
     end
  ++ closeIfOpen (inputAudioContextRef st)
  ++ closeIfOpen (outputAudioContextRef st)
  ++ match sessionPromiseRef st with
     | Some session => [SessionClose session]
     | None => []
     end.

(** The active set is empty whenever no playback context is held: sources
    are only added under a context, and [cleanup] drops the context after
    having emptied the set. *)
Definition sourcesNeedContext (st : State) : Prop :=
  outputAudioContextRef st = None -> audioSourcesRef st = [].

(** Teardown leaves no resource behind. *)
Definition released (st : State) : Prop :=
  microphoneStreamRef st = None
  /\ scriptProcessorRef st = None
  /\ inputAudioContextRef st = None
  /\ outputAudioContextRef st = None
  /\ sessionPromiseRef st = None.

(** The requests of the submission among the calls of the voice widget:
    extraction requests and relay calls. *)
Definition requests (es : list Effect) : list Effect :=
  filter (fun e => match e with
                   | GenerateContent _ _ | Fetch _ _ _ => true
                   | _ => false
                   end) es.

(** The same among the calls of the text widget. *)
Definition textRequests (es : list ChatbotText.Effect) : list ChatbotText.Effect :=
  filter (fun e => match e with
                   | ChatbotText.GenerateContent _ _
                   | ChatbotText.Fetch _ _ _ => true
                   | ChatbotText.GenerateReply _ _ => false
                   end) es.

(** The text widget as mounted. *)
Definition textMounted : ChatbotText.State :=
  {| ChatbotText.isOpen := false; ChatbotText.transcription := [];
     ChatbotText.inputValue := ""; ChatbotText.isLoading := false;
     ChatbotText.error := None; ChatbotText.showFeedback := false;
     ChatbotText.feedbackSubmitted := false; ChatbotText.isSubmitting := false;
     ChatbotText.chatHistoryRef := []; ChatbotText.isSubmittingRef := false;
     ChatbotText.introShownRef := false; ChatbotText.pending := [];
     ChatbotText.awaitingReply := 0%nat; ChatbotText.effects := [] |}.

(** A variable of the environment that holds a non-empty string. *)
Definition isSet (v : option string) : bool :=
  match v with
  | Some s => JS.truthy s
  | None => false
  end.

(** The value of a byte and the 16-bit words of a byte sequence, low byte
    first, as the receiver of the PCM frames reads them. *)
Definition unsigned (b : Byte.byte) : Z := Z.of_N (N_of_ascii (ascii_of_byte b)).

Fixpoint littleEndian (bytes : list Byte.byte) : list Z :=
  match bytes with
  | lo :: hi :: rest => (unsigned lo + 256 * unsigned hi)%Z :: littleEndian rest
  | _ => []
  end.

(** The [ended] events of the sources of identities [ids], in order. *)
Definition endAll (ids : list nat) (st : State) : State :=
  fold_left (fun s id => onended id s) ids st.

(** The chat history of the text widget holds one turn per entry of the
    transcript, with its role and text, in order. *)
Definition mirrors (st : ChatbotText.State) : Prop :=
  ChatbotText.chatHistoryRef st
  = map TextSession.turnOf (ChatbotText.transcription st).

(** The text widget is loading exactly while one [sendMessage] is suspended,
    and no more than one ever is. *)
Definition oneRequest (st : ChatbotText.State) : Prop :=
  ChatbotText.awaitingReply st = if ChatbotText.isLoading st then 1%nat else 0%nat.

(** A voice session that is running: the refs hold their resources, one
    fragment is playing and the playback clock stands at its end. *)
Definition live : State :=
  {| status := SPEAKING; transcription := []; error := None;
     showFeedback := false; feedbackSubmitted := false; isSubmitting := false;
     sessionPromiseRef := Some 0%nat;
     inputAudioContextRef := Some (mkAudioContext 1%nat running);
     outputAudioContextRef := Some (mkAudioContext 2%nat running);
     microphoneStreamRef := Some (mkMediaStream [3%nat]);
     scriptProcessorRef := Some 4%nat;
     nextAudioStartTimeRef := 2%Q;
     audioSourcesRef :=
       [mkSource 0%nat 1%Q (AudioUtils.mkAudioBuffer 1 480%nat 480)];
     isSubmittingRef := false;
     currentInputTranscriptionRef := ""; currentOutputTranscriptionRef := "";
     allocated := 1%nat; pending := []; effects := [] |}.

(** A stand-in for the base64 decoder: one byte per character. *)
Definition bytesOfString (s : string) : option (list Byte.byte) :=
  Some (map byte_of_ascii (list_ascii_of_string s)).

(** The text chat at the confirmation step, the user having typed a
    confirming answer. *)
Definition confirming : ChatbotText.State :=
  {| ChatbotText.isOpen := true;
     ChatbotText.transcription :=
       [mkEntry bot "Okay, just to confirm, your name is Jane Doe. Is that correct?" true];
     ChatbotText.inputValue := " Yes ";
     ChatbotText.isLoading := false;
     ChatbotText.error := None; ChatbotText.showFeedback := false;
     ChatbotText.feedbackSubmitted := false; ChatbotText.isSubmitting := false;
     ChatbotText.chatHistoryRef := []; ChatbotText.isSubmittingRef := false;
     ChatbotText.introShownRef := true; ChatbotText.pending := [];
     ChatbotText.awaitingReply := 0%nat; ChatbotText.effects := [] |}.

(** No submission is in flight and the guard of the widget is clear. *)
Definition idle (st : State) : Prop :=
  isSubmitting st = false /\ pending st = [].

Definition textIdle (st : ChatbotText.State) : Prop :=
  ChatbotText.isSubmittingRef st = false /\ ChatbotText.pending st = [].

(** A string that is empty or made of white space only. *)
Fixpoint blank (s : string) : bool :=
  match s with
  | EmptyString => true
  | String c s' => JS.isWhiteSpace c && blank s'
  end.

(** At most one activation is suspended, and the guard is set while it
    is. *)
Definition guarded (st : State) : Prop :=
  match pending st with
  | [] => True
  | [_] => isSubmitting st = true
  | _ :: _ :: _ => False
  end.

Definition textGuarded (st : ChatbotText.State) : Prop :=
  match ChatbotText.pending st with
  | [] => True
  | [_] => ChatbotText.isSubmittingRef st = true
  | _ :: _ :: _ => False
  end.

(** The relay answers, and its answer is a refusal: the HTTP status is
    not a success, or the body does not carry a truthy [ok]. *)
Definition refused (webhookRes : Response) : bool :=
  negb (ok webhookRes)
  || negb (body_ok (match json webhookRes with
                    | Some b => b
                    | None => emptyObject
                    end)).

(** The answer of the relay of [server.ts] when the webhook answers 502. *)
Definition badGateway : Response :=
  {| ok := false; http_status := 502;
     json := Some {| body_ok := false; body_error := None |} |}.

(** The request that reaches the server when a component performs a
    [fetch]. *)
Definition requestOf (e : ChatbotText.Effect) : option Server.Request :=
  match e with
  | ChatbotText.Fetch url method body => Some (Server.mkRequest method url body)
  | _ => None
  end.

(** An environment in which only [API_KEY] is set, and one in which no
    variable is. *)
Definition configured : Environment :=
  {| VITE_GEMINI_API_KEY := None; GOOGLE_GEMINI_API_KEY := Some "";
     API_KEY := Some "key"; GEMINI_API_KEY := None |}.

Definition unconfigured : Environment :=
  {| VITE_GEMINI_API_KEY := None; GOOGLE_GEMINI_API_KEY := None;
     API_KEY := None; GEMINI_API_KEY := None |}.

(** The text chat after the introduction, the user having typed a
    message. *)
Definition greeted : ChatbotText.State :=
  ChatbotText.setInputValue "Hello" (ChatbotText.open textMounted).

(** The answer of the relay when the webhook answers 200. *)
Definition accepted : Response :=
  {| ok := true; http_status := 200;
     json := Some {| body_ok := true; body_error := None |} |}.

(** A voice widget in which a session was torn down in the middle of a
    sentence of the user. *)
Definition midSentence : State :=
  set_currentInputTranscriptionRef "Hel" mounted.

(** A stand-in for the base64 decoder that throws on a character outside
    the alphabet, as [atob] does. *)
Definition isBase64Char (c : ascii) : bool :=
  let n := nat_of_ascii c in
  (Nat.leb 65 n && Nat.leb n 90) || (Nat.leb 97 n && Nat.leb n 122)
  || (Nat.leb 48 n && Nat.leb n 57)
  || Nat.eqb n 43 || Nat.eqb n 47 || Nat.eqb n 61.

Definition strictDecode (s : string) : option (list Byte.byte) :=
  if forallb isBase64Char (list_ascii_of_string s)
  then bytesOfString s
  else None.

(** A voice session whose conversation has reached the closing line: the
    submit button is shown. *)
Definition concluded : State :=
  setTranscription
    (fun _ => [mkEntry user "Yes, that is correct." true;
               mkEntry bot "Perfect! Thank you for using the JHN Finance AI Agent!" true])
    live.

(** The text chat after the user has confirmed the summary: the submit
    button is shown. *)
Definition textConcluded : ChatbotText.State :=
  ChatbotText.sendMessage "key" confirming.

(** A stand-in for JSON: every string parses, to itself. *)
Definition parseAny (s : string) : string + string := inl s.

Definition printAny (s : string) : string := s.

End Notions.

(** * Properties *)

(** ** Outbound quantization *)

Lemma ToInt16_wrap (q : Q) :
  JS.ToInt16 (JS.Finite q) = JS.wrapInt16 (JS.truncate q).
Proof.
  unfold JS.ToInt16, JS.wrapInt16.
  set (z := JS.truncate q).
  pose proof (Z.mod_pos_bound z 65536 ltac:(lia)) as Hm.
  destruct (Z.leb_spec 32768 (z mod 65536)) as [H|H].
  - assert (E : ((z + 32768) mod 65536 = z mod 65536 - 32768)%Z).
    { symmetry. apply (Z.mod_unique _ _ (z / 65536 + 1)); [lia|].
      pose proof (Z.div_mod z 65536 ltac:(lia)). lia. }
    lia.
  - assert (E : ((z + 32768) mod 65536 = z mod 65536 + 32768)%Z).
    { symmetry. apply (Z.mod_unique _ _ (z / 65536)); [lia|].
      pose proof (Z.div_mod z 65536 ltac:(lia)). lia. }
    lia.
Qed.

Lemma wrapInt16_range (z : Z) : (-32768 <= JS.wrapInt16 z <= 32767)%Z.
Proof.
  unfold JS.wrapInt16.
  pose proof (Z.mod_pos_bound (z + 32768) 65536 ltac:(lia)). lia.
Qed.

Lemma wrapInt16_congruent (z : Z) : ((JS.wrapInt16 z - z) mod 65536 = 0)%Z.
Proof.
  unfold JS.wrapInt16.
  pose proof (Z.div_mod (z + 32768) 65536 ltac:(lia)) as H.
  replace ((z + 32768) mod 65536 - 32768 - z)%Z
    with ((- ((z + 32768) / 65536)) * 65536)%Z by lia.
  apply Z.mod_mul. lia.
Qed.

Lemma wrapInt16_id (z : Z) :
  (-32768 <= z <= 32767)%Z -> JS.wrapInt16 z = z.
Proof.
  intros H. unfold JS.wrapInt16.
  rewrite Z.mod_small by lia. lia.
Qed.

(** Truncation rounds towards zero: it is the floor of a non-negative
    number and the ceiling of a non-positive one. *)
Lemma truncate_towards_zero (q : Q) :
  (0 <= q -> JS.truncate q = Qfloor q)
  /\ (q <= 0 -> JS.truncate q = Qceiling q).
Proof.
  destruct q as [n d]. unfold JS.truncate, Qceiling, Qfloor, Qle, Qopp. simpl.
  split; intros H.
  - apply Z.quot_div_nonneg; lia.
  - rewrite Z.mul_1_r in H.
    replace n with (- - n)%Z at 1 by lia.
    rewrite Z.quot_opp_l by lia.
    f_equal. apply Z.quot_div_nonneg; lia.
Qed.

Lemma truncate_scaled_range (q : Q) :
  - (1) <= q -> q < 1 ->
  (-32768 <= JS.truncate (q * (32768 # 1)) <= 32767)%Z.
Proof.
  destruct q as [n d]. unfold JS.truncate, Qle, Qlt, Qmult. simpl.
  rewrite Pos.mul_1_r. intros Hlo Hhi.
  destruct (Z.le_gt_cases 0 n) as [Hn|Hn].
  - rewrite Z.quot_div_nonneg by lia.
    split.
    + pose proof (Z.div_pos (n * 32768) (Z.pos d) ltac:(lia) ltac:(lia)). lia.
    + assert (n * 32768 / Z.pos d < 32768)%Z; [|lia].
      apply Z.div_lt_upper_bound; lia.
  - replace (n * 32768)%Z with (- (- n * 32768))%Z by lia.
    rewrite Z.quot_opp_l by lia.
    rewrite Z.quot_div_nonneg by lia.
    split.
    + assert (- n * 32768 / Z.pos d <= 32768)%Z; [|lia].
      apply Z.div_le_upper_bound; lia.
    + pose proof (Z.div_pos (- n * 32768) (Z.pos d) ltac:(lia) ltac:(lia)). lia.
Qed.

(** C7.  Every captured block is converted sample by sample: a finite
    sample [q] becomes the truncation of [q * 32768] wrapped into the
    Int16 range in two's complement; the result always lies in
    [-32768, 32767], is the truncated product itself for [-1 <= q < 1],
    and outside that range nothing clamps it: the sample [1.0] becomes
    [-32768] and [1.5] becomes [-16384].  The conversion is a function of
    the sample alone (no dither). *)
Theorem quantize_truncates_and_wraps (inputData : list JS.Number) :
  List.length (Chatbot.quantize inputData) = List.length inputData
  /\ (forall i q,
        nth_error inputData i = Some (JS.Finite q) ->
        exists z,
          nth_error (Chatbot.quantize inputData) i = Some z
          /\ z = JS.wrapInt16 (JS.truncate (q * (32768 # 1)))
          /\ (-32768 <= z <= 32767)%Z
          /\ ((z - JS.truncate (q * (32768 # 1))) mod 65536 = 0)%Z
          /\ (- (1) <= q -> q < 1 -> z = JS.truncate (q * (32768 # 1))))
  /\ Chatbot.quantize [JS.Finite 1] = [(-32768)%Z]
  /\ Chatbot.quantize [JS.Finite (3 # 2)] = [(-16384)%Z]
  /\ Chatbot.quantize [JS.Finite (- (3 # 2))] = [16384%Z].
Proof.
  split; [apply length_map|].
  split; [|repeat split; reflexivity].
  intros i q Hi.
  exists (JS.wrapInt16 (JS.truncate (q * (32768 # 1)))).
  split.
  - unfold Chatbot.quantize. rewrite nth_error_map, Hi. simpl.
    f_equal. apply (ToInt16_wrap (q * (32768 # 1))).
  - split; [reflexivity|].
    split; [apply wrapInt16_range|].
    split; [apply wrapInt16_congruent|].
    intros Hlo Hhi. apply wrapInt16_id. now apply truncate_scaled_range.
Qed.

Lemma quantize_truncates_and_wraps_witness :
  exists z,
    nth_error (Chatbot.quantize [JS.Finite (1 # 2); JS.NaN]) 0 = Some z
    /\ z = 16384%Z.
Proof.
  destruct (quantize_truncates_and_wraps [JS.Finite (1 # 2); JS.NaN])
    as (_ & H & _).
  destruct (H 0%nat (1 # 2) eq_refl) as (z & Hz & _ & _ & _ & Hid).
  exists z. split; [exact Hz|].
  rewrite Hid; [reflexivity| |]; unfold Qle, Qlt; simpl; lia.
Defined.

(** ** The transcript of the voice session *)

Section Transcript.

Import Chatbot Notions.

Variable decode : string -> option (list Byte.byte).

Local Open Scope nat_scope.

Lemma snoc_case {A} (l : list A) :
  l = [] \/ exists l0 e, l = l0 ++ [e].
Proof.
  induction l as [|x l IH] using rev_ind; [now left|right; eauto].
Qed.

Lemma amendLast_nil who current :
  amendLast who current [] = [mkEntry who current false].
Proof. reflexivity. Qed.

Lemma amendLast_snoc who current l e :
  amendLast who current (l ++ [e]) =
  if Speaker_eqb (speaker e) who && negb (isFinal e)
  then l ++ [mkEntry (speaker e) current (isFinal e)]
  else (l ++ [e]) ++ [mkEntry who current false].
Proof.
  unfold amendLast. rewrite length_app. simpl.
  replace (List.length l + 1 - 1) with (List.length l) by lia.
  rewrite nth_error_app2 by lia. rewrite Nat.sub_diag. simpl.
  now rewrite removelast_last.
Qed.

(** A render changes the transcript and nothing else. *)
Lemma applyUpdater_frame u st :
  currentInputTranscriptionRef (applyUpdater u st) = currentInputTranscriptionRef st
  /\ currentOutputTranscriptionRef (applyUpdater u st)
     = currentOutputTranscriptionRef st
  /\ outputAudioContextRef (applyUpdater u st) = outputAudioContextRef st
  /\ nextAudioStartTimeRef (applyUpdater u st) = nextAudioStartTimeRef st
  /\ audioSourcesRef (applyUpdater u st) = audioSourcesRef st
  /\ allocated (applyUpdater u st) = allocated st
  /\ effects (applyUpdater u st) = effects st
  /\ status (applyUpdater u st) = status st.
Proof. destruct u as [[|]|]; repeat split. Qed.

Lemma render_frame queued : forall st,
  currentInputTranscriptionRef (render queued st) = currentInputTranscriptionRef st
  /\ currentOutputTranscriptionRef (render queued st)
     = currentOutputTranscriptionRef st
  /\ outputAudioContextRef (render queued st) = outputAudioContextRef st
  /\ nextAudioStartTimeRef (render queued st) = nextAudioStartTimeRef st
  /\ audioSourcesRef (render queued st) = audioSourcesRef st
  /\ allocated (render queued st) = allocated st
  /\ effects (render queued st) = effects st
  /\ status (render queued st) = status st.
Proof.
  induction queued as [|u queued IH]; intros st; [repeat split|].
  change (render (u :: queued) st) with (render queued (applyUpdater u st)).
  destruct (IH (applyUpdater u st)) as (-> & -> & -> & -> & -> & -> & -> & ->).
  apply applyUpdater_frame.
Qed.

Lemma render_snoc queued u st :
  render (queued ++ [u]) st = applyUpdater u (render queued st).
Proof. unfold render. now rewrite fold_left_app. Qed.

(** The three blocks leave the transcript to the render. *)
Lemma blocks_transcription message st :
  transcription
    (fst (onTurnComplete message
            (onOutputTranscription message
               (onInputTranscription message (st, [])))))
  = transcription st.
Proof.
  unfold onTurnComplete, onOutputTranscription, onInputTranscription.
  destruct (inputTranscription message), (outputTranscription message),
    (turnComplete message); reflexivity.
Qed.

(** What the audio block and the interruption block leave alone. *)
Lemma onmessage_transcript message now st :
  let st' := fst (onmessage decode message now st) in
  let st0 := transcribed message st in
  transcription st' = transcription st0
  /\ currentInputTranscriptionRef st' = currentInputTranscriptionRef st0
  /\ currentOutputTranscriptionRef st' = currentOutputTranscriptionRef st0.
Proof.
  unfold onmessage.
  set (st0 := transcribed message st). cbv zeta.
  destruct (base64AudioOf message) as [[d|]|];
    destruct (outputAudioContextRef st0) as [c|];
    try destruct (JS.truthy d); try destruct (decode d);
    unfold onInterrupted; destruct (interrupted message); simpl; auto.
Qed.

Lemma finalize_allFinal l :
  allFinal l -> map (fun e => mkEntry (speaker e) (text e) true) l = l.
Proof.
  induction 1 as [|e l He _ IH]; simpl; [reflexivity|].
  rewrite IH. destruct e as [sp t f]; simpl in *. now subst.
Qed.

Lemma allFinal_finalize l :
  allFinal (map (fun e => mkEntry (speaker e) (text e) true) l).
Proof. induction l; simpl; constructor; auto. Qed.

(** A partial update never touches a prefix of final entries. *)
Lemma amendLast_keeps_final_prefix who current l r :
  allFinal l -> exists r', amendLast who current (l ++ r) = l ++ r'.
Proof.
  intros Hl. destruct (snoc_case r) as [->|(r0 & e & ->)].
  - rewrite app_nil_r.
    destruct (snoc_case l) as [->|(l0 & e & ->)].
    + exists [mkEntry who current false]. reflexivity.
    + rewrite amendLast_snoc.
      apply Forall_app in Hl as [_ He]. inversion He as [|? ? Hf _]; subst.
      rewrite Hf, andb_false_r. eauto.
  - rewrite app_assoc, amendLast_snoc.
    destruct (_ && _); rewrite <- !app_assoc; eauto.
Qed.

Lemma applyUpdater_keeps_final_prefix u st l r :
  allFinal l -> transcription st = l ++ r ->
  exists r', transcription (applyUpdater u st) = l ++ r'.
Proof.
  intros Hl Hst. destruct u as [[|]|]; simpl; rewrite Hst.
  - now apply amendLast_keeps_final_prefix.
  - now apply amendLast_keeps_final_prefix.
  - rewrite map_app, finalize_allFinal by assumption. eauto.
Qed.

Lemma render_keeps_final_prefix queued : forall st l r,
  allFinal l -> transcription st = l ++ r ->
  exists r', transcription (render queued st) = l ++ r'.
Proof.
  induction queued as [|u queued IH]; intros st l r Hl Hst; [simpl; eauto|].
  change (render (u :: queued) st) with (render queued (applyUpdater u st)).
  destruct (applyUpdater_keeps_final_prefix u st l r Hl Hst) as (r1 & H1).
  eapply IH; eauto.
Qed.

Lemma onmessage_keeps_final_prefix message now st l r :
  allFinal l -> transcription st = l ++ r ->
  exists r', transcription (fst (onmessage decode message now st)) = l ++ r'.
Proof.
  intros Hl Hst.
  destruct (onmessage_transcript message now st) as (-> & _ & _).
  unfold transcribed. cbv zeta.
  eapply render_keeps_final_prefix; [exact Hl|].
  rewrite blocks_transcription. exact Hst.
Qed.

Lemma deliver_keeps_final_prefix messages : forall st l r,
  allFinal l -> transcription st = l ++ r ->
  exists r', transcription (deliver decode messages st) = l ++ r'.
Proof.
  induction messages as [|[message now] rest IH]; intros st l r Hl Hst; simpl.
  - eauto.
  - destruct (onmessage_keeps_final_prefix message now st l r Hl Hst) as (r1 & H1).
    eapply IH; eauto.
Qed.

(** The turn-complete block queues its updater last and empties both
    refs. *)
Lemma transcribed_turnComplete message st :
  turnComplete message = true ->
  exists queued s0,
    transcribed message st = applyUpdater MarkFinal (render queued s0)
    /\ currentInputTranscriptionRef s0 = ""
    /\ currentOutputTranscriptionRef s0 = "".
Proof.
  intros Htc. unfold transcribed, onTurnComplete. rewrite Htc. cbv zeta.
  cbn [fst snd]. rewrite render_snoc. do 2 eexists.
  split; [reflexivity|]. split; reflexivity.
Qed.

(** C4.  A turn-complete message leaves every entry final (none with
    [isFinal = false]) and both accumulators empty; whatever messages
    are handled afterwards, the entries committed here stay as they are,
    at the front of the transcript. *)
Theorem turn_complete_commits message now st :
  turnComplete message = true ->
  let st' := fst (onmessage decode message now st) in
  allFinal (transcription st')
  /\ filter (fun e => negb (isFinal e)) (transcription st') = []
  /\ currentInputTranscriptionRef st' = ""
  /\ currentOutputTranscriptionRef st' = ""
  /\ forall later, exists added,
       transcription (deliver decode later st') = transcription st' ++ added.
Proof.
  intros Htc st'.
  destruct (transcribed_turnComplete message st Htc)
    as (queued & s0 & Hrender & Hin & Hout).
  assert (Hfin : allFinal (transcription st')).
  { subst st'. destruct (onmessage_transcript message now st) as (-> & _ & _).
    rewrite Hrender. simpl. apply allFinal_finalize. }
  split; [exact Hfin|]. split.
  { induction Hfin as [|e l He _ IH]; simpl; [reflexivity|]. now rewrite He. }
  subst st'. destruct (onmessage_transcript message now st) as (_ & -> & ->).
  rewrite Hrender.
  destruct (applyUpdater_frame MarkFinal (render queued s0)) as (-> & -> & _).
  destruct (render_frame queued s0) as (-> & -> & _).
  split; [exact Hin|]. split; [exact Hout|].
  intros later. eapply deliver_keeps_final_prefix; [exact Hfin|].
  symmetry. apply app_nil_r.
Qed.










Lemma concatenation_cons t l :
  concatenation (t :: l) = (t ++ concatenation l)%string.
Proof.
  unfold concatenation. destruct l as [|u l]; simpl.
  - induction t; simpl; congruence.
  - reflexivity.
Qed.

Lemma string_app_assoc (a b c : string) :
  ((a ++ b) ++ c = a ++ (b ++ c))%string.
Proof. induction a; simpl; congruence. Qed.



Lemma concatenation_app a b :
  concatenation (a ++ b) = (concatenation a ++ concatenation b)%string.
Proof.
  induction a as [|t a IH]; [reflexivity|].
  change ((t :: a) ++ b) with (t :: (a ++ b)).
  now rewrite !concatenation_cons, IH, string_app_assoc.
Qed.



End Transcript.



Lemma turn_complete_commits_witness :
  Chatbot.turnComplete Notions.turnCompleteOnly = true
  /\ Notions.allFinal
       (Chatbot.transcription
          (fst (Chatbot.onmessage Notions.bytesOfString Notions.turnCompleteOnly 0
                  (Chatbot.deliver Notions.bytesOfString
                     [(Notions.partialInput "yes", 0)] Notions.mounted)))).
Proof.
  split; [reflexivity|].
  apply (turn_complete_commits Notions.bytesOfString Notions.turnCompleteOnly 0
           (Chatbot.deliver Notions.bytesOfString
              [(Notions.partialInput "yes", 0)] Notions.mounted) eq_refl).
Defined.

(** ** Playback of the inbound audio *)

Section Playback.

Import Chatbot Notions.

Variable decode : string -> option (list Byte.byte).

Lemma Qmax_nonneg_zero (x : Q) : 0 <= x -> Qmax x 0 = x.
Proof.
  intros H. unfold Qmax, GenericMinMax.gmax.
  destruct (Qcompare x 0) eqn:E; try reflexivity.
  apply Qlt_alt in E. exfalso. apply (Qlt_irrefl x).
  eapply Qlt_le_trans; eassumption.
Qed.

Lemma duration_nonneg (b : AudioUtils.AudioBuffer) : 0 <= AudioUtils.duration b.
Proof. unfold AudioUtils.duration, Qle. simpl. lia. Qed.

Lemma endTime_after_start (t : Q) (b : AudioUtils.AudioBuffer) :
  t <= t + AudioUtils.duration b.
Proof.
  rewrite <- (Qplus_0_r t) at 1.
  apply Qplus_le_r. apply duration_nonneg.
Qed.

Lemma intervals_app a b : intervals (a ++ b) = intervals a ++ intervals b.
Proof.
  induction a as [|e a IH]; simpl; [reflexivity|].
  destruct e; simpl; congruence.
Qed.

Lemma intervals_stops (l : list AudioBufferSourceNode) :
  intervals (map (fun s => SourceStop (node s)) l) = [].
Proof. induction l; simpl; auto. Qed.

(** The transcript blocks of the handler do not touch the playback. *)
Lemma transcript_blocks_playback message st :
  let st0 := transcribed message st in
  outputAudioContextRef st0 = outputAudioContextRef st
  /\ nextAudioStartTimeRef st0 = nextAudioStartTimeRef st
  /\ audioSourcesRef st0 = audioSourcesRef st
  /\ allocated st0 = allocated st
  /\ effects st0 = effects st
  /\ status st0 = status st.
Proof.
  unfold transcribed. cbv zeta.
  match goal with |- context [render ?q ?s] =>
    destruct (render_frame q s) as (_ & _ & -> & -> & -> & -> & -> & ->)
  end.
  unfold onTurnComplete, onOutputTranscription, onInputTranscription.
  destruct (inputTranscription message), (outputTranscription message),
    (turnComplete message); repeat split.
Qed.

(** A message whose fragment is scheduled. *)
Lemma onmessage_schedules message now st ctx b :
  outputAudioContextRef st = Some ctx ->
  fragment decode message = Some b ->
  let source := mkSource (allocated st) (Qmax now (nextAudioStartTimeRef st)) b in
  let st' := fst (onmessage decode message now st) in
  snd (onmessage decode message now st) = true
  /\ outputAudioContextRef st' = Some ctx
  /\ effects st' =
       effects st ++ [SourceStart source]
       ++ (if interrupted message
           then map (fun s => SourceStop (node s)) (audioSourcesRef st ++ [source])
           else [])
  /\ nextAudioStartTimeRef st' =
       (if interrupted message then 0 else endTime source)
  /\ audioSourcesRef st' =
       (if interrupted message then [] else audioSourcesRef st ++ [source]).
Proof.
  intros Hctx Hfrag. unfold fragment in Hfrag. unfold onmessage.
  destruct (transcript_blocks_playback message st) as (Hc & Hn & Hs & Ha & He & Hst).
  set (st0 := transcribed message st) in *. cbv zeta.
  destruct (base64AudioOf message) as [[d|]|]; try discriminate.
  rewrite Hc, Hctx.
  destruct (JS.truthy d); [|discriminate].
  destruct (decode d) as [bytes|]; [|discriminate].
  simpl in Hfrag. injection Hfrag as <-.
  unfold onInterrupted, schedule, endTime.
  destruct (interrupted message); simpl;
    rewrite ?Hc, ?Hn, ?Hs, ?Ha, ?He, ?Hctx, <- ?app_assoc; simpl; auto.
Qed.

(** A message without a fragment to schedule: no payload, an empty
    payload, or no playback context. *)
Lemma onmessage_quiet message now st :
  decodable decode message = true ->
  fragment decode message = None \/ outputAudioContextRef st = None ->
  let st' := fst (onmessage decode message now st) in
  snd (onmessage decode message now st) = true
  /\ outputAudioContextRef st' = outputAudioContextRef st
  /\ effects st' =
       effects st
       ++ (if interrupted message
           then map (fun s => SourceStop (node s)) (audioSourcesRef st)
           else [])
  /\ nextAudioStartTimeRef st' =
       (if interrupted message then 0 else nextAudioStartTimeRef st)
  /\ audioSourcesRef st' =
       (if interrupted message then [] else audioSourcesRef st).
Proof.
  unfold fragment, decodable, onmessage.
  destruct (transcript_blocks_playback message st) as (Hc & Hn & Hs & Ha & He & Hst).
  set (st0 := transcribed message st) in *. cbv zeta.
  intros Hdec Hfrag.
  destruct (base64AudioOf message) as [data|]; [|discriminate].
  rewrite Hc.
  destruct (outputAudioContextRef st) as [ctx|] eqn:E;
    (destruct data as [d|];
     [destruct (JS.truthy d);
      [destruct (decode d); simpl in *;
       try discriminate; try (destruct Hfrag; discriminate)|]|]);
    unfold onInterrupted; destruct (interrupted message); simpl;
    rewrite ?Hc, ?Hs, ?He, ?Hn, ?app_nil_r; repeat split; auto.
Qed.

Lemma intervals_quiet message now st :
  decodable decode message = true ->
  fragment decode message = None \/ outputAudioContextRef st = None ->
  intervals (effects (fst (onmessage decode message now st)))
  = intervals (effects st).
Proof.
  intros Hd Hq. destruct (onmessage_quiet message now st Hd Hq)
    as (_ & _ & -> & _ & _).
  rewrite intervals_app.
  destruct (interrupted message);
    now rewrite ?intervals_stops, app_nil_r.
Qed.

Lemma deliver_quiet quiet : forall st,
  (forall m t, In (m, t) quiet ->
     fragment decode m = None /\ decodable decode m = true) ->
  nextAudioStartTimeRef st = 0 ->
  let st' := deliver decode quiet st in
  outputAudioContextRef st' = outputAudioContextRef st
  /\ nextAudioStartTimeRef st' = 0
  /\ intervals (effects st') = intervals (effects st).
Proof.
  induction quiet as [|[m t] rest IH]; intros st Hall Hclock; simpl; auto.
  destruct (Hall m t (or_introl eq_refl)) as (Hf & Hd).
  destruct (onmessage_quiet m t st Hd (or_introl Hf)) as (_ & Hc & _ & Hn & _).
  destruct (IH (fst (onmessage decode m t st))) as (Hc' & Hn' & Hi').
  { intros m' t' Hin. apply (Hall m' t'). now right. }
  { rewrite Hn, Hclock. now destruct (interrupted m). }
  rewrite Hc', Hn', Hi', Hc.
  now rewrite (intervals_quiet m t st Hd (or_introl Hf)).
Qed.

Lemma Gapless_bounds clock nows ivs :
  Gapless clock nows ivs ->
  forall j s e, nth_error ivs j = Some (s, e) -> clock <= s /\ s <= e.
Proof.
  induction 1 as [|clock now nows s e ivs Hs Hse _ IH]; intros j s' e' Hj.
  - destruct j; discriminate.
  - assert (Hcs : clock <= s) by (subst s; apply Q.le_max_r).
    destruct j as [|j]; simpl in Hj.
    + injection Hj as <- <-. auto.
    + destruct (IH j s' e' Hj) as (H1 & H2). split; [|exact H2].
      eapply Qle_trans; [exact Hcs|]. eapply Qle_trans; eassumption.
Qed.

Lemma Gapless_ordered clock nows ivs :
  Gapless clock nows ivs ->
  forall i j s1 e1 s2 e2, (i < j)%nat ->
    nth_error ivs i = Some (s1, e1) -> nth_error ivs j = Some (s2, e2) ->
    s1 <= e1 /\ e1 <= s2.
Proof.
  induction 1 as [|clock now nows s e ivs Hs Hse HG IH];
    intros i j s1 e1 s2 e2 Hij Hi Hj.
  - destruct i; discriminate.
  - destruct j as [|j]; [lia|]. simpl in Hj.
    destruct i as [|i]; simpl in Hi.
    + injection Hi as <- <-. split; [exact Hse|].
      now destruct (Gapless_bounds _ _ _ HG j s2 e2 Hj).
    + apply (IH i j s1 e1 s2 e2); [lia|assumption|assumption].
Qed.

Lemma Gapless_length clock nows ivs :
  Gapless clock nows ivs -> List.length ivs = List.length nows.
Proof. induction 1; simpl; congruence. Qed.

Lemma deliver_fragments messages : forall st,
  outputAudioContextRef st <> None ->
  (forall m now, In (m, now) messages ->
     interrupted m = false /\ fragment decode m <> None) ->
  exists scheduled,
    intervals (effects (deliver decode messages st))
      = intervals (effects st) ++ scheduled
    /\ Gapless (nextAudioStartTimeRef st) (map snd messages) scheduled.
Proof.
  induction messages as [|[m now] rest IH]; intros st Hctx Hall; simpl.
  - exists []. split; [now rewrite app_nil_r|constructor].
  - destruct (Hall m now (or_introl eq_refl)) as (Hint & Hfrag).
    destruct (outputAudioContextRef st) as [ctx|] eqn:Ectx; [|congruence].
    destruct (fragment decode m) as [b|] eqn:Eb; [|congruence].
    destruct (onmessage_schedules m now st ctx b Ectx Eb)
      as (_ & Hc & He & Hn & _).
    rewrite Hint in He, Hn.
    destruct (IH (fst (onmessage decode m now st))) as (scheduled & Hiv & HG).
    { rewrite Hc. discriminate. }
    { intros m' now' Hin. apply (Hall m' now'). now right. }
    rewrite Hn in HG. rewrite He in Hiv.
    eexists (_ :: scheduled). split.
    + rewrite Hiv, !intervals_app. simpl. rewrite <- app_assoc. reflexivity.
    + constructor; [reflexivity|apply endTime_after_start|exact HG].
Qed.

(** C1.  Audio messages handled in delivery order, none of them signalling
    an interruption: each fragment is started at the later of the clock
    of the playback context and the end of the fragment scheduled before
    it (the playback clock for the first), so the N intervals come one
    per message, none overlaps another and each starts no earlier than
    the previous one ends. *)
Theorem fragments_play_back_to_back messages st :
  outputAudioContextRef st <> None ->
  (forall m now, In (m, now) messages ->
     interrupted m = false /\ fragment decode m <> None) ->
  exists scheduled,
    intervals (effects (deliver decode messages st))
      = intervals (effects st) ++ scheduled
    /\ List.length scheduled = List.length messages
    /\ Gapless (nextAudioStartTimeRef st) (map snd messages) scheduled
    /\ forall i j s1 e1 s2 e2, (i < j)%nat ->
         nth_error scheduled i = Some (s1, e1) ->
         nth_error scheduled j = Some (s2, e2) ->
         s1 <= e1 /\ e1 <= s2 /\ s2 <= e2.
Proof.
  intros Hctx Hall.
  destruct (deliver_fragments messages st Hctx Hall) as (scheduled & Hiv & HG).
  exists scheduled. split; [exact Hiv|]. split.
  { rewrite (Gapless_length _ _ _ HG). apply length_map. }
  split; [exact HG|].
  intros i j s1 e1 s2 e2 Hij Hi Hj.
  destruct (Gapless_ordered _ _ _ HG i j s1 e1 s2 e2 Hij Hi Hj) as (H1 & H2).
  destruct (Gapless_bounds _ _ _ HG j s2 e2 Hj) as (_ & H3). auto.
Qed.

(** When [decode] throws on the payload, the handler is rejected in the
    audio block: the status is [SPEAKING], nothing is scheduled, and the
    interruption block of the same message is not reached. *)
Lemma onmessage_rejected message now st ctx base64Audio :
  outputAudioContextRef st = Some ctx ->
  base64AudioOf message = Some (Some base64Audio) ->
  JS.truthy base64Audio = true ->
  decode base64Audio = None ->
  let st' := fst (onmessage decode message now st) in
  snd (onmessage decode message now st) = false
  /\ status st' = SPEAKING
  /\ effects st' = effects st
  /\ audioSourcesRef st' = audioSourcesRef st
  /\ nextAudioStartTimeRef st' = nextAudioStartTimeRef st.
Proof.
  intros Hctx Hdata Htruthy Hdecode. unfold onmessage.
  destruct (transcript_blocks_playback message st) as (Hc & Hn & Hs & Ha & He & Hst).
  set (st0 := transcribed message st) in *. cbv zeta.
  rewrite Hdata, Hc, Hctx, Htruthy, Hdecode. simpl. auto.
Qed.

(** When the model turn has no parts, the handler is rejected where it
    reads [parts[0]]: nothing of the audio block and of the interruption
    block is executed. *)
Lemma onmessage_without_parts message now st :
  base64AudioOf message = None ->
  let st' := fst (onmessage decode message now st) in
  snd (onmessage decode message now st) = false
  /\ status st' = status st
  /\ effects st' = effects st
  /\ audioSourcesRef st' = audioSourcesRef st
  /\ nextAudioStartTimeRef st' = nextAudioStartTimeRef st.
Proof.
  intros Hdata. unfold onmessage.
  destruct (transcript_blocks_playback message st) as (Hc & Hn & Hs & Ha & He & Hst).
  set (st0 := transcribed message st) in *. cbv zeta.
  rewrite Hdata. simpl. auto.
Qed.

Lemma mounted_sourcesNeedContext : sourcesNeedContext mounted.
Proof. intros _. reflexivity. Qed.

Lemma onmessage_sourcesNeedContext message now st :
  sourcesNeedContext st ->
  sourcesNeedContext (fst (onmessage decode message now st)).
Proof.
  unfold sourcesNeedContext, onmessage.
  destruct (transcript_blocks_playback message st) as (Hc & Hn & Hs & Ha & He & Hst).
  set (st0 := transcribed message st) in *. cbv zeta.
  intros Hinv.
  destruct (base64AudioOf message) as [data|];
    [|simpl; rewrite Hc, Hs; exact Hinv].
  rewrite Hc.
  destruct (outputAudioContextRef st) as [ctx|] eqn:E;
    destruct data as [d|];
    try destruct (JS.truthy d); try destruct (decode d);
    unfold onInterrupted, schedule; destruct (interrupted message); simpl;
    rewrite ?Hc, ?Hs, ?E; intros H; try discriminate; auto.
Qed.

Lemma onended_sourcesNeedContext id st :
  sourcesNeedContext st -> sourcesNeedContext (onended id st).
Proof.
  unfold sourcesNeedContext, onended. cbv zeta.
  destruct (filter _ (audioSourcesRef st)) eqn:E; simpl; intros Hinv Hctx.
  - reflexivity.
  - rewrite (Hinv Hctx) in E. discriminate.
Qed.

(** Where the handler reaches the interruption block, which it does when
    nothing throws in the audio block before it: whatever the state of
    the playback, handling a message that signals an interruption runs to
    its end, stops every source of the active set, leaves the set empty
    and puts the playback clock back to zero.  The next fragment handled
    afterwards, directly or after messages that carry no fragment, starts
    at the reading of the context clock at its handling, not at the clock
    value from before the interruption. *)
Lemma interruption_resets_playback message now st :
  interrupted message = true ->
  decodable decode message = true ->
  let st' := fst (onmessage decode message now st) in
  snd (onmessage decode message now st) = true
  /\ audioSourcesRef st' = []
  /\ nextAudioStartTimeRef st' = 0
  /\ (exists performed,
        effects st' = effects st ++ performed
        /\ forall s, In s (audioSourcesRef st) ->
                     In (SourceStop (node s)) performed)
  /\ forall quiet next now' b,
       outputAudioContextRef st <> None ->
       (forall m t, In (m, t) quiet ->
          fragment decode m = None /\ decodable decode m = true) ->
       fragment decode next = Some b ->
       0 <= now' ->
       let before := deliver decode quiet st' in
       intervals (effects (fst (onmessage decode next now' before)))
       = intervals (effects before) ++ [(now', now' + AudioUtils.duration b)].
Proof.
  intros Hint Hdec st'.
  assert (H : snd (onmessage decode message now st) = true
              /\ outputAudioContextRef st' = outputAudioContextRef st
              /\ audioSourcesRef st' = []
              /\ nextAudioStartTimeRef st' = 0
              /\ exists performed,
                   effects st' = effects st ++ performed
                   /\ forall s, In s (audioSourcesRef st) ->
                                In (SourceStop (node s)) performed).
  { subst st'.
    destruct (outputAudioContextRef st) as [ctx|] eqn:Ectx;
      [destruct (fragment decode message) as [b|] eqn:Eb|].
    - destruct (onmessage_schedules message now st ctx b Ectx Eb)
        as (Hs & Hc & He & Hn & Ha).
      rewrite Hint in He, Hn, Ha. repeat split; auto.
      eexists. split; [exact He|].
      intros s Hin. right. apply in_map_iff. exists s. split; [reflexivity|].
      apply in_or_app. now left.
    - destruct (onmessage_quiet message now st Hdec (or_introl Eb))
        as (Hs & Hc & He & Hn & Ha).
      rewrite Hint in He, Hn, Ha. rewrite <- Ectx. repeat split; auto.
      eexists. split; [exact He|].
      intros s Hin. apply in_map_iff. now exists s.
    - destruct (onmessage_quiet message now st Hdec (or_intror Ectx))
        as (Hs & Hc & He & Hn & Ha).
      rewrite Hint in He, Hn, Ha. rewrite Ectx in Hc. repeat split; auto.
      eexists. split; [exact He|].
      intros s Hin. apply in_map_iff. now exists s. }
  destruct H as (Hs & Hc & Ha & Hn & Hp).
  repeat (split; [assumption|]).
  intros quiet next now' b Hctx Hquiet Hnext Hnow before.
  destruct (deliver_quiet quiet st' Hquiet Hn) as (Hc' & Hn' & _).
  fold before in Hc', Hn'.
  destruct (outputAudioContextRef before) as [ctx|] eqn:Ectx; [|congruence].
  destruct (onmessage_schedules next now' before ctx b Ectx Hnext)
    as (_ & _ & He & _ & _).
  rewrite He, Hn', !intervals_app. simpl.
  rewrite (Qmax_nonneg_zero now' Hnow).
  destruct (interrupted next); now rewrite ?intervals_stops.
Qed.

End Playback.

Lemma fragments_play_back_to_back_witness :
  let messages :=
    [(Notions.audioOnly "AAAAAAAA", 0); (Notions.audioOnly "AAAA", 1 # 2)] in
  Chatbot.outputAudioContextRef Notions.live <> None
  /\ exists scheduled,
       Chatbot.intervals
         (Chatbot.effects
            (Chatbot.deliver Notions.bytesOfString messages Notions.live))
       = Chatbot.intervals (Chatbot.effects Notions.live) ++ scheduled
       /\ List.length scheduled = List.length messages
       /\ Notions.Gapless (Chatbot.nextAudioStartTimeRef Notions.live)
            (map snd messages) scheduled
       /\ forall i j s1 e1 s2 e2, (i < j)%nat ->
            nth_error scheduled i = Some (s1, e1) ->
            nth_error scheduled j = Some (s2, e2) ->
            s1 <= e1 /\ e1 <= s2 /\ s2 <= e2.
Proof.
  intros messages. split; [discriminate|].
  apply (fragments_play_back_to_back Notions.bytesOfString messages Notions.live).
  - discriminate.
  - intros m now [H|[H|[]]]; inversion H; subst; split;
      solve [reflexivity | vm_compute; discriminate].
Defined.

(** C2.  An interruption is lost when the handler throws before it
    reaches the interruption block, which is the last of the handler and
    stands behind the audio block: on a message that signals an
    interruption and carries a model turn without parts, or a payload that
    [decode] refuses, the handler is rejected, no source is stopped, the
    active set keeps its source and the playback clock its value, and the
    next fragment starts at the old clock value, not at the reading of the
    context clock.  The same interruption alone stops the source, empties
    the set and puts the clock to zero. *)
Theorem interruption_lost_when_the_handler_throws :
  let handled := fun message =>
    Chatbot.onmessage Notions.strictDecode message 1 Notions.live in
  let scheduledAfter := fun st =>
    map fst
      (Chatbot.intervals
         (Chatbot.effects
            (fst (Chatbot.onmessage Notions.strictDecode
                    (Notions.audioOnly "AAAA") 1 st)))) in
  Chatbot.audioSourcesRef Notions.live <> []
  /\ Chatbot.nextAudioStartTimeRef Notions.live = 2
  /\ Chatbot.interrupted Notions.interruptedWithoutParts = true
  /\ handled Notions.interruptedWithoutParts = (Notions.live, false)
  /\ scheduledAfter (fst (handled Notions.interruptedWithoutParts)) = [2]
  /\ Chatbot.interrupted (Notions.interruptedWith "!") = true
  /\ Notions.strictDecode "!" = None
  /\ handled (Notions.interruptedWith "!")
     = (Chatbot.setStatus SPEAKING Notions.live, false)
  /\ scheduledAfter (fst (handled (Notions.interruptedWith "!"))) = [2]
  /\ snd (handled Notions.interruptedOnly) = true
  /\ Chatbot.audioSourcesRef (fst (handled Notions.interruptedOnly)) = []
  /\ Chatbot.nextAudioStartTimeRef (fst (handled Notions.interruptedOnly)) = 0
  /\ Chatbot.effects (fst (handled Notions.interruptedOnly))
     = [Chatbot.SourceStop 0]
  /\ scheduledAfter (fst (handled Notions.interruptedOnly)) = [1].
Proof.
  cbv zeta. split; [discriminate|]. repeat split; vm_compute; reflexivity.
Qed.

(** ** Teardown *)

Section Teardown.

Import Chatbot Notions.

Ltac find_in :=
  repeat (rewrite in_app_iff);
  repeat match goal with
  | |- In (?f ?x) (map ?f ?l) => apply in_map; assumption
  | |- In (SourceStop (node ?s)) (map _ ?l) =>
      apply in_map_iff; exists s; split; [reflexivity|assumption]
  | |- In ?x [?x] => left; reflexivity
  | |- _ \/ _ => first [left; solve [find_in] | right; solve [find_in]]
  end.

Lemma closeIfOpen_open c :
  ctx_state c <> closed -> closeIfOpen (Some c) = [ContextClose (ctx_id c)].
Proof. unfold closeIfOpen. destruct (ctx_state c); congruence. Qed.

Lemma cleanup_frame st :
  let st' := cleanup st in
  status st' = status st
  /\ error st' = error st
  /\ transcription st' = transcription st
  /\ showFeedback st' = showFeedback st
  /\ isSubmitting st' = isSubmitting st
  /\ pending st' = pending st
  /\ released st'
  /\ isSubmittingRef st' = false
  /\ (outputAudioContextRef st <> None \/ audioSourcesRef st = [] ->
      audioSourcesRef st' = []).
Proof.
  unfold cleanup, stopAudioPlayback, released.
  destruct st as [? ? ? ? ? ? sp ic oc ms pr ? srcs ? ? ? ? ? ?]. simpl.
  destruct oc, ms, pr, sp; simpl; repeat split; auto;
    intros [H|H]; congruence.
Qed.

Lemma cleanup_effects st :
  effects (cleanup st) = effects st ++ teardownCalls st.
Proof.
  unfold cleanup, stopAudioPlayback, teardownCalls.
  destruct st as [? ? ? ? ? ? sp ic oc ms pr ? srcs ? ? ? ? ? eff]. simpl.
  destruct oc as [oc|], ms as [ms|], pr as [pr|], sp as [sp|]; simpl;
    rewrite <- ?app_assoc, ?app_nil_r; reflexivity.
Qed.

Lemma teardownCalls_complete st :
  (outputAudioContextRef st <> None ->
   forall s, In s (audioSourcesRef st) ->
             In (SourceStop (node s)) (teardownCalls st))
  /\ (forall stream track, microphoneStreamRef st = Some stream ->
      In track (getTracks stream) -> In (TrackStop track) (teardownCalls st))
  /\ (forall p, scriptProcessorRef st = Some p ->
      In (ProcessorDisconnect p) (teardownCalls st))
  /\ (forall c, inputAudioContextRef st = Some c -> ctx_state c <> closed ->
      In (ContextClose (ctx_id c)) (teardownCalls st))
  /\ (forall c, outputAudioContextRef st = Some c -> ctx_state c <> closed ->
      In (ContextClose (ctx_id c)) (teardownCalls st))
  /\ (forall session, sessionPromiseRef st = Some session ->
      In (SessionClose session) (teardownCalls st)).
Proof.
  unfold teardownCalls. repeat apply conj.
  - intros Hctx s Hin.
    destruct (outputAudioContextRef st); [|congruence]. find_in.
  - intros stream track -> Hin. find_in.
  - intros p ->. find_in.
  - intros c -> Hopen. rewrite (closeIfOpen_open c Hopen). find_in.
  - intros c -> Hopen. rewrite (closeIfOpen_open c Hopen). find_in.
  - intros session ->. find_in.
Qed.

Lemma cleanup_sourcesNeedContext st :
  sourcesNeedContext st ->
  audioSourcesRef (cleanup st) = [] /\ sourcesNeedContext (cleanup st).
Proof.
  intros Hinv.
  destruct (cleanup_frame st) as (_ & _ & _ & _ & _ & _ & _ & _ & Ha).
  assert (H : audioSourcesRef (cleanup st) = []).
  { apply Ha. destruct (outputAudioContextRef st) eqn:E;
      [left; discriminate|right; now apply Hinv]. }
  split; [exact H|intros _; exact H].
Qed.

(** C8.  When the remote session closes, [onclose] releases the
    microphone, the processing node, both audio contexts and the session
    handle, and stops and forgets the playback sources of a playback
    context; the session state field, the error message and the
    transcript are what they were: a state [ERROR] is still [ERROR], where
    [stopSession] would have put [IDLE]. *)
Theorem remote_close_keeps_status st :
  let st' := onclose st in
  status st' = status st
  /\ (status st = ERROR -> status st' = ERROR)
  /\ error st' = error st
  /\ transcription st' = transcription st
  /\ released st'
  /\ (outputAudioContextRef st <> None \/ audioSourcesRef st = [] ->
      audioSourcesRef st' = [])
  /\ status (stopSession st) = IDLE
  /\ exists performed,
       effects st' = effects st ++ performed
       /\ (outputAudioContextRef st <> None ->
           forall s, In s (audioSourcesRef st) ->
                     In (SourceStop (node s)) performed)
       /\ (forall stream track, microphoneStreamRef st = Some stream ->
           In track (getTracks stream) -> In (TrackStop track) performed)
       /\ (forall p, scriptProcessorRef st = Some p ->
           In (ProcessorDisconnect p) performed)
       /\ (forall c, inputAudioContextRef st = Some c -> ctx_state c <> closed ->
           In (ContextClose (ctx_id c)) performed)
       /\ (forall c, outputAudioContextRef st = Some c -> ctx_state c <> closed ->
           In (ContextClose (ctx_id c)) performed)
       /\ (forall session, sessionPromiseRef st = Some session ->
           In (SessionClose session) performed).
Proof.
  unfold onclose. cbv zeta.
  destruct (cleanup_frame st) as (Hs & He & Ht & _ & _ & _ & Hr & _ & Ha).
  split; [exact Hs|]. split; [congruence|].
  split; [exact He|]. split; [exact Ht|]. split; [exact Hr|].
  split; [exact Ha|]. split.
  - unfold stopSession.
    destruct (cleanup_frame (setStatus IDLE st)) as (Hs' & _). exact Hs'.
  - exists (teardownCalls st). split; [apply cleanup_effects|].
    apply teardownCalls_complete.
Qed.

End Teardown.

Lemma remote_close_keeps_status_witness :
  Chatbot.status (Chatbot.onclose (Chatbot.setStatus ERROR Notions.live)) = ERROR
  /\ Notions.released (Chatbot.onclose (Chatbot.setStatus ERROR Notions.live))
  /\ Chatbot.audioSourcesRef
       (Chatbot.onclose (Chatbot.setStatus ERROR Notions.live)) = [].
Proof.
  destruct (remote_close_keeps_status (Chatbot.setStatus ERROR Notions.live))
    as (_ & He & _ & _ & Hr & Ha & _).
  split; [apply He; reflexivity|]. split; [exact Hr|].
  apply Ha. left. discriminate.
Defined.

(** ** Submission of the quote *)

Section Submission.

Import Notions.

Variable Json : Type.
Variable JSON_parse : string -> Json + string.
Variable JSON_stringify : Json -> string.

Local Open Scope nat_scope.

(** *** Text widget: the guard is the ref [isSubmittingRef] *)

Local Abbreviation tstep := (ChatbotText.step Json JSON_parse JSON_stringify).
Local Abbreviation trun := (ChatbotText.run Json JSON_parse JSON_stringify).

Lemma text_guard_noop st :
  ChatbotText.isSubmittingRef st = true ->
  ChatbotText.handleDataSubmission st = st.
Proof. intros H. unfold ChatbotText.handleDataSubmission. now rewrite H. Qed.

Lemma text_step_guarded st e : textGuarded st -> textGuarded (tstep st e).
Proof.
  unfold textGuarded. destruct st as [? ? ? ? ? ? ? ? ? ref ? pend ? ?].
  destruct e as [|i r|i r]; simpl;
    unfold ChatbotText.handleDataSubmission,
           ChatbotText.generateContentSettled, ChatbotText.fetchSettled;
    simpl.
  - destruct ref; simpl; [auto|].
    destruct pend as [|x [|y l]]; simpl; intros H; auto; discriminate.
  - destruct pend as [|x [|y l]]; simpl; auto; try contradiction.
    + now destruct i.
    + destruct i as [|i]; simpl; [|now destruct i].
      destruct x; simpl; auto.
      destruct r as [[t|]|m]; simpl; auto;
        destruct (JSON_parse _); simpl; auto.
  - destruct pend as [|x [|y l]]; simpl; auto; try contradiction.
    + now destruct i.
    + destruct i as [|i]; simpl; [|now destruct i].
      destruct x; simpl; auto.
      destruct r as [w|m]; simpl; auto.
      destruct (_ || _); simpl; auto.
Qed.

Lemma text_run_guarded es : forall st, textGuarded st -> textGuarded (trun st es).
Proof.
  induction es as [|e es IH]; intros st H; simpl; [exact H|].
  apply IH. now apply text_step_guarded.
Qed.

Lemma text_idle_guarded st : textIdle st -> textGuarded st.
Proof. intros (_ & H). unfold textGuarded. now rewrite H. Qed.

Lemma text_in_flight_noop st :
  textGuarded st -> ChatbotText.pending st <> [] -> tstep st Submit = st.
Proof.
  unfold textGuarded. intros HG Hp. simpl. apply text_guard_noop.
  destruct (ChatbotText.pending st) as [|x [|y l]]; [congruence|exact HG|contradiction].
Qed.

Lemma text_run_app a b st : trun st (a ++ b) = trun (trun st a) b.
Proof. apply fold_left_app. Qed.

Lemma or_else_truthy a b : JS.truthy b = true -> JS.truthy (JS.or_else a b) = true.
Proof.
  intros Hb. unfold JS.or_else. destruct a as [s|]; [|exact Hb].
  destruct (JS.truthy s) eqn:E; [exact E|exact Hb].
Qed.

Lemma text_single_submission st text data r :
  textIdle st -> JSON_parse text = inl data ->
  ChatbotText.effects
    (trun st [Submit; Submit;
              GenerateContentSettled 0 (Fulfilled (Some text));
              Submit; FetchSettled 0 r])
  = ChatbotText.effects st
    ++ [ChatbotText.GenerateContent "gemini-2.5-flash" (ChatbotText.extractionPrompt st);
        ChatbotText.Fetch "/api/submit-quote" "POST" (JSON_stringify data)].
Proof.
  destruct st as [? ? ? ? ? ? ? ? ? ref ? pend ? eff].
  unfold textIdle. simpl. intros (-> & ->) Hparse.
  unfold ChatbotText.handleDataSubmission, ChatbotText.generateContentSettled.
  simpl. rewrite Hparse. simpl.
  unfold ChatbotText.fetchSettled. simpl.
  destruct r as [w|m]; simpl; [destruct (_ || _); simpl|];
    now rewrite <- app_assoc.
Qed.

Lemma text_refusal st i webhookRes :
  nth_error (ChatbotText.pending st) i = Some AwaitFetch ->
  refused webhookRes = true ->
  let st' := ChatbotText.fetchSettled i (Fulfilled webhookRes) st in
  exists message,
    ChatbotText.error st' = Some message
    /\ JS.truthy message = true
    /\ ChatbotText.errorPanel st' = Some message
    /\ ChatbotText.showFeedback st' = ChatbotText.showFeedback st
    /\ ChatbotText.feedbackPrompt st' = false
    /\ ChatbotText.isSubmitting st' = false
    /\ ChatbotText.isSubmittingRef st' = false
    /\ ChatbotText.pending st' = remove_nth i (ChatbotText.pending st)
    /\ ChatbotText.effects st' = ChatbotText.effects st
    /\ ChatbotText.effects (ChatbotText.handleDataSubmission st')
       = ChatbotText.effects st'
         ++ [ChatbotText.GenerateContent "gemini-2.5-flash"
               (ChatbotText.extractionPrompt st')].
Proof.
  intros Hp Hr. unfold ChatbotText.fetchSettled. rewrite Hp.
  unfold refused in Hr. cbv zeta. rewrite Hr.
  set (thrown := JS.or_else _ _).
  remember (JS.or_else (Some thrown) "Quote submission failed. Check console.")
    as message eqn:Em.
  assert (Ht : JS.truthy message = true).
  { subst message. apply or_else_truthy. reflexivity. }
  exists message.
  unfold ChatbotText.errorPanel, ChatbotText.feedbackPrompt,
    ChatbotText.errorPanel, ChatbotText.handleDataSubmission,
    ChatbotText.submissionFailed.
  rewrite <- Em. simpl. rewrite Ht. repeat split; reflexivity.
Qed.

(** *** Voice widget: the guard is the state [isSubmitting], as the render
    of the handler saw it *)

Local Abbreviation vstep := (Chatbot.step Json JSON_parse JSON_stringify).
Local Abbreviation vrun := (Chatbot.run Json JSON_parse JSON_stringify).

Lemma requests_app a b : requests (a ++ b) = requests a ++ requests b.
Proof. apply filter_app. Qed.

Lemma requests_teardownCalls st : requests (teardownCalls st) = [].
Proof.
  unfold teardownCalls, Chatbot.closeIfOpen. rewrite !requests_app.
  assert (H1 : forall l, requests (map (fun s => Chatbot.SourceStop (Chatbot.node s)) l) = [])
    by (induction l; simpl; auto).
  assert (H2 : forall l, requests (map Chatbot.TrackStop l) = [])
    by (induction l; simpl; auto).
  destruct (Chatbot.outputAudioContextRef st) as [oc|];
    [destruct (Chatbot.ctx_state oc)|];
    (destruct (Chatbot.inputAudioContextRef st) as [ic|];
     [destruct (Chatbot.ctx_state ic)|]);
    destruct (Chatbot.microphoneStreamRef st), (Chatbot.scriptProcessorRef st),
      (Chatbot.sessionPromiseRef st);
    rewrite ?H1, ?H2; reflexivity.
Qed.

Lemma voice_failed message st :
  let st' := Chatbot.submissionFailed message st in
  Chatbot.error st'
    = Some (JS.or_else message "Quote submission failed. Check console.")
  /\ Chatbot.status st' = IDLE
  /\ Chatbot.isSubmitting st' = false
  /\ Chatbot.isSubmittingRef st' = false
  /\ Chatbot.showFeedback st' = Chatbot.showFeedback st
  /\ Chatbot.pending st' = Chatbot.pending st
  /\ Chatbot.transcription st' = Chatbot.transcription st
  /\ requests (Chatbot.effects st') = requests (Chatbot.effects st).
Proof.
  unfold Chatbot.submissionFailed, Chatbot.stopSession. cbv zeta.
  match goal with |- context [Chatbot.cleanup ?X] =>
    destruct (cleanup_frame X) as (Hs & He & Ht & Hf & Hi & Hp & _ & Hr & _);
    pose proof (cleanup_effects X) as Heff
  end.
  rewrite Hs, He, Ht, Hf, Hi, Hp, Hr, Heff, requests_app, requests_teardownCalls,
    app_nil_r.
  repeat split; reflexivity.
Qed.

Lemma voice_succeeded st :
  let st' := Chatbot.submissionSucceeded st in
  Chatbot.showFeedback st' = true
  /\ Chatbot.isSubmitting st' = false
  /\ Chatbot.pending st' = Chatbot.pending st
  /\ requests (Chatbot.effects st') = requests (Chatbot.effects st).
Proof.
  unfold Chatbot.submissionSucceeded, Chatbot.stopSession. cbv zeta.
  match goal with |- context [Chatbot.cleanup ?X] =>
    destruct (cleanup_frame X) as (Hs & He & Ht & Hf & Hi & Hp & _ & Hr & _);
    pose proof (cleanup_effects X) as Heff
  end.
  rewrite Hf, Hi, Hp, Heff, requests_app, requests_teardownCalls, app_nil_r.
  repeat split; reflexivity.
Qed.

Lemma voice_guard_noop rendered st :
  Chatbot.isSubmitting rendered = true ->
  Chatbot.handleDataSubmission rendered st = st.
Proof. intros H. unfold Chatbot.handleDataSubmission. now rewrite H. Qed.

Lemma guarded_settled st : Chatbot.pending st = [] -> guarded st.
Proof. intros H. unfold guarded. now rewrite H. Qed.

Lemma voice_step_guarded st e : guarded st -> guarded (vstep st e).
Proof.
  intros HG.
  assert (Hsettle : forall s', Chatbot.pending s' = [] -> guarded s')
    by apply guarded_settled.
  destruct e as [|i r|i r]; simpl.
  - unfold Chatbot.handleDataSubmission.
    destruct (Chatbot.isSubmitting st) eqn:E; [exact HG|].
    unfold guarded in *. simpl.
    destruct (Chatbot.pending st) as [|x [|y l]]; simpl; auto; congruence.
  - unfold Chatbot.generateContentSettled.
    unfold guarded in HG.
    destruct (Chatbot.pending st) as [|x [|y l]] eqn:Ep; try contradiction.
    + destruct i; simpl; now apply Hsettle.
    + destruct i as [|i]; simpl;
        [|destruct i; simpl; unfold guarded; now rewrite Ep].
      destruct x; [|unfold guarded; now rewrite Ep].
      destruct r as [t|m]; [destruct (JSON_parse _)|].
      * unfold guarded. simpl. rewrite Ep. exact HG.
      * apply Hsettle.
        match goal with |- context [Chatbot.submissionFailed ?M ?X] =>
          destruct (voice_failed M X) as (_ & _ & _ & _ & _ & -> & _) end.
        reflexivity.
      * apply Hsettle.
        match goal with |- context [Chatbot.submissionFailed ?M ?X] =>
          destruct (voice_failed M X) as (_ & _ & _ & _ & _ & -> & _) end.
        reflexivity.
  - unfold Chatbot.fetchSettled.
    unfold guarded in HG.
    destruct (Chatbot.pending st) as [|x [|y l]] eqn:Ep; try contradiction.
    + destruct i; simpl; now apply Hsettle.
    + destruct i as [|i]; simpl;
        [|destruct i; simpl; unfold guarded; now rewrite Ep].
      destruct x; [unfold guarded; now rewrite Ep|].
      apply Hsettle.
      destruct r as [w|m]; [destruct (_ || _)|].
      * match goal with |- context [Chatbot.submissionFailed ?M ?X] =>
          destruct (voice_failed M X) as (_ & _ & _ & _ & _ & -> & _) end.
        reflexivity.
      * match goal with |- context [Chatbot.submissionSucceeded ?X] =>
          destruct (voice_succeeded X) as (_ & _ & -> & _) end.
        reflexivity.
      * match goal with |- context [Chatbot.submissionFailed ?M ?X] =>
          destruct (voice_failed M X) as (_ & _ & _ & _ & _ & -> & _) end.
        reflexivity.
Qed.

Lemma voice_run_guarded es : forall st, guarded st -> guarded (vrun st es).
Proof.
  induction es as [|e es IH]; intros st H; simpl; [exact H|].
  apply IH. now apply voice_step_guarded.
Qed.

Lemma voice_idle_guarded st : idle st -> guarded st.
Proof. intros (_ & H). now apply guarded_settled. Qed.

Lemma voice_in_flight_noop st :
  guarded st -> Chatbot.pending st <> [] -> vstep st Submit = st.
Proof.
  unfold guarded. intros HG Hp. simpl. apply voice_guard_noop.
  destruct (Chatbot.pending st) as [|x [|y l]]; [congruence|exact HG|contradiction].
Qed.

Lemma voice_run_app a b st : vrun st (a ++ b) = vrun (vrun st a) b.
Proof. apply fold_left_app. Qed.

Lemma voice_single_submission st text data r :
  idle st -> JSON_parse text = inl data ->
  requests
    (Chatbot.effects
       (vrun st [Submit; Submit;
                 GenerateContentSettled 0 (Fulfilled (Some text));
                 Submit; FetchSettled 0 r]))
  = requests (Chatbot.effects st)
    ++ [Chatbot.GenerateContent "gemini-3-flash-preview" (Chatbot.extractionPrompt st);
        Chatbot.Fetch "/api/submit-quote" "POST" (JSON_stringify data)].
Proof.
  intros (Hi & Hp) Hparse. unfold Chatbot.run. simpl.
  assert (E1 : Chatbot.handleDataSubmission st st
               = Chatbot.set_pending [AwaitGenerateContent]
                   (Chatbot.perform
                      [Chatbot.GenerateContent "gemini-3-flash-preview"
                         (Chatbot.extractionPrompt st)]
                      (Chatbot.setStatus PROCESSING
                         (Chatbot.setIsSubmitting true st)))).
  { unfold Chatbot.handleDataSubmission. rewrite Hi. simpl. now rewrite Hp. }
  rewrite E1. clear E1.
  rewrite (voice_guard_noop (Chatbot.set_pending _ _)) by reflexivity.
  unfold Chatbot.generateContentSettled. simpl. rewrite Hparse. simpl.
  rewrite (voice_guard_noop (Chatbot.set_pending _ _)) by reflexivity.
  unfold Chatbot.fetchSettled. simpl.
  destruct r as [w|m]; [destruct (_ || _)|];
    match goal with
    | |- context [Chatbot.submissionFailed ?M ?X] =>
        destruct (voice_failed M X) as (_ & _ & _ & _ & _ & _ & _ & ->)
    | |- context [Chatbot.submissionSucceeded ?X] =>
        destruct (voice_succeeded X) as (_ & _ & _ & ->)
    end;
    cbn [Chatbot.effects Chatbot.set_pending Chatbot.perform Chatbot.setStatus
         Chatbot.setIsSubmitting];
    rewrite !requests_app, <- app_assoc; reflexivity.
Qed.

Lemma voice_retry st :
  Chatbot.isSubmitting st = false ->
  Chatbot.effects (Chatbot.handleDataSubmission st st)
  = Chatbot.effects st
    ++ [Chatbot.GenerateContent "gemini-3-flash-preview"
          (Chatbot.extractionPrompt st)].
Proof.
  intros Hi. unfold Chatbot.handleDataSubmission. rewrite Hi. reflexivity.
Qed.

Lemma voice_refusal st i webhookRes :
  nth_error (Chatbot.pending st) i = Some AwaitFetch ->
  refused webhookRes = true ->
  let st' := Chatbot.fetchSettled i (Fulfilled webhookRes) st in
  exists message,
    Chatbot.error st' = Some message
    /\ JS.truthy message = true
    /\ Chatbot.showFeedback st' = Chatbot.showFeedback st
    /\ Chatbot.isSubmitting st' = false
    /\ Chatbot.isSubmittingRef st' = false
    /\ Chatbot.pending st' = remove_nth i (Chatbot.pending st)
    /\ Chatbot.effects (Chatbot.handleDataSubmission st' st')
       = Chatbot.effects st'
         ++ [Chatbot.GenerateContent "gemini-3-flash-preview"
               (Chatbot.extractionPrompt st')].
Proof.
  intros Hp Hr st'.
  assert (E : exists thrown,
    st' = Chatbot.submissionFailed (Some thrown)
            (Chatbot.set_pending (remove_nth i (Chatbot.pending st)) st)).
  { subst st'. unfold Chatbot.fetchSettled. rewrite Hp.
    unfold refused in Hr. cbv zeta. rewrite Hr. eexists. reflexivity. }
  destruct E as (thrown & E). clearbody st'. subst st'.
  destruct (voice_failed (Some thrown)
              (Chatbot.set_pending (remove_nth i (Chatbot.pending st)) st))
    as (He & _ & Hi & Hf & Hs & Hpend & _).
  exists (JS.or_else (Some thrown) "Quote submission failed. Check console.").
  split; [exact He|].
  split; [apply or_else_truthy; reflexivity|].
  split; [exact Hs|]. split; [exact Hi|]. split; [exact Hf|].
  split; [exact Hpend|].
  apply voice_retry. exact Hi.
Qed.

(** A submit invoked while a submission is in flight does nothing in the
    text widget, whose guard is the ref [isSubmittingRef], tested and set
    on entry: the state and the calls made are those without it, and a
    whole submission, with a second invocation right after the first and
    another one after the extraction has answered, makes exactly one
    extraction request and one relay POST.  The same holds in the voice
    widget for the handler of a render that has seen [isSubmitting] set by
    the first invocation. *)
Lemma submit_in_flight_is_noop_once_rendered :
  (forall st, ChatbotText.isSubmittingRef st = true ->
              ChatbotText.handleDataSubmission st = st)
  /\ (forall st, ChatbotText.isSubmittingRef st = false ->
        ChatbotText.isSubmittingRef (ChatbotText.handleDataSubmission st) = true)
  /\ (forall st between,
        textIdle st ->
        let s1 := trun st (Submit :: between) in
        ChatbotText.pending s1 <> [] ->
        tstep s1 Submit = s1
        /\ forall after,
             trun st (Submit :: between ++ Submit :: after)
             = trun st (Submit :: between ++ after))
  /\ (forall st text data r,
        textIdle st -> JSON_parse text = inl data ->
        ChatbotText.effects
          (trun st [Submit; Submit;
                    GenerateContentSettled 0 (Fulfilled (Some text));
                    Submit; FetchSettled 0 r])
        = ChatbotText.effects st
          ++ [ChatbotText.GenerateContent "gemini-2.5-flash"
                (ChatbotText.extractionPrompt st);
              ChatbotText.Fetch "/api/submit-quote" "POST" (JSON_stringify data)])
  /\ (forall rendered st, Chatbot.isSubmitting rendered = true ->
                          Chatbot.handleDataSubmission rendered st = st)
  /\ (forall rendered st, Chatbot.isSubmitting rendered = false ->
        Chatbot.isSubmitting (Chatbot.handleDataSubmission rendered st) = true)
  /\ (forall st between,
        idle st ->
        let s1 := vrun st (Submit :: between) in
        Chatbot.pending s1 <> [] ->
        vstep s1 Submit = s1
        /\ forall after,
             vrun st (Submit :: between ++ Submit :: after)
             = vrun st (Submit :: between ++ after))
  /\ (forall st text data r,
        idle st -> JSON_parse text = inl data ->
        requests
          (Chatbot.effects
             (vrun st [Submit; Submit;
                       GenerateContentSettled 0 (Fulfilled (Some text));
                       Submit; FetchSettled 0 r]))
        = requests (Chatbot.effects st)
          ++ [Chatbot.GenerateContent "gemini-3-flash-preview"
                (Chatbot.extractionPrompt st);
              Chatbot.Fetch "/api/submit-quote" "POST" (JSON_stringify data)]).
Proof.
  split; [exact text_guard_noop|]. split.
  { intros st H. unfold ChatbotText.handleDataSubmission. now rewrite H. }
  split.
  { intros st between Hidle s1 Hp.
    assert (HG : textGuarded s1)
      by (apply text_run_guarded, text_idle_guarded, Hidle).
    pose proof (text_in_flight_noop s1 HG Hp) as Hnoop.
    split; [exact Hnoop|]. intros after.
    rewrite !app_comm_cons, !text_run_app. fold s1.
    change (trun s1 (Submit :: after)) with (trun (tstep s1 Submit) after).
    now rewrite Hnoop. }
  split; [exact text_single_submission|].
  split; [exact voice_guard_noop|]. split.
  { intros rendered st H. unfold Chatbot.handleDataSubmission. now rewrite H. }
  split; [|exact voice_single_submission].
  intros st between Hidle s1 Hp.
  assert (HG : guarded s1)
    by (apply voice_run_guarded, voice_idle_guarded, Hidle).
  pose proof (voice_in_flight_noop s1 HG Hp) as Hnoop.
  split; [exact Hnoop|]. intros after.
  rewrite !app_comm_cons, !voice_run_app. fold s1.
  change (vrun s1 (Submit :: after)) with (vrun (vstep s1 Submit) after).
  now rewrite Hnoop.
Qed.

(** When the relay answers with a refusal (an HTTP status that is not a
    success or a body without a truthy [ok], as [{ok: false, status:
    502}]), the submission of either widget records a non-empty error
    message, leaves [showFeedback] as it was, and clears its guard, so that
    a new invocation issues a new extraction request.  In the text widget
    the message is the one shown by the error panel and the feedback
    prompt is not rendered; for the answer 502 of the relay the message is
    ["Webhook failed (502)."]. *)
Lemma relay_refusal_is_recorded :
  (forall st i webhookRes,
     nth_error (ChatbotText.pending st) i = Some AwaitFetch ->
     refused webhookRes = true ->
     let st' := ChatbotText.fetchSettled i (Fulfilled webhookRes) st in
     exists message,
       ChatbotText.error st' = Some message
       /\ JS.truthy message = true
       /\ ChatbotText.errorPanel st' = Some message
       /\ ChatbotText.showFeedback st' = ChatbotText.showFeedback st
       /\ ChatbotText.feedbackPrompt st' = false
       /\ ChatbotText.isSubmitting st' = false
       /\ ChatbotText.isSubmittingRef st' = false
       /\ ChatbotText.pending st' = remove_nth i (ChatbotText.pending st)
       /\ ChatbotText.effects st' = ChatbotText.effects st
       /\ ChatbotText.effects (ChatbotText.handleDataSubmission st')
          = ChatbotText.effects st'
            ++ [ChatbotText.GenerateContent "gemini-2.5-flash"
                  (ChatbotText.extractionPrompt st')])
  /\ (forall st i webhookRes,
        nth_error (Chatbot.pending st) i = Some AwaitFetch ->
        refused webhookRes = true ->
        let st' := Chatbot.fetchSettled i (Fulfilled webhookRes) st in
        exists message,
          Chatbot.error st' = Some message
          /\ JS.truthy message = true
          /\ Chatbot.showFeedback st' = Chatbot.showFeedback st
          /\ Chatbot.isSubmitting st' = false
          /\ Chatbot.isSubmittingRef st' = false
          /\ Chatbot.pending st' = remove_nth i (Chatbot.pending st)
          /\ Chatbot.effects (Chatbot.handleDataSubmission st' st')
             = Chatbot.effects st'
               ++ [Chatbot.GenerateContent "gemini-3-flash-preview"
                     (Chatbot.extractionPrompt st')])
  /\ (forall st i,
        nth_error (ChatbotText.pending st) i = Some AwaitFetch ->
        ChatbotText.error
          (ChatbotText.fetchSettled i (Fulfilled badGateway) st)
        = Some "Webhook failed (502).")
  /\ (forall st i,
        nth_error (Chatbot.pending st) i = Some AwaitFetch ->
        Chatbot.error
          (Chatbot.fetchSettled i (Fulfilled badGateway) st)
        = Some "Webhook failed (502).").
Proof.
  split; [exact text_refusal|]. split; [exact voice_refusal|]. split.
  - intros st i Hp. unfold ChatbotText.fetchSettled. rewrite Hp. reflexivity.
  - intros st i Hp.
    replace (Chatbot.fetchSettled i (Fulfilled badGateway) st)
      with (Chatbot.submissionFailed (Some "Webhook failed (502).")
              (Chatbot.set_pending (remove_nth i (Chatbot.pending st)) st))
      by (unfold Chatbot.fetchSettled; rewrite Hp; reflexivity).
    now destruct (voice_failed (Some "Webhook failed (502).")
                    (Chatbot.set_pending (remove_nth i (Chatbot.pending st)) st))
      as (-> & _).
Qed.

(** After a submission of the voice widget has failed, the status is
    [IDLE], put there by [stopSession] in the [finally] block after the
    [catch] block had put [ERROR]; the error panel, rendered under
    [status === ChatStatus.ERROR] only, is not shown. *)
Lemma voice_failed_submission_ends_idle message st :
  Chatbot.status (Chatbot.submissionFailed message st) = IDLE
  /\ Chatbot.errorPanel (Chatbot.submissionFailed message st) = None.
Proof.
  destruct (voice_failed message st) as (_ & Hs & _).
  set (st' := Chatbot.submissionFailed message st) in *. clearbody st'.
  unfold Chatbot.errorPanel. rewrite Hs. split; reflexivity.
Qed.

End Submission.

(** C5.  In the voice widget the guard does not stop a second invocation
    made before the first one is rendered.  The handler tests the state
    [isSubmitting] that its render captured, and [setIsSubmitting(true)]
    does not change it: two invocations of the handler of one render, the
    submit button being shown, both pass the test, and two extraction
    requests and then two relay calls are made.  The handler of the next
    render does nothing, and so does the second invocation in the text
    widget, which tests and sets the ref [isSubmittingRef]. *)
Theorem double_submit_issues_two_requests :
  let rendered := Notions.concluded in
  let once := Chatbot.handleDataSubmission rendered rendered in
  let twice := Chatbot.handleDataSubmission rendered once in
  let settled :=
    Chatbot.run string Notions.parseAny Notions.printAny twice
      [GenerateContentSettled 0 (Fulfilled (Some "{}"));
       GenerateContentSettled 1 (Fulfilled (Some "{}"));
       FetchSettled 0 (Fulfilled Notions.accepted);
       FetchSettled 0 (Fulfilled Notions.accepted)] in
  let extraction :=
    Chatbot.GenerateContent "gemini-3-flash-preview"
      (Chatbot.extractionPrompt rendered) in
  let textOnce := ChatbotText.handleDataSubmission Notions.textConcluded in
  Chatbot.showSubmitButton rendered = true
  /\ Chatbot.isSubmitting rendered = false
  /\ Chatbot.isSubmitting once = true
  /\ Chatbot.pending twice = [AwaitGenerateContent; AwaitGenerateContent]
  /\ Notions.requests (Chatbot.effects twice) = [extraction; extraction]
  /\ Notions.requests (Chatbot.effects settled)
     = [extraction; extraction;
        Chatbot.Fetch "/api/submit-quote" "POST" "{}";
        Chatbot.Fetch "/api/submit-quote" "POST" "{}"]
  /\ Chatbot.handleDataSubmission once once = once
  /\ ChatbotText.showSubmit Notions.textConcluded = true
  /\ ChatbotText.handleDataSubmission textOnce = textOnce
  /\ Notions.textRequests (ChatbotText.effects textOnce)
     = [ChatbotText.GenerateContent "gemini-2.5-flash"
          (ChatbotText.extractionPrompt Notions.textConcluded)].
Proof.
  cbv zeta. repeat split; vm_compute; reflexivity.
Qed.

(** In the text widget the guard is cleared by [resetChat]: when the chat
    is closed while a submission is waiting, and a new conversation
    reaches its end before the first submission settles, a second
    submission is started beside the first. *)
Lemma close_clears_the_guard_in_flight :
  let conversation :=
    [TextSession.Open; TextSession.Change "Life insurance"; TextSession.Send;
     TextSession.Reply (Fulfilled (Some "Your name is Jane Doe. Is that correct?"));
     TextSession.Change "yes"; TextSession.Send;
     TextSession.Submission Submit] in
  let st :=
    TextSession.session Notions.configured string Notions.parseAny
      Notions.printAny Notions.textMounted
      (conversation ++ [TextSession.Close] ++ conversation) in
  ChatbotText.pending st = [AwaitGenerateContent; AwaitGenerateContent]
  /\ List.length (Notions.textRequests (ChatbotText.effects st)) = 2%nat.
Proof.
  cbv zeta. split; vm_compute; reflexivity.
Qed.

(** C6.  In the voice widget the refusal of the relay is not shown.  The
    [catch] block records the message and puts the status to [ERROR], and
    then the [finally] block calls [stopSession], which puts the status to
    [IDLE]; the error panel is rendered under [status === ERROR] only.
    After the answer 502 the message is recorded, but the panel is not
    rendered; the feedback prompt is not shown, the guard is clear and the
    submit button is shown again, the session having been torn down.  The
    text widget, whose panel is rendered whenever [error] is set, shows
    the message. *)
Theorem refused_quote_is_not_shown_by_the_voice_widget :
  let submission :=
    [Submit; GenerateContentSettled 0 (Fulfilled (Some "{}"));
     FetchSettled 0 (Fulfilled Notions.badGateway)] in
  let failed :=
    Chatbot.run string Notions.parseAny Notions.printAny Notions.concluded
      submission in
  let textFailed :=
    ChatbotText.run string Notions.parseAny Notions.printAny
      Notions.textConcluded submission in
  Notions.refused Notions.badGateway = true
  /\ Chatbot.error failed = Some "Webhook failed (502)."
  /\ Chatbot.status failed = IDLE
  /\ Chatbot.errorPanel failed = None
  /\ Chatbot.showFeedback failed = false
  /\ Chatbot.feedbackPrompt failed = false
  /\ Chatbot.isSubmitting failed = false
  /\ Chatbot.showSubmitButton failed = true
  /\ Chatbot.sessionPromiseRef failed = None
  /\ ChatbotText.error textFailed = Some "Webhook failed (502)."
  /\ ChatbotText.errorPanel textFailed = Some "Webhook failed (502)."
  /\ ChatbotText.feedbackPrompt textFailed = false
  /\ ChatbotText.isSubmittingRef textFailed = false.
Proof.
  cbv zeta. repeat split; vm_compute; reflexivity.
Qed.

(** ** The text chat *)

Section TextChat.

Import Notions.

Variable apiKey : string.

Local Open Scope nat_scope.

Lemma trimStart_blank s : blank s = true -> JS.trimStart s = "".
Proof.
  induction s as [|c s IH]; simpl; [reflexivity|].
  destruct (JS.isWhiteSpace c); simpl; [exact IH|discriminate].
Qed.

Lemma trimEnd_empty s : JS.trimEnd s = "" -> blank s = true.
Proof.
  induction s as [|c s IH]; simpl; [reflexivity|].
  destruct (JS.trimEnd s); [|discriminate].
  destruct (JS.isWhiteSpace c); [intros _; now apply IH|discriminate].
Qed.

Lemma blank_trimStart s : blank (JS.trimStart s) = true -> blank s = true.
Proof.
  induction s as [|c s IH]; simpl; [reflexivity|].
  destruct (JS.isWhiteSpace c) eqn:E; simpl; [exact IH|now rewrite E].
Qed.

(** The strings that [trim] empties are the blank ones. *)
Lemma trim_empty_iff s : JS.trim s = "" <-> blank s = true.
Proof.
  unfold JS.trim. split.
  - intros H. apply blank_trimStart, trimEnd_empty, H.
  - intros H. now rewrite (trimStart_blank s H).
Qed.

(** C10.  When the input is empty or white space only, or when a model
    request is in flight ([isLoading]), [sendMessage] returns at once: the
    component is as it was, so no entry is added to the transcript, the
    chat history is not touched, no request is issued and no activation is
    left suspended. *)
Theorem sendMessage_ignores_blank_or_busy st :
  blank (ChatbotText.inputValue st) = true \/ ChatbotText.isLoading st = true ->
  let st' := ChatbotText.sendMessage apiKey st in
  st' = st
  /\ ChatbotText.transcription st' = ChatbotText.transcription st
  /\ ChatbotText.chatHistoryRef st' = ChatbotText.chatHistoryRef st
  /\ ChatbotText.effects st' = ChatbotText.effects st
  /\ ChatbotText.awaitingReply st' = ChatbotText.awaitingReply st.
Proof.
  intros H st'.
  assert (E : st' = st).
  { subst st'. unfold ChatbotText.sendMessage. cbv zeta.
    destruct H as [H|H].
    - apply trim_empty_iff in H. rewrite H. reflexivity.
    - rewrite H. now rewrite orb_true_r. }
  rewrite E. repeat split; reflexivity.
Qed.

Lemma closing_has_thanks :
  JS.includes ChatbotText.closingMessage ChatbotText.closingText = true.
Proof. vm_compute. reflexivity. Qed.

Lemma confirmation_is_not_empty text :
  ChatbotText.isConfirmationAnswer text = true -> JS.truthy text = true.
Proof. destruct text; [discriminate|reflexivity]. Qed.

(** C9.  When the last message of the bot contains ["Is that correct?"]
    and the trimmed input is a confirming answer (["yes"] is one), and no
    model request is in flight, [sendMessage] appends the answer of the user
    and then the fixed closing line, which contains ["Thank you for using
    the JHN Finance AI Agent!"], as a bot entry, records both in the chat
    history, and issues no model request.  The transcript then has at
    least two entries and a bot entry with the closing text, so the submit
    action is shown unless feedback is shown or a submission is in
    flight. *)
Theorem confirmation_closes_the_chat st :
  ChatbotText.isLoading st = false ->
  JS.includes (ChatbotText.lastBotMessage st) "Is that correct?" = true ->
  ChatbotText.isConfirmationAnswer (JS.trim (ChatbotText.inputValue st)) = true ->
  let answer := JS.trim (ChatbotText.inputValue st) in
  let st' := ChatbotText.sendMessage apiKey st in
  ChatbotText.transcription st'
    = ChatbotText.transcription st
      ++ [mkEntry user answer true; mkEntry bot ChatbotText.closingMessage true]
  /\ JS.includes ChatbotText.closingMessage
       "Thank you for using the JHN Finance AI Agent!" = true
  /\ ChatbotText.chatHistoryRef st'
     = ChatbotText.chatHistoryRef st
       ++ [ChatbotText.mkTurn ChatbotText.role_user [answer];
           ChatbotText.mkTurn ChatbotText.role_model [ChatbotText.closingMessage]]
  /\ ChatbotText.effects st' = ChatbotText.effects st
  /\ ChatbotText.awaitingReply st' = ChatbotText.awaitingReply st
  /\ ChatbotText.isLoading st' = false
  /\ 2 <= List.length (ChatbotText.transcription st')
  /\ ChatbotText.botSaidThankYou st' = true
  /\ ChatbotText.showSubmit st'
     = negb (ChatbotText.showFeedback st) && negb (ChatbotText.isSubmitting st)
  /\ ChatbotText.isConfirmationAnswer "yes" = true.
Proof.
  intros Hload Hlast Hconf answer st'.
  assert (E : st' =
    ChatbotText.pushHistory
      (ChatbotText.mkTurn ChatbotText.role_model [ChatbotText.closingMessage])
      (ChatbotText.setTranscription
         (fun prev => prev ++ [mkEntry bot ChatbotText.closingMessage true])
         (ChatbotText.pushHistory (ChatbotText.mkTurn ChatbotText.role_user [answer])
            (ChatbotText.setTranscription (fun prev => prev ++ [mkEntry user answer true])
               (ChatbotText.setError None (ChatbotText.setInputValue "" st)))))).
  { subst st'. unfold ChatbotText.sendMessage. cbv zeta. fold answer.
    rewrite (confirmation_is_not_empty answer Hconf), Hload.
    cbn [negb orb]. rewrite Hlast. fold answer in Hconf. rewrite Hconf.
    reflexivity. }
  clearbody st'. subst st'.
  assert (Htr : ChatbotText.transcription
      (ChatbotText.pushHistory
         (ChatbotText.mkTurn ChatbotText.role_model [ChatbotText.closingMessage])
         (ChatbotText.setTranscription
            (fun prev => prev ++ [mkEntry bot ChatbotText.closingMessage true])
            (ChatbotText.pushHistory (ChatbotText.mkTurn ChatbotText.role_user [answer])
               (ChatbotText.setTranscription
                  (fun prev => prev ++ [mkEntry user answer true])
                  (ChatbotText.setError None (ChatbotText.setInputValue "" st))))))
    = ChatbotText.transcription st
      ++ [mkEntry user answer true; mkEntry bot ChatbotText.closingMessage true]).
  { cbn [ChatbotText.transcription ChatbotText.pushHistory
         ChatbotText.set_chatHistoryRef ChatbotText.setTranscription
         ChatbotText.setError ChatbotText.setInputValue].
    now rewrite <- app_assoc. }
  assert (Hthanks : ChatbotText.botSaidThankYou
      (ChatbotText.pushHistory
         (ChatbotText.mkTurn ChatbotText.role_model [ChatbotText.closingMessage])
         (ChatbotText.setTranscription
            (fun prev => prev ++ [mkEntry bot ChatbotText.closingMessage true])
            (ChatbotText.pushHistory (ChatbotText.mkTurn ChatbotText.role_user [answer])
               (ChatbotText.setTranscription
                  (fun prev => prev ++ [mkEntry user answer true])
                  (ChatbotText.setError None (ChatbotText.setInputValue "" st))))))
    = true).
  { unfold ChatbotText.botSaidThankYou. rewrite Htr, existsb_app.
    cbn [existsb speaker text Speaker_eqb andb].
    rewrite closing_has_thanks. cbn [orb]. apply orb_true_r. }
  split; [exact Htr|]. split; [exact closing_has_thanks|]. split.
  { cbn [ChatbotText.chatHistoryRef ChatbotText.pushHistory
         ChatbotText.set_chatHistoryRef ChatbotText.setTranscription
         ChatbotText.setError ChatbotText.setInputValue].
    now rewrite <- app_assoc. }
  split; [reflexivity|]. split; [reflexivity|]. split; [exact Hload|].
  assert (Hlen : 2 <= List.length
      (ChatbotText.transcription st
       ++ [mkEntry user answer true; mkEntry bot ChatbotText.closingMessage true])).
  { rewrite length_app. cbn [List.length]. lia. }
  split; [rewrite Htr; exact Hlen|]. split; [exact Hthanks|]. split.
  - unfold ChatbotText.showSubmit. rewrite Hthanks, Htr.
    apply Nat.leb_le in Hlen. rewrite Hlen. reflexivity.
  - vm_compute. reflexivity.
Qed.

End TextChat.

Lemma sendMessage_ignores_blank_or_busy_witness :
  Notions.blank "   " = true
  /\ ChatbotText.sendMessage "key"
       (ChatbotText.setInputValue "   " Notions.confirming)
     = ChatbotText.setInputValue "   " Notions.confirming.
Proof.
  split; [reflexivity|].
  apply (sendMessage_ignores_blank_or_busy "key"
           (ChatbotText.setInputValue "   " Notions.confirming)).
  left. reflexivity.
Defined.

Lemma confirmation_closes_the_chat_witness :
  JS.includes (ChatbotText.lastBotMessage Notions.confirming) "Is that correct?" = true
  /\ ChatbotText.isConfirmationAnswer
       (JS.trim (ChatbotText.inputValue Notions.confirming)) = true
  /\ ChatbotText.showSubmit (ChatbotText.sendMessage "key" Notions.confirming) = true.
Proof.
  assert (H1 : JS.includes (ChatbotText.lastBotMessage Notions.confirming)
                 "Is that correct?" = true) by (vm_compute; reflexivity).
  assert (H2 : ChatbotText.isConfirmationAnswer
                 (JS.trim (ChatbotText.inputValue Notions.confirming)) = true)
    by (vm_compute; reflexivity).
  split; [exact H1|]. split; [exact H2|].
  destruct (confirmation_closes_the_chat "key" Notions.confirming eq_refl H1 H2)
    as (_ & _ & _ & _ & _ & _ & _ & _ & Hshow & _).
  exact Hshow.
Defined.


(** ** The life of a voice session *)

Section Lifecycle.

Import Chatbot Notions.

Local Open Scope nat_scope.

Lemma cleanup_keeps st :
  let st' := cleanup st in
  feedbackSubmitted st' = feedbackSubmitted st
  /\ currentInputTranscriptionRef st' = currentInputTranscriptionRef st
  /\ currentOutputTranscriptionRef st' = currentOutputTranscriptionRef st
  /\ allocated st' = allocated st.
Proof.
  unfold cleanup, stopAudioPlayback.
  destruct st as [? ? ? ? ? ? sp ic oc ms pr ? srcs ? ? ? ? ? ?]. simpl.
  destruct oc, ms, pr, sp; simpl; repeat split; reflexivity.
Qed.

Lemma cleanup_released st :
  released st -> isSubmittingRef st = false -> cleanup st = st.
Proof.
  unfold released, cleanup, stopAudioPlayback.
  destruct st as [? ? ? ? ? ? sp ic oc ms pr ? srcs ? ? ? ? ? eff]. simpl.
  intros (-> & -> & -> & -> & ->) ->. simpl.
  unfold set_isSubmittingRef, set_outputAudioContextRef, set_inputAudioContextRef,
    perform. simpl. now rewrite !app_nil_r.
Qed.

Lemma setStatus_same v st : status st = v -> setStatus v st = st.
Proof. destruct st. simpl. now intros ->. Qed.

(** Facts about [resetChat], read off [cleanup]. *)
Lemma resetChat_frame st :
  let st' := resetChat st in
  status st' = IDLE
  /\ transcription st' = []
  /\ error st' = None
  /\ showFeedback st' = false
  /\ feedbackSubmitted st' = false
  /\ isSubmitting st' = false
  /\ isSubmittingRef st' = false
  /\ released st'
  /\ pending st' = pending st
  /\ currentInputTranscriptionRef st' = currentInputTranscriptionRef st
  /\ currentOutputTranscriptionRef st' = currentOutputTranscriptionRef st
  /\ effects st' = effects st ++ teardownCalls st.
Proof.
  unfold resetChat. cbv zeta.
  match goal with |- context [cleanup ?X] =>
    destruct (cleanup_frame X) as (Hs & He & Ht & Hf & Hi & Hp & Hr & Hg & _);
    destruct (cleanup_keeps X) as (Hfs & Hci & Hco & _);
    pose proof (cleanup_effects X) as Heff;
    set (st' := cleanup X) in *
  end.
  clearbody st'.
  rewrite Hs, He, Ht, Hf, Hi, Hp, Hg, Hfs, Hci, Hco, Heff.
  destruct Hr as (? & ? & ? & ? & ?).
  repeat split; try reflexivity; assumption.
Qed.

(** X1.  [getApiKey] gives the first variable that holds a non-empty
    string, in the order [VITE_GEMINI_API_KEY], [GOOGLE_GEMINI_API_KEY],
    [API_KEY], [GEMINI_API_KEY]; it gives the empty string exactly when none
    of the four does. *)
Theorem getApiKey_first_set_variable env :
  JS.truthy (getApiKey env)
  = isSet (VITE_GEMINI_API_KEY env) || isSet (GOOGLE_GEMINI_API_KEY env)
    || isSet (API_KEY env) || isSet (GEMINI_API_KEY env)
  /\ (forall k, VITE_GEMINI_API_KEY env = Some k -> JS.truthy k = true ->
                getApiKey env = k)
  /\ (forall k, isSet (VITE_GEMINI_API_KEY env) = false ->
                GOOGLE_GEMINI_API_KEY env = Some k -> JS.truthy k = true ->
                getApiKey env = k)
  /\ (forall k, isSet (VITE_GEMINI_API_KEY env) = false ->
                isSet (GOOGLE_GEMINI_API_KEY env) = false ->
                API_KEY env = Some k -> JS.truthy k = true ->
                getApiKey env = k)
  /\ (forall k, isSet (VITE_GEMINI_API_KEY env) = false ->
                isSet (GOOGLE_GEMINI_API_KEY env) = false ->
                isSet (API_KEY env) = false ->
                GEMINI_API_KEY env = Some k -> JS.truthy k = true ->
                getApiKey env = k)
  /\ (JS.truthy (getApiKey env) = false -> getApiKey env = "").
Proof.
  destruct env as [v g a m]. unfold getApiKey, isSet, JS.or_else. simpl.
  repeat apply conj.
  - destruct v as [[|? ?]|], g as [[|? ?]|], a as [[|? ?]|], m as [[|? ?]|];
      reflexivity.
  - intros k -> Hk. now rewrite Hk.
  - intros k Hv -> Hk. rewrite Hk.
    destruct v as [s|]; [now rewrite Hv|reflexivity].
  - intros k Hv Hg -> Hk. rewrite Hk.
    destruct v as [s|]; rewrite ?Hv; destruct g as [s'|]; rewrite ?Hg; reflexivity.
  - intros k Hv Hg Ha -> Hk. rewrite Hk.
    destruct v as [s|]; rewrite ?Hv; destruct g as [s'|]; rewrite ?Hg;
      destruct a as [s''|]; rewrite ?Ha; reflexivity.
  - destruct v as [[|? ?]|], g as [[|? ?]|], a as [[|? ?]|], m as [[|? ?]|];
      simpl; intros H; try discriminate; reflexivity.
Qed.

(** X2.  [startSession] first resets the chat and tears down what the refs
    held.  Without a key it stops there with the status [ERROR] and the
    message about the key; with a key but outside a secure context it stops
    with [ERROR] and the message about HTTPS; otherwise it goes to
    [CONNECTING] with no error.  In all three cases the transcript is empty
    and no resource is held when it returns. *)
Theorem startSession_needs_key_and_https env isSecureContext st :
  let st' := startSession env isSecureContext st in
  transcription st' = []
  /\ released st'
  /\ showFeedback st' = false
  /\ isSubmitting st' = false
  /\ effects st' = effects st ++ teardownCalls st
  /\ (JS.truthy (getApiKey env) = false ->
      status st' = ERROR
      /\ error st' = Some "Connection setup is incomplete. Please ensure GOOGLE_GEMINI_API_KEY is set.")
  /\ (JS.truthy (getApiKey env) = true -> isSecureContext = false ->
      status st' = ERROR
      /\ error st' = Some "Microphone access requires a secure connection (HTTPS).")
  /\ (JS.truthy (getApiKey env) = true -> isSecureContext = true ->
      status st' = CONNECTING /\ error st' = None).
Proof.
  pose proof (resetChat_frame st) as H. cbv zeta in H.
  unfold startSession. cbv zeta.
  generalize dependent (resetChat st). intros r H.
  destruct H as (Hs & Ht & He & Hf & _ & Hi & _ & Hr & _ & _ & _ & Heff).
  destruct Hr as (? & ? & ? & ? & ?).
  destruct (JS.truthy (getApiKey env)); destruct isSecureContext;
    cbn [negb status error transcription showFeedback isSubmitting effects
         setStatus setError released microphoneStreamRef scriptProcessorRef
         inputAudioContextRef outputAudioContextRef sessionPromiseRef];
    unfold released;
    cbn [negb status error transcription showFeedback isSubmitting effects
         setStatus setError released microphoneStreamRef scriptProcessorRef
         inputAudioContextRef outputAudioContextRef sessionPromiseRef];
    repeat split; try assumption; try reflexivity;
    intros; try discriminate; try assumption; try reflexivity.
Qed.

Lemma startSession_connecting env st :
  JS.truthy (getApiKey env) = true ->
  status (startSession env true st) = CONNECTING
  /\ transcription (startSession env true st) = []
  /\ error (startSession env true st) = None.
Proof.
  intros Hkey.
  pose proof (resetChat_frame st) as H. cbv zeta in H.
  unfold startSession. cbv zeta. rewrite Hkey.
  generalize dependent (resetChat st). intros r H.
  destruct H as (_ & Ht & He & _).
  cbn [negb status transcription error setStatus]. repeat split; assumption.
Qed.

Lemma startSession_released env isSecureContext st :
  released (startSession env isSecureContext st).
Proof.
  pose proof (resetChat_frame st) as H. cbv zeta in H.
  unfold startSession. cbv zeta.
  generalize dependent (resetChat st). intros r H.
  destruct H as (_ & _ & _ & _ & _ & _ & _ & Hr & _).
  destruct (JS.truthy (getApiKey env)); destruct isSecureContext;
    cbn [negb]; exact Hr.
Qed.

(** An arbitrary state in which the microphone is granted and the session
    then opens. *)
Lemma grant_then_open stream inputCtx outputCtx session processor st :
  let st' := onopen processor
               (microphoneGranted stream inputCtx outputCtx session st) in
  status st' = LISTENING
  /\ isActive st' = true
  /\ microphoneStreamRef st' = Some stream
  /\ inputAudioContextRef st' = Some inputCtx
  /\ outputAudioContextRef st' = Some outputCtx
  /\ sessionPromiseRef st' = Some session
  /\ scriptProcessorRef st' = Some processor
  /\ nextAudioStartTimeRef st' = 0%Q
  /\ transcription st' = transcription st
  /\ error st' = error st
  /\ currentInputTranscriptionRef st' = currentInputTranscriptionRef st
  /\ effects st' = effects st
  /\ currentOutputTranscriptionRef st' = currentOutputTranscriptionRef st.
Proof. destruct st. cbv. repeat split; reflexivity. Qed.

(** X3.  With a key and a secure context, a session whose microphone is
    granted and whose connection opens is [LISTENING]: the stream, the two
    contexts, the session and the processor are held, the playback clock is
    zero, the transcript is empty and there is no error. *)
Theorem session_reaches_listening env st stream inputCtx outputCtx session processor :
  JS.truthy (getApiKey env) = true ->
  let st' := onopen processor
               (microphoneGranted stream inputCtx outputCtx session
                  (startSession env true st)) in
  status st' = LISTENING
  /\ isActive st' = true
  /\ microphoneStreamRef st' = Some stream
  /\ inputAudioContextRef st' = Some inputCtx
  /\ outputAudioContextRef st' = Some outputCtx
  /\ sessionPromiseRef st' = Some session
  /\ scriptProcessorRef st' = Some processor
  /\ nextAudioStartTimeRef st' = 0%Q
  /\ transcription st' = []
  /\ error st' = None.
Proof.
  intros Hkey.
  destruct (startSession_connecting env st Hkey) as (_ & Ht & He).
  destruct (grant_then_open stream inputCtx outputCtx session processor
              (startSession env true st))
    as (H1 & H2 & H3 & H4 & H5 & H6 & H7 & H8 & H9 & H10 & _).
  cbv zeta. rewrite H9, H10, Ht, He. repeat split; assumption.
Qed.

Lemma stopSession_frame st :
  status (stopSession st) = IDLE
  /\ released (stopSession st)
  /\ isSubmittingRef (stopSession st) = false
  /\ error (stopSession st) = error st
  /\ transcription (stopSession st) = transcription st.
Proof.
  unfold stopSession.
  destruct (cleanup_frame (setStatus IDLE st))
    as (Hs & He & Ht & _ & _ & _ & Hr & Hg & _).
  repeat split; try assumption; apply Hr.
Qed.

(** X4.  Stopping does not cancel a start that is waiting for the
    microphone: when [stopSession] runs between [startSession] and the
    grant, the status is [IDLE] for the time being, but the resumption still
    keeps the stream, creates the contexts and connects, and [onopen] then
    puts the status to [LISTENING]. *)
Theorem late_grant_still_opens_the_session
    env st stream inputCtx outputCtx session processor :
  JS.truthy (getApiKey env) = true ->
  let stopped := stopSession (startSession env true st) in
  let st' := onopen processor
               (microphoneGranted stream inputCtx outputCtx session stopped) in
  status (startSession env true st) = CONNECTING
  /\ status stopped = IDLE
  /\ released stopped
  /\ status st' = LISTENING
  /\ isActive st' = true
  /\ microphoneStreamRef st' = Some stream
  /\ outputAudioContextRef st' = Some outputCtx
  /\ sessionPromiseRef st' = Some session
  /\ scriptProcessorRef st' = Some processor.
Proof.
  intros Hkey stopped st'.
  destruct (startSession_connecting env st Hkey) as (Hc & _).
  destruct (stopSession_frame (startSession env true st)) as (Hs & Hr & _).
  destruct (grant_then_open stream inputCtx outputCtx session processor stopped)
    as (H1 & H2 & H3 & _ & H5 & H6 & H7 & _).
  fold stopped in Hs, Hr. fold st' in H1, H2, H3, H5, H6, H7.
  repeat (split; [assumption|]). assumption.
Qed.

Lemma onopen_released processor st : released st -> onopen processor st = st.
Proof.
  intros (Hm & _ & Hi & _). unfold onopen. rewrite Hi.
  reflexivity.
Qed.

Lemma startupFailed_frame message st :
  status (startupFailed message st) = ERROR
  /\ error (startupFailed message st) = Some (JS.or_else message "Connection failed.")
  /\ released (startupFailed message st)
  /\ isSubmittingRef (startupFailed message st) = false
  /\ transcription (startupFailed message st) = transcription st.
Proof.
  unfold startupFailed. cbv zeta.
  match goal with |- context [cleanup ?X] =>
    destruct (cleanup_frame X) as (Hs & He & Ht & _ & _ & _ & Hr & Hg & _)
  end.
  repeat split; try assumption; apply Hr.
Qed.

Lemma onerror_frame st :
  status (onerror st) = ERROR
  /\ error (onerror st)
     = Some "We encountered a problem connecting. Please check your API key."
  /\ released (onerror st)
  /\ isSubmittingRef (onerror st) = false
  /\ transcription (onerror st) = transcription st.
Proof.
  unfold onerror. cbv zeta.
  match goal with |- context [cleanup ?X] =>
    destruct (cleanup_frame X) as (Hs & He & Ht & _ & _ & _ & Hr & Hg & _)
  end.
  repeat split; try assumption; apply Hr.
Qed.

(** X5.  An [onopen] that arrives once the session has been torn down, by
    [stopSession], by the remote close, by a session error or by a failed
    start, does nothing: the status is not put to [LISTENING] and no
    processor is created.  The same holds when [startSession] has not got
    the microphone yet. *)
Theorem onopen_after_teardown_is_ignored processor st :
  onopen processor (stopSession st) = stopSession st
  /\ onopen processor (onclose st) = onclose st
  /\ onopen processor (onerror st) = onerror st
  /\ (forall message,
        onopen processor (startupFailed message st) = startupFailed message st)
  /\ (forall env isSecureContext,
        onopen processor (startSession env isSecureContext st)
        = startSession env isSecureContext st).
Proof.
  repeat apply conj.
  - apply onopen_released. apply stopSession_frame.
  - apply onopen_released. unfold onclose.
    now destruct (cleanup_frame st) as (_ & _ & _ & _ & _ & _ & Hr & _).
  - apply onopen_released. apply onerror_frame.
  - intros message. apply onopen_released. apply startupFailed_frame.
  - intros env isSecureContext. apply onopen_released.
    apply startSession_released.
Qed.

(** X6.  [stopSession] and [cleanup] are idempotent: a second call leaves
    the component exactly as the first one did, and so makes no further call
    on a track, a node, a context or the session. *)
Theorem stopSession_idempotent st :
  stopSession (stopSession st) = stopSession st
  /\ cleanup (cleanup st) = cleanup st
  /\ effects (stopSession (stopSession st)) = effects (stopSession st).
Proof.
  destruct (stopSession_frame st) as (Hs & Hr & Hg & _).
  assert (H1 : stopSession (stopSession st) = stopSession st).
  { unfold stopSession at 1. rewrite (setStatus_same _ _ Hs).
    now apply cleanup_released. }
  assert (H2 : cleanup (cleanup st) = cleanup st).
  { destruct (cleanup_frame st) as (_ & _ & _ & _ & _ & _ & Hr' & Hg' & _).
    now apply cleanup_released. }
  split; [exact H1|]. split; [exact H2|]. now rewrite H1.
Qed.

(** X7.  A session error leaves the status [ERROR] with its message and
    nothing held; the remote close that follows finds nothing to release:
    it makes no call and changes nothing, so the error and its panel stay. *)
Theorem close_after_error_changes_nothing st :
  onclose (onerror st) = onerror st
  /\ status (onclose (onerror st)) = ERROR
  /\ error (onclose (onerror st))
     = Some "We encountered a problem connecting. Please check your API key."
  /\ errorPanel (onclose (onerror st))
     = Some (Some "We encountered a problem connecting. Please check your API key.")
  /\ released (onclose (onerror st))
  /\ transcription (onclose (onerror st)) = transcription st.
Proof.
  destruct (onerror_frame st) as (Hs & He & Hr & Hg & Ht).
  assert (E : onclose (onerror st) = onerror st)
    by (unfold onclose; now apply cleanup_released).
  rewrite E. unfold errorPanel. rewrite Hs, He.
  repeat split; try assumption; apply Hr.
Qed.

Lemma onended_sources id st :
  audioSourcesRef (onended id st)
  = filter (fun s => negb (Nat.eqb (node s) id)) (audioSourcesRef st).
Proof.
  unfold onended. cbv zeta.
  cbn [audioSourcesRef set_audioSourcesRef].
  destruct (filter _ (audioSourcesRef st)); reflexivity.
Qed.

Lemma onended_frame id st :
  status (onended id st)
  = (match audioSourcesRef (onended id st) with
     | [] => LISTENING
     | _ :: _ => status st
     end)
  /\ error (onended id st) = error st
  /\ outputAudioContextRef (onended id st) = outputAudioContextRef st
  /\ microphoneStreamRef (onended id st) = microphoneStreamRef st
  /\ sessionPromiseRef (onended id st) = sessionPromiseRef st
  /\ effects (onended id st) = effects st.
Proof.
  rewrite onended_sources. unfold onended. cbv zeta.
  cbn [audioSourcesRef set_audioSourcesRef].
  destruct (filter _ (audioSourcesRef st)); repeat split; reflexivity.
Qed.

Lemma endAll_sources ids : forall st,
  audioSourcesRef (endAll ids st)
  = filter (fun s => negb (existsb (Nat.eqb (node s)) ids)) (audioSourcesRef st).
Proof.
  induction ids as [|id ids IH]; intros st.
  - simpl. induction (audioSourcesRef st) as [|s l IHl]; simpl; congruence.
  - unfold endAll in *. simpl. rewrite IH, onended_sources.
    induction (audioSourcesRef st) as [|s l IHl]; simpl; [reflexivity|].
    destruct (Nat.eqb (node s) id); simpl; [exact IHl|].
    destruct (existsb _ ids); simpl; [exact IHl|now rewrite IHl].
Qed.

Lemma endAll_snoc ids id st :
  endAll (ids ++ [id]) st = onended id (endAll ids st).
Proof. unfold endAll. now rewrite fold_left_app. Qed.

(** X8.  [ended] events may come in any order, repeat, or name a source
    that an interruption has already removed: each one takes its source out
    of the active set if it is there.  Once events have come for all the
    sources of the set, the set is empty and the status is [LISTENING]. *)
Theorem all_sources_ended_listening ids st :
  ids <> [] ->
  (forall s, In s (audioSourcesRef st) -> In (node s) ids) ->
  audioSourcesRef (endAll ids st) = []
  /\ status (endAll ids st) = LISTENING
  /\ effects (endAll ids st) = effects st
  /\ forall some, audioSourcesRef (endAll some st)
       = filter (fun s => negb (existsb (Nat.eqb (node s)) some))
                (audioSourcesRef st).
Proof.
  intros Hne Hall.
  assert (Hempty : audioSourcesRef (endAll ids st) = []).
  { rewrite endAll_sources. revert Hall.
    generalize (audioSourcesRef st). intros l.
    induction l as [|s l IHl]; intros Hall; [reflexivity|]. simpl.
    assert (Hs : existsb (Nat.eqb (node s)) ids = true).
    { apply existsb_exists. exists (node s). split.
      - apply Hall. now left.
      - apply Nat.eqb_refl. }
    rewrite Hs. simpl. apply IHl. intros s' Hin. apply Hall. now right. }
  split; [exact Hempty|]. split; [|split; [|intros some; apply endAll_sources]].
  - destruct (snoc_case ids) as [->|(ids0 & id & ->)]; [congruence|].
    rewrite endAll_snoc in *.
    destruct (onended_frame id (endAll ids0 st)) as (Hs & _).
    now rewrite Hs, Hempty.
  - clear Hne Hall Hempty. revert st.
    induction ids as [|id ids IH]; intros st; [reflexivity|].
    unfold endAll in *. simpl. rewrite IH.
    now destruct (onended_frame id st) as (_ & _ & _ & _ & _ & ->).
Qed.

(** X9.  An [ended] callback that runs after teardown finds the active set
    empty and puts the status to [LISTENING], whatever it was: after
    [stopSession] the component shows itself active again although nothing
    is held, and after a session error the status is no longer [ERROR], so
    the error panel is not rendered any more. *)
Theorem ended_after_teardown_sets_listening id st :
  sourcesNeedContext st ->
  status (onended id (stopSession st)) = LISTENING
  /\ isActive (onended id (stopSession st)) = true
  /\ microphoneStreamRef (onended id (stopSession st)) = None
  /\ sessionPromiseRef (onended id (stopSession st)) = None
  /\ status (onended id (onerror st)) = LISTENING
  /\ error (onended id (onerror st))
     = Some "We encountered a problem connecting. Please check your API key."
  /\ errorPanel (onended id (onerror st)) = None.
Proof.
  intros Hinv.
  assert (H1 : audioSourcesRef (stopSession st) = []).
  { unfold stopSession.
    exact (proj1 (cleanup_sourcesNeedContext (setStatus IDLE st) Hinv)). }
  assert (H2 : audioSourcesRef (onerror st) = []).
  { unfold onerror. cbv zeta.
    match goal with |- context [cleanup ?X] =>
      exact (proj1 (cleanup_sourcesNeedContext X Hinv)) end. }
  destruct (stopSession_frame st) as (_ & (Hm & _ & _ & _ & Hse) & _).
  destruct (onerror_frame st) as (_ & He & _).
  destruct (onended_frame id (stopSession st)) as (Hs1 & _ & _ & Hm1 & Hse1 & _).
  destruct (onended_frame id (onerror st)) as (Hs2 & He2 & _).
  rewrite onended_sources, H1 in Hs1. rewrite onended_sources, H2 in Hs2.
  cbn [filter] in Hs1, Hs2.
  unfold isActive, errorPanel. rewrite Hs1, Hs2, Hm1, Hse1, He2, Hm, Hse, He.
  repeat split; reflexivity.
Qed.

Lemma startSession_accumulators env isSecureContext st :
  currentInputTranscriptionRef (startSession env isSecureContext st)
  = currentInputTranscriptionRef st
  /\ currentOutputTranscriptionRef (startSession env isSecureContext st)
     = currentOutputTranscriptionRef st.
Proof.
  pose proof (resetChat_frame st) as H. cbv zeta in H.
  unfold startSession. cbv zeta.
  generalize dependent (resetChat st). intros r H.
  destruct H as (_ & _ & _ & _ & _ & _ & _ & _ & _ & Hi & Ho & _).
  destruct (JS.truthy (getApiKey env)); destruct isSecureContext;
    cbn [negb currentInputTranscriptionRef currentOutputTranscriptionRef
         setStatus setError]; split; assumption.
Qed.

(** X10.  Starting a session empties the transcript but not the two
    accumulators, which only a turn-complete message empties: text
    accumulated in a turn that the previous session did not complete comes
    back at the head of the first partial transcription of the new one. *)
Theorem accumulators_survive_restart
    (decode : string -> option (list Byte.byte))
    env st stream inputCtx outputCtx session processor t now :
  JS.truthy (getApiKey env) = true ->
  let started := onopen processor
                   (microphoneGranted stream inputCtx outputCtx session
                      (startSession env true st)) in
  transcription started = []
  /\ currentInputTranscriptionRef started = currentInputTranscriptionRef st
  /\ currentOutputTranscriptionRef started = currentOutputTranscriptionRef st
  /\ currentInputTranscriptionRef (resetChat st) = currentInputTranscriptionRef st
  /\ transcription (fst (onmessage decode (partialInput t) now started))
     = [mkEntry user (currentInputTranscriptionRef st ++ t) false]
  /\ transcription (fst (onmessage decode (partialOutput t) now started))
     = [mkEntry bot (currentOutputTranscriptionRef st ++ t) false].
Proof.
  intros Hkey started.
  destruct (startSession_connecting env st Hkey) as (_ & Ht & _).
  destruct (startSession_accumulators env true st) as (Hi & Ho).
  destruct (grant_then_open stream inputCtx outputCtx session processor
              (startSession env true st))
    as (_ & _ & _ & _ & _ & _ & _ & _ & Ht' & _ & Hi' & _ & Ho').
  fold started in Ht', Hi', Ho'.
  rewrite Ht in Ht'. rewrite Hi in Hi'. rewrite Ho in Ho'.
  destruct (resetChat_frame st) as (_ & _ & _ & _ & _ & _ & _ & _ & _ & Hri & _).
  split; [exact Ht'|]. split; [exact Hi'|]. split; [exact Ho'|].
  split; [exact Hri|].
  clearbody started.
  destruct (onmessage_transcript decode (partialInput t) now started) as (-> & _).
  destruct (onmessage_transcript decode (partialOutput t) now started) as (-> & _).
  unfold transcribed, onTurnComplete, onOutputTranscription,
    onInputTranscription, partialInput, partialOutput, render, JS.add.
  cbn [turnComplete inputTranscription outputTranscription transcription
       fst snd app fold_left applyUpdater
       setTranscription set_currentInputTranscriptionRef
       set_currentOutputTranscriptionRef currentInputTranscriptionRef
       currentOutputTranscriptionRef].
  rewrite Ht', Hi', Ho'. split; reflexivity.
Qed.

Lemma cleanup_feedbackSubmitted st :
  feedbackSubmitted (cleanup st) = feedbackSubmitted st.
Proof.
  unfold cleanup, stopAudioPlayback.
  destruct st as [? ? ? ? ? ? sp ic oc ms pr ? srcs ? ? ? ? ? ?]. simpl.
  destruct oc, ms, pr, sp; reflexivity.
Qed.

(** X12.  When the relay accepts the quote, the submission of the voice
    widget ends with the feedback block shown and the submit button gone:
    [showFeedback] is set, the guard is clear, the status is [IDLE], the
    session is torn down, and the error message and the transcript are
    untouched.  Nothing of the submission touches [feedbackSubmitted]: the
    block holds the rating prompt when no feedback was given before, and
    the thanks otherwise. *)
Theorem accepted_submission_shows_feedback st i webhookRes :
  nth_error (pending st) i = Some AwaitFetch ->
  refused webhookRes = false ->
  let st' := fetchSettled i (Fulfilled webhookRes) st in
  showFeedback st' = true
  /\ feedbackSubmitted st' = feedbackSubmitted st
  /\ feedbackPrompt st' = negb (feedbackSubmitted st)
  /\ showSubmitButton st' = false
  /\ isSubmitting st' = false
  /\ status st' = IDLE
  /\ released st'
  /\ error st' = error st
  /\ transcription st' = transcription st
  /\ pending st' = remove_nth i (pending st).
Proof.
  intros Hp Hr st'.
  assert (E : st' = submissionSucceeded
                      (set_pending (remove_nth i (pending st)) st)).
  { subst st'. unfold fetchSettled. rewrite Hp.
    unfold refused in Hr. cbv zeta. rewrite Hr. reflexivity. }
  clearbody st'. subst st'.
  unfold submissionSucceeded, stopSession. cbv zeta.
  match goal with |- context [cleanup ?X] =>
    destruct (cleanup_frame X) as (Hs & He & Ht & Hf & Hi & Hpe & Hrel & _);
    pose proof (cleanup_feedbackSubmitted X) as Hfs;
    generalize dependent (cleanup X)
  end.
  intros c Hs He Ht Hf Hi Hpe Hrel Hfs.
  cbn [status error transcription showFeedback isSubmitting pending
       feedbackSubmitted
       setStatus setShowFeedback setIsSubmitting set_pending] in *.
  unfold feedbackPrompt, showSubmitButton.
  rewrite Hs, Hf, Hi, He, Ht, Hpe, Hfs.
  cbn [negb andb]. rewrite andb_false_r.
  destruct Hrel as (? & ? & ? & ? & ?).
  repeat split; try reflexivity; assumption.
Qed.

End Lifecycle.

(** ** The bytes of an outbound frame *)

Section Frames.

Import Notions.

Lemma unsigned_byte_of_Z (z : Z) : unsigned (Chatbot.byte_of_Z z) = (z mod 256)%Z.
Proof.
  unfold unsigned, Chatbot.byte_of_Z.
  rewrite ascii_of_byte_of_ascii.
  pose proof (Z.mod_pos_bound z 256 ltac:(lia)) as Hb.
  rewrite N_ascii_embedding; [apply Z2N.id; lia|].
  apply N2Z.inj_lt. rewrite Z2N.id by lia. simpl. lia.
Qed.

Lemma littleEndian_int16_bytes (int16 : list Z) :
  littleEndian (Chatbot.int16_bytes int16) = map (fun z => (z mod 65536)%Z) int16.
Proof.
  induction int16 as [|z l IH]; [reflexivity|].
  unfold Chatbot.int16_bytes in *. cbn [flat_map app littleEndian map].
  rewrite IH, !unsigned_byte_of_Z. f_equal.
  change 65536%Z with (256 * 256)%Z.
  rewrite Z.rem_mul_r by lia. reflexivity.
Qed.

Lemma ToInt16_range (x : JS.Number) : (-32768 <= JS.ToInt16 x <= 32767)%Z.
Proof.
  destruct x as [q| |sign]; [|simpl; lia|simpl; lia].
  rewrite ToInt16_wrap. apply wrapInt16_range.
Qed.

(** X11.  The frame sent for a block of [l] samples has [2 l] bytes, two
    per sample with the low byte first, and loses nothing: reading the
    bytes back as 16-bit two's-complement words gives the quantized samples
    again. *)
Theorem frame_bytes_carry_the_samples (inputData : list JS.Number) :
  List.length (Chatbot.int16_bytes (Chatbot.quantize inputData))
  = (2 * List.length inputData)%nat
  /\ littleEndian (Chatbot.int16_bytes (Chatbot.quantize inputData))
     = map (fun z => (z mod 65536)%Z) (Chatbot.quantize inputData)
  /\ map JS.wrapInt16
       (littleEndian (Chatbot.int16_bytes (Chatbot.quantize inputData)))
     = Chatbot.quantize inputData.
Proof.
  split; [|split; [apply littleEndian_int16_bytes|]].
  - unfold Chatbot.quantize, Chatbot.int16_bytes.
    induction inputData as [|x l IH]; [reflexivity|].
    cbn [map flat_map app List.length]. rewrite IH. lia.
  - rewrite littleEndian_int16_bytes, map_map.
    unfold Chatbot.quantize. rewrite map_map. apply map_ext. intros x.
    set (z := JS.ToInt16 _).
    assert (Hz : (-32768 <= z <= 32767)%Z) by apply ToInt16_range.
    unfold JS.wrapInt16. rewrite Zplus_mod_idemp_l.
    fold (JS.wrapInt16 z). now apply wrapInt16_id.
Qed.

End Frames.

(** ** The conversation of the text widget *)

Section Conversation.

Import ChatbotText TextSession Notions.

Variable env : Environment.
Variable Json : Type.
Variable JSON_parse : string -> Json + string.
Variable JSON_stringify : Json -> string.

Local Open Scope nat_scope.

Local Abbreviation run_session :=
  (session env Json JSON_parse JSON_stringify).

Ltac fields :=
  cbn [isOpen transcription inputValue isLoading error showFeedback
       feedbackSubmitted isSubmitting chatHistoryRef isSubmittingRef
       introShownRef pending awaitingReply effects
       setIsOpen setTranscription setInputValue setIsLoading setError
       setShowFeedback setFeedbackSubmitted setIsSubmitting
       set_chatHistoryRef set_isSubmittingRef set_introShownRef set_pending
       set_awaitingReply perform pushHistory] in *.

(** What [sendMessage] can do to the transcript, the history and the
    bookkeeping of the request. *)
Lemma sendMessage_cases key st :
  sendMessage key st = st
  \/ (isLoading st = false
      /\ exists added,
           transcription (sendMessage key st) = transcription st ++ added
           /\ chatHistoryRef (sendMessage key st)
              = chatHistoryRef st ++ map turnOf added
           /\ ((isLoading (sendMessage key st) = false
                /\ awaitingReply (sendMessage key st) = awaitingReply st)
               \/ (isLoading (sendMessage key st) = true
                   /\ awaitingReply (sendMessage key st) = S (awaitingReply st)))).
Proof.
  unfold sendMessage. cbv zeta.
  destruct (JS.truthy (JS.trim (inputValue st))); cbn [negb orb]; [|now left].
  destruct (isLoading st) eqn:Hload; [now left|]. right.
  split; [reflexivity|].
  destruct (JS.includes (lastBotMessage st) "Is that correct?"
            && isConfirmationAnswer (JS.trim (inputValue st))).
  - exists [mkEntry user (JS.trim (inputValue st)) true;
            mkEntry bot closingMessage true].
    fields. rewrite <- !app_assoc. repeat split; try reflexivity.
    left. split; [exact Hload|reflexivity].
  - exists [mkEntry user (JS.trim (inputValue st)) true].
    destruct (JS.truthy key); cbn [negb]; fields;
      repeat split; try reflexivity; [right|left]; split; reflexivity.
Qed.

Lemma replySettled_cases r st :
  replySettled r st = st /\ awaitingReply st = 0
  \/ exists n added,
       awaitingReply st = S n
       /\ transcription (replySettled r st) = transcription st ++ added
       /\ chatHistoryRef (replySettled r st)
          = chatHistoryRef st ++ map turnOf added
       /\ isLoading (replySettled r st) = false
       /\ awaitingReply (replySettled r st) = n.
Proof.
  unfold replySettled.
  destruct (awaitingReply st) as [|n] eqn:Ha; [now left|]. right.
  exists n. destruct r as [[t|]|m].
  - exists [mkEntry bot (JS.trim t) true]. fields. repeat split; reflexivity.
  - exists [mkEntry bot "I apologize, I could not generate a response." true].
    fields. repeat split; reflexivity.
  - exists []. fields. rewrite !app_nil_r. repeat split; reflexivity.
Qed.

Lemma replyRejectedNullish_cases st :
  replyRejectedNullish st = st /\ awaitingReply st = 0
  \/ exists n,
       awaitingReply st = S n
       /\ transcription (replyRejectedNullish st) = transcription st
       /\ chatHistoryRef (replyRejectedNullish st) = chatHistoryRef st
       /\ error (replyRejectedNullish st) = error st
       /\ effects (replyRejectedNullish st) = effects st
       /\ isLoading (replyRejectedNullish st) = false
       /\ awaitingReply (replyRejectedNullish st) = n.
Proof.
  unfold replyRejectedNullish.
  destruct (awaitingReply st) as [|n] eqn:Ha; [now left|]. right.
  exists n. fields. repeat split; reflexivity.
Qed.

Lemma submission_keeps_conversation st e :
  let st' := step Json JSON_parse JSON_stringify st e in
  transcription st' = transcription st
  /\ chatHistoryRef st' = chatHistoryRef st
  /\ isLoading st' = isLoading st
  /\ awaitingReply st' = awaitingReply st.
Proof.
  destruct e as [|i r|i r]; cbn [step];
    unfold handleDataSubmission, generateContentSettled, fetchSettled,
      submissionFailed, submissionSucceeded.
  - destruct (isSubmittingRef st); fields; repeat split; reflexivity.
  - destruct (nth_error (pending st) i) as [[|]|]; try (repeat split; reflexivity).
    destruct r as [t|m]; [destruct (JSON_parse _)|]; fields;
      repeat split; reflexivity.
  - destruct (nth_error (pending st) i) as [[|]|]; try (repeat split; reflexivity).
    destruct r as [w|m]; [destruct (_ || _)|]; fields; repeat split; reflexivity.
Qed.

Lemma introEffect_cases st :
  let st' := introEffect st in
  isLoading st' = isLoading st
  /\ awaitingReply st' = awaitingReply st
  /\ ((transcription st' = transcription st
       /\ chatHistoryRef st' = chatHistoryRef st)
      \/ (transcription st = []
          /\ transcription st' = [mkEntry bot intro true]
          /\ chatHistoryRef st'
             = chatHistoryRef st ++ [mkTurn role_model [intro]])).
Proof.
  unfold introEffect. cbv zeta.
  destruct (isOpen st) eqn:Ho; cbn [andb negb].
  - destruct (Nat.eqb (List.length (transcription st)) 0) eqn:Hl; cbn [andb].
    + destruct (introShownRef st); cbn [negb]; fields; rewrite ?Ho; cbn [negb];
        repeat split; try reflexivity; [now left|right].
      apply Nat.eqb_eq in Hl. apply length_zero_iff_nil in Hl.
      repeat split; try assumption; reflexivity.
    + rewrite Ho. cbn [negb]. repeat split; try reflexivity. now left.
  - rewrite Ho. cbn [negb]. fields. repeat split; try reflexivity. now left.
Qed.

Lemma act_mirrors st a :
  mirrors st -> mirrors (act env Json JSON_parse JSON_stringify st a).
Proof.
  unfold mirrors. intros Hm. destruct a as [| |value| |r| |e]; cbn [act].
  - unfold open.
    destruct (introEffect_cases (setIsOpen true st))
      as (_ & _ & [(Ht & Hh)|(Hnil & Ht & Hh)]); cbv zeta in *; fields.
    + now rewrite Ht, Hh.
    + rewrite Ht, Hh, Hm, Hnil. reflexivity.
  - unfold handleClose.
    destruct (introEffect_cases (resetChat (setIsOpen false st)))
      as (_ & _ & [(Ht & Hh)|(Hnil & Ht & Hh)]); cbv zeta in *;
      rewrite Ht, Hh; unfold resetChat; fields; reflexivity.
  - exact Hm.
  - destruct (sendMessage_cases (getApiKey env) st)
      as [->|(_ & added & Ht & Hh & _)]; [exact Hm|].
    now rewrite Ht, Hh, Hm, map_app.
  - destruct (replySettled_cases r st)
      as [(-> & _)|(n & added & _ & Ht & Hh & _)]; [exact Hm|].
    now rewrite Ht, Hh, Hm, map_app.
  - destruct (replyRejectedNullish_cases st)
      as [(-> & _)|(n & _ & Ht & Hh & _)]; [exact Hm|].
    now rewrite Ht, Hh.
  - destruct (submission_keeps_conversation st e) as (Ht & Hh & _).
    cbv zeta in *. now rewrite Ht, Hh.
Qed.

(** X13.  Whatever the user does and whatever comes back, starting from the
    mounted widget, the chat history sent to the model is the transcript:
    one turn per entry, the role being that of the speaker and the text
    that of the entry, in the same order. *)
Theorem history_mirrors_transcript actions :
  mirrors (run_session textMounted actions).
Proof.
  assert (H : forall st, mirrors st -> mirrors (run_session st actions)).
  { induction actions as [|a l IH]; intros st Hm; [exact Hm|].
    unfold session in *. cbn [fold_left]. apply IH. now apply act_mirrors. }
  apply H. reflexivity.
Qed.

Lemma act_oneRequest st a :
  oneRequest st -> oneRequest (act env Json JSON_parse JSON_stringify st a).
Proof.
  unfold oneRequest. intros Hm. destruct a as [| |value| |r| |e]; cbn [act].
  - unfold open.
    destruct (introEffect_cases (setIsOpen true st)) as (Hl & Ha & _).
    cbv zeta in *. fields. now rewrite Hl, Ha.
  - unfold handleClose.
    destruct (introEffect_cases (resetChat (setIsOpen false st))) as (Hl & Ha & _).
    cbv zeta in *. rewrite Hl, Ha. unfold resetChat. fields. exact Hm.
  - exact Hm.
  - destruct (sendMessage_cases (getApiKey env) st)
      as [->|(Hload & added & _ & _ & [(Hl & Ha)|(Hl & Ha)])]; [exact Hm| |];
      rewrite Hl, Ha, Hm, Hload; reflexivity.
  - destruct (replySettled_cases r st)
      as [(-> & _)|(n & added & Hs & _ & _ & Hl & Ha)]; [exact Hm|].
    rewrite Hl, Ha. rewrite Hs in Hm.
    destruct (isLoading st); congruence.
  - destruct (replyRejectedNullish_cases st)
      as [(-> & _)|(n & Hs & _ & _ & _ & _ & Hl & Ha)]; [exact Hm|].
    rewrite Hl, Ha. rewrite Hs in Hm.
    destruct (isLoading st); congruence.
  - destruct (submission_keeps_conversation st e) as (_ & _ & Hl & Ha).
    cbv zeta in *. now rewrite Hl, Ha.
Qed.

(** X14.  Starting from the mounted widget, at most one [sendMessage] is
    ever waiting for the model, and the widget is loading exactly while one
    is: closing the chat, reopening it or submitting the quote do not change
    that, and a reply that nobody waits for changes nothing. *)
Theorem one_request_in_flight actions :
  let st := run_session textMounted actions in
  awaitingReply st = (if isLoading st then 1 else 0)
  /\ awaitingReply st <= 1
  /\ (awaitingReply st = 0 -> forall r, replySettled r st = st)
  /\ (isLoading st = true ->
      sendMessage (getApiKey env) st = st).
Proof.
  assert (H : forall st, oneRequest st -> oneRequest (run_session st actions)).
  { induction actions as [|a l IH]; intros st Hm; [exact Hm|].
    unfold session in *. cbn [fold_left]. apply IH. now apply act_oneRequest. }
  specialize (H textMounted eq_refl). unfold oneRequest in H.
  cbv zeta. split; [exact H|]. split.
  - rewrite H. destruct (isLoading _); lia.
  - split.
    + intros H0 r. unfold replySettled. now rewrite H0.
    + intros Hl. unfold sendMessage. cbv zeta. rewrite Hl.
      now rewrite orb_true_r.
Qed.

Lemma reopened st :
  let st' := open (handleClose st) in
  transcription st' = [mkEntry bot intro true]
  /\ chatHistoryRef st' = [mkTurn role_model [intro]]
  /\ isOpen st' = true
  /\ introShownRef st' = true
  /\ inputValue st' = ""
  /\ error st' = None
  /\ showFeedback st' = false
  /\ feedbackSubmitted st' = false
  /\ isSubmitting st' = false
  /\ isSubmittingRef st' = false
  /\ isLoading st' = isLoading st
  /\ awaitingReply st' = awaitingReply st
  /\ effects st' = effects st.
Proof.
  unfold open, handleClose, introEffect, resetChat. cbv zeta. fields.
  cbn [andb negb List.length Nat.eqb]. fields. cbn [andb negb].
  repeat split; reflexivity.
Qed.

(** X15.  Closing the chat and opening it again always starts a fresh
    conversation: the transcript and the history hold the introduction and
    nothing else, the input, the error, the feedback and the submission
    guard are cleared, and running the effect hook again does not add the
    introduction a second time. *)
Theorem reopening_starts_afresh st :
  let st' := open (handleClose st) in
  transcription st' = [mkEntry bot intro true]
  /\ chatHistoryRef st' = [mkTurn role_model [intro]]
  /\ inputValue st' = ""
  /\ error st' = None
  /\ showFeedback st' = false
  /\ isSubmitting st' = false
  /\ isSubmittingRef st' = false
  /\ showSubmit st' = false
  /\ introEffect st' = st'
  /\ open st' = st'.
Proof.
  destruct (reopened st)
    as (Ht & Hh & Ho & Hs & Hi & He & Hf & _ & Hsu & Hr & _).
  cbv zeta in *.
  generalize dependent (open (handleClose st)). intros st' Ht Hh Ho Hs Hi He Hf Hsu Hr.
  assert (Hintro : introEffect st' = st').
  { unfold introEffect. cbv zeta. rewrite Ho, Ht, Hs.
    cbn [List.length Nat.eqb andb negb]. rewrite Ho. reflexivity. }
  repeat (split; [assumption|]).
  split; [unfold showSubmit; now rewrite Ht|].
  split; [exact Hintro|].
  unfold open.
  replace (setIsOpen true st') with st'; [exact Hintro|].
  destruct st'. cbn in Ho. now rewrite Ho.
Qed.

(** X16.  Closing the chat does not cancel the request that is waiting for
    the model: it stays loading through the close and the reopening, and
    when the reply arrives it is appended to the new conversation, right
    after the introduction, and pushed to its history. *)
Theorem late_reply_lands_in_the_new_conversation st n t :
  awaitingReply st = S n ->
  let reopenedChat := open (handleClose st) in
  let st' := replySettled (Fulfilled (Some t)) reopenedChat in
  awaitingReply reopenedChat = S n
  /\ isLoading reopenedChat = isLoading st
  /\ transcription st'
     = [mkEntry bot intro true; mkEntry bot (JS.trim t) true]
  /\ chatHistoryRef st'
     = [mkTurn role_model [intro]; mkTurn role_model [JS.trim t]]
  /\ isLoading st' = false
  /\ awaitingReply st' = n.
Proof.
  intros Ha.
  destruct (reopened st)
    as (Ht & Hh & _ & _ & _ & _ & _ & _ & _ & _ & Hl & Haw & _).
  cbv zeta in *. rewrite Ha in Haw.
  generalize dependent (open (handleClose st)). intros c Ht Hh Hl Haw.
  unfold replySettled. rewrite Haw. fields. rewrite Ht, Hh.
  repeat split; try reflexivity; assumption.
Qed.

(** X17.  An ordinary message (not a confirmation of the summary), sent
    with a key while nothing is loading: the trimmed text is appended as a
    user entry, the input and the error are cleared, the widget is loading,
    and one request goes out whose contents are the history with the turn
    of the user at its end.  When the model answers, its trimmed text is
    appended as a bot entry (the fixed apology when the answer has no
    text); when the request fails with a reason, no entry is added and the
    error is set to the message of the reason, or to the fixed text when
    it has none; when it fails with [null] or [undefined] for a reason,
    no entry is added and no error is set or shown, the [catch] block
    having thrown before [setError].  In each case the widget stops
    loading. *)
Theorem message_and_reply st :
  isLoading st = false ->
  awaitingReply st = 0 ->
  JS.truthy (JS.trim (inputValue st)) = true ->
  JS.includes (lastBotMessage st) "Is that correct?"
  && isConfirmationAnswer (JS.trim (inputValue st)) = false ->
  JS.truthy (getApiKey env) = true ->
  let said := mkEntry user (JS.trim (inputValue st)) true in
  let sent := sendMessage (getApiKey env) st in
  transcription sent = transcription st ++ [said]
  /\ chatHistoryRef sent = chatHistoryRef st ++ [turnOf said]
  /\ inputValue sent = ""
  /\ error sent = None
  /\ isLoading sent = true
  /\ effects sent
     = effects st
       ++ [GenerateReply "gemini-2.5-flash" (chatHistoryRef st ++ [turnOf said])]
  /\ (forall t,
        let st' := replySettled (Fulfilled (Some t)) sent in
        transcription st'
          = transcription st ++ [said; mkEntry bot (JS.trim t) true]
        /\ isLoading st' = false /\ error st' = None
        /\ effects st' = effects sent)
  /\ (let st' := replySettled (Fulfilled None) sent in
      transcription st'
        = transcription st
          ++ [said; mkEntry bot "I apologize, I could not generate a response." true]
      /\ isLoading st' = false)
  /\ (forall message,
        let st' := replySettled (Rejected message) sent in
        transcription st' = transcription st ++ [said]
        /\ error st'
           = Some (JS.or_else message "Connection failed. Please check your API key.")
        /\ isLoading st' = false
        /\ effects st' = effects sent)
  /\ (let st' := replyRejectedNullish sent in
      transcription st' = transcription st ++ [said]
      /\ error st' = None
      /\ errorPanel st' = None
      /\ isLoading st' = false
      /\ effects st' = effects sent).
Proof.
  intros Hload Haw Htext Hconf Hkey said sent.
  assert (E : sent =
    set_awaitingReply 1
      (perform [GenerateReply "gemini-2.5-flash" (chatHistoryRef st ++ [turnOf said])]
         (setIsLoading true
            (pushHistory (turnOf said)
               (setTranscription (fun prev => prev ++ [said])
                  (setError None (setInputValue "" st))))))).
  { subst sent. unfold sendMessage. cbv zeta.
    rewrite Htext, Hload. cbn [negb orb]. rewrite Hconf, Hkey. cbn [negb].
    fields. rewrite Haw. reflexivity. }
  clearbody sent. subst sent.
  unfold replySettled, replyRejectedNullish, errorPanel. cbv zeta. fields.
  repeat split; intros; fields; rewrite <- ?app_assoc; reflexivity.
Qed.

(** X18.  The same message sent without a key: the user entry is still
    appended and pushed to the history and the input is cleared, but no
    request goes out, nothing is left waiting, the widget is not loading,
    and the error about the key is set and shown. *)
Theorem message_without_key st :
  isLoading st = false ->
  JS.truthy (JS.trim (inputValue st)) = true ->
  JS.includes (lastBotMessage st) "Is that correct?"
  && isConfirmationAnswer (JS.trim (inputValue st)) = false ->
  JS.truthy (getApiKey env) = false ->
  let said := mkEntry user (JS.trim (inputValue st)) true in
  let sent := sendMessage (getApiKey env) st in
  transcription sent = transcription st ++ [said]
  /\ chatHistoryRef sent = chatHistoryRef st ++ [turnOf said]
  /\ inputValue sent = ""
  /\ effects sent = effects st
  /\ awaitingReply sent = awaitingReply st
  /\ isLoading sent = false
  /\ error sent
     = Some "Connection setup is incomplete. Please ensure GEMINI_API_KEY is set."
  /\ errorPanel sent
     = Some "Connection setup is incomplete. Please ensure GEMINI_API_KEY is set.".
Proof.
  intros Hload Htext Hconf Hkey said sent.
  subst sent. unfold sendMessage. cbv zeta.
  rewrite Htext, Hload. cbn [negb orb]. rewrite Hconf, Hkey. cbn [negb].
  unfold errorPanel. fields. repeat split; reflexivity.
Qed.

Lemma text_submit_idle st :
  textIdle st ->
  handleDataSubmission st
  = set_pending [AwaitGenerateContent]
      (perform [GenerateContent "gemini-2.5-flash" (extractionPrompt st)]
         (setIsSubmitting true (set_isSubmittingRef true st))).
Proof.
  intros (Href & Hpend). unfold handleDataSubmission. rewrite Href.
  unfold extractionPrompt, transcriptText. fields. now rewrite Hpend.
Qed.

Lemma text_extracted text data st :
  pending st = [AwaitGenerateContent] ->
  JSON_parse text = inl data ->
  generateContentSettled Json JSON_parse JSON_stringify 0 (Fulfilled (Some text)) st
  = set_pending [AwaitFetch]
      (perform [Fetch "/api/submit-quote" "POST" (JSON_stringify data)] st).
Proof.
  intros Hp Hparse. unfold generateContentSettled. rewrite Hp.
  cbn [nth_error]. rewrite Hparse. fields. now rewrite Hp.
Qed.

Lemma text_fetch_refused webhookRes st :
  pending st = [AwaitFetch] ->
  refused webhookRes = true ->
  exists message,
    JS.truthy message = true
    /\ fetchSettled 0 (Fulfilled webhookRes) st
       = set_isSubmittingRef false
           (setIsSubmitting false (setError (Some message) (set_pending [] st))).
Proof.
  intros Hp Hr. unfold fetchSettled. rewrite Hp. cbn [nth_error remove_nth].
  unfold refused in Hr. cbv zeta. rewrite Hr. unfold submissionFailed.
  eexists. split; [|reflexivity]. apply or_else_truthy. reflexivity.
Qed.

Lemma text_fetch_accepted webhookRes st :
  pending st = [AwaitFetch] ->
  refused webhookRes = false ->
  fetchSettled 0 (Fulfilled webhookRes) st
  = setShowFeedback true
      (set_isSubmittingRef false (setIsSubmitting false (set_pending [] st))).
Proof.
  intros Hp Hr. unfold fetchSettled. rewrite Hp. cbn [nth_error remove_nth].
  unfold refused in Hr. cbv zeta. rewrite Hr. reflexivity.
Qed.

(** X19.  In the text widget nothing of the submission clears the error: a
    submission that the relay refuses and a second one that it accepts
    leave [showFeedback] set and the guard clear, after two extraction
    requests and two relay calls, but the message of the first failure is
    still the one the error panel shows, and the feedback prompt is not
    rendered. *)
Theorem error_outlives_accepted_retry st text data refusal acceptance :
  textIdle st ->
  JSON_parse text = inl data ->
  refused refusal = true ->
  refused acceptance = false ->
  let st' :=
    run Json JSON_parse JSON_stringify st
      [Submit; GenerateContentSettled 0 (Fulfilled (Some text));
       FetchSettled 0 (Fulfilled refusal);
       Submit; GenerateContentSettled 0 (Fulfilled (Some text));
       FetchSettled 0 (Fulfilled acceptance)] in
  showFeedback st' = true
  /\ isSubmittingRef st' = false
  /\ (exists message,
        error st' = Some message /\ JS.truthy message = true
        /\ errorPanel st' = Some message)
  /\ feedbackPrompt st' = false
  /\ effects st'
     = effects st
       ++ [GenerateContent "gemini-2.5-flash" (extractionPrompt st);
           Fetch "/api/submit-quote" "POST" (JSON_stringify data);
           GenerateContent "gemini-2.5-flash" (extractionPrompt st);
           Fetch "/api/submit-quote" "POST" (JSON_stringify data)].
Proof.
  intros Hidle Hparse Hrefused Haccepted.
  unfold run. cbn [fold_left step]. cbv zeta.
  rewrite (text_submit_idle st Hidle).
  match goal with
  | |- context [generateContentSettled _ _ _ 0 _ (set_pending ?p ?s)] =>
      rewrite (text_extracted text data (set_pending p s) eq_refl Hparse)
  end.
  match goal with
  | |- context [fetchSettled 0 (Fulfilled refusal) ?s] =>
      destruct (text_fetch_refused refusal s eq_refl Hrefused)
        as (message & Hm & ->)
  end.
  rewrite text_submit_idle by (split; reflexivity).
  match goal with
  | |- context [generateContentSettled _ _ _ 0 _ (set_pending ?p ?s)] =>
      rewrite (text_extracted text data (set_pending p s) eq_refl Hparse)
  end.
  match goal with
  | |- context [fetchSettled 0 (Fulfilled acceptance) ?s] =>
      rewrite (text_fetch_accepted acceptance s eq_refl Haccepted)
  end.
  unfold feedbackPrompt, errorPanel, extractionPrompt, transcriptText. fields.
  rewrite Hm, <- !app_assoc. cbn [app].
  repeat split; try reflexivity.
  exists message. rewrite Hm. repeat split.
Qed.

End Conversation.

(** ** The relay of [server.ts] and the submission that goes through it *)

Section Relay.

Import ChatbotText Notions.

Variable Json : Type.
Variable JSON_parse : string -> Json + string.
Variable JSON_stringify : Json -> string.

Local Open Scope nat_scope.

Lemma okStatus_200 status :
  Server.okStatus status = false -> status <> 200.
Proof. intros H ->. discriminate H. Qed.

Lemma or_else_again a b c :
  JS.truthy b = true -> JS.or_else (Some (JS.or_else a b)) c = JS.or_else a b.
Proof.
  intros Hb. unfold JS.or_else at 1. now rewrite (or_else_truthy a b Hb).
Qed.

(** X20.  A POST to [/api/submit-quote] is always answered by the relay.
    The webhook is called, with the body parsed and serialised again,
    exactly when the body is JSON; the answer has status 200 exactly when
    a component reads it as accepted, and that is exactly when the body
    was JSON and the webhook answered with a status from 200 to 299. *)
Theorem relay_accepts_iff_webhook_does req webhook :
  Server.method req = "POST"%string ->
  Server.url req = "/api/submit-quote"%string
  \/ Server.url req = "/api/submit-quote/"%string ->
  exists forwarded reply,
    Server.handler Json JSON_parse JSON_stringify req webhook
    = Server.Relayed forwarded reply
    /\ (forall payload, JSON_parse (Server.body req) = inl payload ->
          forwarded = Some (JSON_stringify payload))
    /\ (forall message, JSON_parse (Server.body req) = inr message ->
          forwarded = None /\ Server.statusCode reply = 500)
    /\ (Server.statusCode reply = 200
        <-> refused (Server.received reply) = false)
    /\ (refused (Server.received reply) = false
        <-> exists payload status,
              JSON_parse (Server.body req) = inl payload
              /\ webhook = Fulfilled status
              /\ Server.okStatus status = true).
Proof.
  intros Hm Hu. unfold Server.handler. rewrite Hm.
  assert (Hurl : (Server.url req =? "/api/submit-quote")%string
                 || (Server.url req =? "/api/submit-quote/")%string = true).
  { destruct Hu as [-> | ->]; reflexivity. }
  rewrite Hurl. cbn [String.eqb Ascii.eqb Bool.eqb andb].
  destruct (JSON_parse (Server.body req)) as [payload|message].
  - destruct webhook as [status|thrown].
    + destruct (Server.okStatus status) eqn:Hok.
      * do 2 eexists. split; [reflexivity|].
        split; [intros p [= <-]; reflexivity|].
        split; [intros m [=]|].
        unfold refused, Server.received. cbn. 
        split; [split; reflexivity|].
        split; [intros _; now exists payload, status|reflexivity].
      * do 2 eexists. split; [reflexivity|].
        split; [intros p [= <-]; reflexivity|].
        split; [intros m [=]|].
        unfold refused, Server.received. cbn. rewrite Hok. cbn.
        split; [split; [intros E; now apply okStatus_200 in Hok|discriminate]|].
        split; [discriminate|].
        intros (p & s & _ & [= <-] & Hs). congruence.
    + do 2 eexists. split; [reflexivity|].
      split; [intros p [= <-]; reflexivity|].
      split; [intros m [=]|].
      unfold refused, Server.received. cbn.
      split; [split; discriminate|].
      split; [discriminate|]. intros (p & s & _ & [=] & _).
  - do 2 eexists. split; [reflexivity|].
    split; [intros p [=]|].
    split; [intros m _; split; reflexivity|].
    unfold refused, Server.received. cbn.
    split; [split; discriminate|].
    split; [discriminate|]. intros (p & s & [=] & _).
Qed.

(** X21.  The submission of the text widget through the relay: the
    request that the widget sends is relayed to the webhook with the
    extracted data, and what the user gets is decided by the webhook.  A
    status from 200 to 299 shows the feedback prompt's flag and leaves the
    error as it was; another status is reported as
    [Webhook failed (status).]; a webhook that cannot be reached is
    reported with the message of the failure, or [Webhook failed (500).]
    when it has none. *)
Theorem webhook_outcome_reaches_the_user st text data webhook :
  textIdle st ->
  JSON_parse text = inl data ->
  JSON_parse (JSON_stringify data) = inl data ->
  let sent :=
    run Json JSON_parse JSON_stringify st
      [Submit; GenerateContentSettled 0 (Fulfilled (Some text))] in
  exists fetched request reply,
    effects sent
    = effects st
      ++ [GenerateContent "gemini-2.5-flash" (extractionPrompt st); fetched]
    /\ requestOf fetched = Some request
    /\ Server.handler Json JSON_parse JSON_stringify request webhook
       = Server.Relayed (Some (JSON_stringify data)) reply
    /\ let st' := fetchSettled 0 (Fulfilled (Server.received reply)) sent in
       isSubmittingRef st' = false
       /\ isSubmitting st' = false
       /\ pending st' = []
       /\ match webhook with
          | Fulfilled status =>
              if Server.okStatus status
              then showFeedback st' = true /\ error st' = error st
              else showFeedback st' = showFeedback st
                   /\ error st'
                      = Some ("Webhook failed (" ++ JS.Number_toString status
                              ++ ").")%string
          | Rejected message =>
              showFeedback st' = showFeedback st
              /\ error st' = Some (JS.or_else message "Webhook failed (500).")
          end.
Proof.
  intros Hidle Hparse Hround.
  unfold run. cbn [fold_left step]. cbv zeta.
  rewrite (text_submit_idle st Hidle).
  match goal with
  | |- context [generateContentSettled _ _ _ 0 _ (set_pending ?p ?s)] =>
      rewrite (text_extracted Json JSON_parse JSON_stringify text data
                 (set_pending p s) eq_refl Hparse)
  end.
  exists (Fetch "/api/submit-quote" "POST" (JSON_stringify data)).
  exists (Server.mkRequest "POST" "/api/submit-quote" (JSON_stringify data)).
  unfold Server.handler.
  cbn [Server.method Server.url Server.body String.eqb Ascii.eqb Bool.eqb andb orb].
  rewrite Hround.
  destruct webhook as [status|thrown].
  - destruct (Server.okStatus status) eqn:Hok.
    + eexists. split; [cbn; now rewrite <- app_assoc|].
      split; [reflexivity|]. split; [reflexivity|].
      rewrite text_fetch_accepted; [|reflexivity|reflexivity].
      cbn. repeat split; reflexivity.
    + eexists. split; [cbn; now rewrite <- app_assoc|].
      split; [reflexivity|]. split; [reflexivity|].
      unfold fetchSettled, Server.received, submissionFailed.
      cbn. rewrite Hok. cbn. repeat split; reflexivity.
  - eexists. split; [cbn; now rewrite <- app_assoc|].
    split; [reflexivity|]. split; [reflexivity|].
    unfold fetchSettled, Server.received, submissionFailed.
    cbn. repeat split; try reflexivity.
    transitivity
      (Some (JS.or_else (Some (JS.or_else thrown "Webhook failed (500)."))
               "Quote submission failed. Check console."));
      [reflexivity|].
    f_equal. apply or_else_again. reflexivity.
Qed.

End Relay.

(** ** Instances of the theorems above *)

Lemma session_reaches_listening_witness :
  JS.truthy (getApiKey Notions.configured) = true
  /\ Chatbot.status
       (Chatbot.onopen 4
          (Chatbot.microphoneGranted (Chatbot.mkMediaStream [3%nat])
             (Chatbot.mkAudioContext 1 Chatbot.running)
             (Chatbot.mkAudioContext 2 Chatbot.running) 0
             (Chatbot.startSession Notions.configured true Notions.mounted)))
     = LISTENING.
Proof.
  split; [reflexivity|].
  pose proof (session_reaches_listening Notions.configured Notions.mounted
                (Chatbot.mkMediaStream [3%nat])
                (Chatbot.mkAudioContext 1 Chatbot.running)
                (Chatbot.mkAudioContext 2 Chatbot.running) 0%nat 4%nat eq_refl)
    as H.
  cbv zeta in H. exact (proj1 H).
Defined.

Lemma late_grant_still_opens_the_session_witness :
  JS.truthy (getApiKey Notions.configured) = true
  /\ Chatbot.status
       (Chatbot.stopSession
          (Chatbot.startSession Notions.configured true Notions.mounted))
     = IDLE
  /\ Chatbot.status
       (Chatbot.onopen 4
          (Chatbot.microphoneGranted (Chatbot.mkMediaStream [3%nat])
             (Chatbot.mkAudioContext 1 Chatbot.running)
             (Chatbot.mkAudioContext 2 Chatbot.running) 0
             (Chatbot.stopSession
                (Chatbot.startSession Notions.configured true Notions.mounted))))
     = LISTENING.
Proof.
  split; [reflexivity|].
  pose proof (late_grant_still_opens_the_session Notions.configured
                Notions.mounted (Chatbot.mkMediaStream [3%nat])
                (Chatbot.mkAudioContext 1 Chatbot.running)
                (Chatbot.mkAudioContext 2 Chatbot.running) 0%nat 4%nat eq_refl)
    as H.
  cbv zeta in H. destruct H as (_ & Hidle & _ & Hlistening & _).
  split; [exact Hidle|exact Hlistening].
Defined.

Lemma all_sources_ended_listening_witness :
  Chatbot.audioSourcesRef (Notions.endAll [0%nat] Notions.live) = []
  /\ Chatbot.status (Notions.endAll [0%nat] Notions.live) = LISTENING.
Proof.
  assert (Hids : [0%nat] <> []) by discriminate.
  assert (Hall : forall s, In s (Chatbot.audioSourcesRef Notions.live) ->
                           In (Chatbot.node s) [0%nat]).
  { intros s [<- | []]. left. reflexivity. }
  destruct (all_sources_ended_listening [0%nat] Notions.live Hids Hall)
    as (Hsources & Hstatus & _).
  split; [exact Hsources|exact Hstatus].
Defined.

Lemma ended_after_teardown_sets_listening_witness :
  Notions.sourcesNeedContext Notions.live
  /\ Chatbot.status (Chatbot.onended 0 (Chatbot.stopSession Notions.live))
     = LISTENING
  /\ Chatbot.microphoneStreamRef
       (Chatbot.onended 0 (Chatbot.stopSession Notions.live)) = None.
Proof.
  assert (Hinv : Notions.sourcesNeedContext Notions.live)
    by (intros H; discriminate H).
  split; [exact Hinv|].
  destruct (ended_after_teardown_sets_listening 0%nat Notions.live Hinv)
    as (Hstatus & _ & Hmic & _).
  split; [exact Hstatus|exact Hmic].
Defined.

Lemma accumulators_survive_restart_witness :
  JS.truthy (getApiKey Notions.configured) = true
  /\ Chatbot.transcription
       (fst (Chatbot.onmessage Notions.bytesOfString (Notions.partialInput "lo") 0
               (Chatbot.onopen 4
                  (Chatbot.microphoneGranted (Chatbot.mkMediaStream [3%nat])
                     (Chatbot.mkAudioContext 1 Chatbot.running)
                     (Chatbot.mkAudioContext 2 Chatbot.running) 0
                     (Chatbot.startSession Notions.configured true
                        Notions.midSentence)))))
     = [mkEntry user "Hello" false].
Proof.
  split; [reflexivity|].
  pose proof (accumulators_survive_restart Notions.bytesOfString
                Notions.configured Notions.midSentence
                (Chatbot.mkMediaStream [3%nat])
                (Chatbot.mkAudioContext 1 Chatbot.running)
                (Chatbot.mkAudioContext 2 Chatbot.running) 0%nat 4%nat
                "lo" 0%Q eq_refl) as H.
  cbv zeta in H. destruct H as (_ & _ & _ & _ & Hinput & _).
  exact Hinput.
Defined.

Lemma accepted_submission_shows_feedback_witness :
  Notions.refused Notions.accepted = false
  /\ Chatbot.showFeedback
       (Chatbot.fetchSettled 0 (Fulfilled Notions.accepted)
          (Chatbot.set_pending [AwaitFetch] Notions.live)) = true
  /\ Chatbot.feedbackPrompt
       (Chatbot.fetchSettled 0 (Fulfilled Notions.accepted)
          (Chatbot.set_pending [AwaitFetch] Notions.live)) = true
  /\ Chatbot.status
       (Chatbot.fetchSettled 0 (Fulfilled Notions.accepted)
          (Chatbot.set_pending [AwaitFetch] Notions.live)) = IDLE.
Proof.
  split; [reflexivity|].
  pose proof (accepted_submission_shows_feedback
                (Chatbot.set_pending [AwaitFetch] Notions.live) 0%nat
                Notions.accepted eq_refl eq_refl) as H.
  cbv zeta in H. destruct H as (Hshown & _ & Hprompt & _ & _ & Hstatus & _).
  split; [exact Hshown|]. split; [exact Hprompt|exact Hstatus].
Defined.

Lemma late_reply_lands_in_the_new_conversation_witness :
  ChatbotText.awaitingReply (ChatbotText.sendMessage "key" Notions.greeted) = 1%nat
  /\ ChatbotText.transcription
       (ChatbotText.replySettled (Fulfilled (Some "Hi there"))
          (ChatbotText.open
             (ChatbotText.handleClose
                (ChatbotText.sendMessage "key" Notions.greeted))))
     = [mkEntry bot ChatbotText.intro true; mkEntry bot "Hi there" true].
Proof.
  assert (Hone : ChatbotText.awaitingReply
                   (ChatbotText.sendMessage "key" Notions.greeted) = 1%nat)
    by (vm_compute; reflexivity).
  split; [exact Hone|].
  pose proof (late_reply_lands_in_the_new_conversation
                (ChatbotText.sendMessage "key" Notions.greeted) 0%nat
                "Hi there" Hone) as H.
  cbv zeta in H. destruct H as (_ & _ & Htranscript & _).
  exact Htranscript.
Defined.

Lemma message_and_reply_witness :
  JS.truthy (getApiKey Notions.configured) = true
  /\ ChatbotText.isLoading
       (ChatbotText.sendMessage (getApiKey Notions.configured) Notions.greeted)
     = true
  /\ ChatbotText.transcription
       (ChatbotText.replySettled (Fulfilled (Some "Hi there"))
          (ChatbotText.sendMessage (getApiKey Notions.configured) Notions.greeted))
     = ChatbotText.transcription Notions.greeted
       ++ [mkEntry user (JS.trim (ChatbotText.inputValue Notions.greeted)) true;
           mkEntry bot (JS.trim "Hi there") true]
  /\ ChatbotText.errorPanel
       (ChatbotText.replyRejectedNullish
          (ChatbotText.sendMessage (getApiKey Notions.configured) Notions.greeted))
     = None.
Proof.
  split; [reflexivity|].
  assert (H1 : ChatbotText.isLoading Notions.greeted = false)
    by (vm_compute; reflexivity).
  assert (H2 : ChatbotText.awaitingReply Notions.greeted = 0%nat)
    by (vm_compute; reflexivity).
  assert (H3 : JS.truthy (JS.trim (ChatbotText.inputValue Notions.greeted)) = true)
    by (vm_compute; reflexivity).
  assert (H4 : JS.includes (ChatbotText.lastBotMessage Notions.greeted)
                 "Is that correct?"
               && ChatbotText.isConfirmationAnswer
                    (JS.trim (ChatbotText.inputValue Notions.greeted)) = false)
    by (vm_compute; reflexivity).
  pose proof (message_and_reply Notions.configured Notions.greeted
                H1 H2 H3 H4 eq_refl) as H.
  cbv zeta in H.
  destruct H as (_ & _ & _ & _ & Hloading & _ & Hreply & _ & _ & Hnullish).
  split; [exact Hloading|]. split; [exact (proj1 (Hreply "Hi there"))|].
  destruct Hnullish as (_ & _ & Hpanel & _). exact Hpanel.
Defined.

Lemma message_without_key_witness :
  JS.truthy (getApiKey Notions.unconfigured) = false
  /\ ChatbotText.effects
       (ChatbotText.sendMessage (getApiKey Notions.unconfigured) Notions.greeted)
     = ChatbotText.effects Notions.greeted
  /\ ChatbotText.errorPanel
       (ChatbotText.sendMessage (getApiKey Notions.unconfigured) Notions.greeted)
     = Some "Connection setup is incomplete. Please ensure GEMINI_API_KEY is set.".
Proof.
  split; [reflexivity|].
  assert (H1 : ChatbotText.isLoading Notions.greeted = false)
    by (vm_compute; reflexivity).
  assert (H3 : JS.truthy (JS.trim (ChatbotText.inputValue Notions.greeted)) = true)
    by (vm_compute; reflexivity).
  assert (H4 : JS.includes (ChatbotText.lastBotMessage Notions.greeted)
                 "Is that correct?"
               && ChatbotText.isConfirmationAnswer
                    (JS.trim (ChatbotText.inputValue Notions.greeted)) = false)
    by (vm_compute; reflexivity).
  pose proof (message_without_key Notions.unconfigured Notions.greeted
                H1 H3 H4 eq_refl) as H.
  cbv zeta in H.
  destruct H as (_ & _ & _ & Heffects & _ & _ & _ & Hpanel).
  split; [exact Heffects|exact Hpanel].
Defined.

Lemma error_outlives_accepted_retry_witness :
  Notions.refused Notions.badGateway = true
  /\ Notions.refused Notions.accepted = false
  /\ ChatbotText.showFeedback
       (ChatbotText.run string Notions.parseAny Notions.printAny
          Notions.textMounted
          [Submit; GenerateContentSettled 0 (Fulfilled (Some "{}"));
           FetchSettled 0 (Fulfilled Notions.badGateway);
           Submit; GenerateContentSettled 0 (Fulfilled (Some "{}"));
           FetchSettled 0 (Fulfilled Notions.accepted)]) = true
  /\ ChatbotText.feedbackPrompt
       (ChatbotText.run string Notions.parseAny Notions.printAny
          Notions.textMounted
          [Submit; GenerateContentSettled 0 (Fulfilled (Some "{}"));
           FetchSettled 0 (Fulfilled Notions.badGateway);
           Submit; GenerateContentSettled 0 (Fulfilled (Some "{}"));
           FetchSettled 0 (Fulfilled Notions.accepted)]) = false.
Proof.
  split; [reflexivity|]. split; [reflexivity|].
  assert (Hidle : Notions.textIdle Notions.textMounted)
    by (split; reflexivity).
  pose proof (error_outlives_accepted_retry string Notions.parseAny
                Notions.printAny Notions.textMounted "{}" "{}"
                Notions.badGateway Notions.accepted
                Hidle eq_refl eq_refl eq_refl) as H.
  cbv zeta in H. destruct H as (Hshown & _ & _ & Hprompt & _).
  split; [exact Hshown|exact Hprompt].
Defined.

Lemma relay_accepts_iff_webhook_does_witness :
  exists forwarded reply,
    Server.handler string Notions.parseAny Notions.printAny
      (Server.mkRequest "POST" "/api/submit-quote" "{}") (Fulfilled 502%nat)
    = Server.Relayed forwarded reply
    /\ (Server.statusCode reply = 200%nat
        <-> Notions.refused (Server.received reply) = false).
Proof.
  destruct (relay_accepts_iff_webhook_does string Notions.parseAny
              Notions.printAny
              (Server.mkRequest "POST" "/api/submit-quote" "{}")
              (Fulfilled 502%nat) eq_refl (or_introl eq_refl))
    as (forwarded & reply & Hrelayed & _ & _ & Hstatus & _).
  exists forwarded, reply. split; [exact Hrelayed|exact Hstatus].
Defined.

Lemma webhook_outcome_reaches_the_user_witness :
  exists fetched request reply,
    Notions.requestOf fetched = Some request
    /\ Server.handler string Notions.parseAny Notions.printAny request
         (Fulfilled 502%nat)
       = Server.Relayed (Some (Notions.printAny "{}")) reply
    /\ ChatbotText.error
         (ChatbotText.fetchSettled 0 (Fulfilled (Server.received reply))
            (ChatbotText.run string Notions.parseAny Notions.printAny
               Notions.textMounted
               [Submit; GenerateContentSettled 0 (Fulfilled (Some "{}"))]))
       = Some "Webhook failed (502).".
Proof.
  assert (Hidle : Notions.textIdle Notions.textMounted)
    by (split; reflexivity).
  pose proof (webhook_outcome_reaches_the_user string Notions.parseAny
                Notions.printAny Notions.textMounted "{}" "{}"
                (Fulfilled 502%nat) Hidle eq_refl eq_refl) as H.
  cbv zeta in H.
  destruct H as (fetched & request & reply & _ & Hrequest & Hrelayed
                 & _ & _ & _ & Hshown).
  exists fetched, request, reply.
  split; [exact Hrequest|]. split; [exact Hrelayed|].
  exact (proj2 Hshown).
Defined.
